(** * conda.gateways.disk.delete: best-effort recursive deletion

    A shallow embedding of [conda/gateways/disk/delete.py].  The Python
    functions are written as computations in a state-and-exception monad over
    an abstract world; the operating system (the [os], [os.path], [shutil] and
    [subprocess] calls) and the sibling modules of the package that the file
    imports are gathered in one interface record.  A concrete POSIX file
    system implements that record and is used to run the functions. *)

From Stdlib Require Import List String Ascii ZArith Bool Arith Lia.
Import ListNotations.
Open Scope string_scope.

Set Implicit Arguments.

(** ** Exceptions and outcomes *)

(** The exceptions the module can see.  [OSError] carries its [errno]
    ([IOError] is the same class), [CalledProcessError] is what
    [subprocess.check_call] raises on a non-zero exit status and has no
    [errno] attribute, [OtherError] stands for any other exception class. *)
Inductive exn : Type :=
| OSError (errno : Z)
| CalledProcessError (returncode : Z)
| OtherError (name : string).

Definition EPERM : Z := 1.
Definition ENOENT : Z := 2.
Definition EACCES : Z := 13.
Definition EBUSY : Z := 16.
Definition EEXIST : Z := 17.
Definition ENOTDIR : Z := 20.
Definition EISDIR : Z := 21.
Definition EINVAL : Z := 22.
Definition ENOTEMPTY : Z := 39.

(** [getattr(e, 'errno', None)] *)
Definition errno_of (e : exn) : option Z :=
  match e with
  | OSError n => Some n
  | _ => None
  end.

(** How a call ends: with a value, with an exception in flight, or (for the
    one unbounded loop of the module) without an answer within the fuel. *)
Inductive outcome (A : Type) : Type :=
| Return (a : A)
| Raise (e : exn)
| OutOfFuel.

Arguments Return {A} a.
Arguments Raise {A} e.
Arguments OutOfFuel {A}.

(** [subprocess] commands: a shell line ([shell=True]) or an argument vector. *)
Inductive command : Type :=
| Shell (line : string)
| Argv (args : list string).

(** The triples produced by [os.walk]. *)
Definition walk_entry : Type := (string * list string * list string)%type.

Section Monad.
Variable W : Type.

Definition M (A : Type) : Type := W -> outcome A * W.

(** An [os.path] predicate: never raises. *)
Definition query : Type := W -> bool * W.

(** A function of [os]: returns or raises [OSError(errno)]. *)
Definition syscall (A : Type) : Type := W -> (A + Z) * W.

(** A function of the package itself or a subprocess call: returns or raises
    any exception. *)
Definition prim (A : Type) : Type := W -> (A + exn) * W.

Definition ret {A} (a : A) : M A := fun w => (Return a, w).

Definition raise {A} (e : exn) : M A := fun w => (Raise e, w).

Definition bind {A B} (m : M A) (k : A -> M B) : M B :=
  fun w =>
    match m w with
    | (Return a, w') => k a w'
    | (Raise e, w') => (Raise e, w')
    | (OutOfFuel, w') => (OutOfFuel, w')
    end.

(** [try: body / except ...: handler]; the handler re-raises what its
    [except] clause does not name. *)
Definition try_except {A} (body : M A) (handler : exn -> M A) : M A :=
  fun w =>
    match body w with
    | (Raise e, w') => handler e w'
    | r => r
    end.

(** A call that cannot fail. *)
Definition gather {A} (f : W -> A * W) : M A :=
  fun w => let '(a, w') := f w in (Return a, w').

Definition ask (q : query) : M bool := gather q.

Definition call {A} (s : syscall A) : M A :=
  fun w =>
    match s w with
    | (inl a, w') => (Return a, w')
    | (inr n, w') => (Raise (OSError n), w')
    end.

Definition run {A} (f : prim A) : M A :=
  fun w =>
    match f w with
    | (inl a, w') => (Return a, w')
    | (inr e, w') => (Raise e, w')
    end.

Definition effect (f : W -> W) : M unit := fun w => (Return tt, f w).

(** [for x in xs: body(x)] *)
Fixpoint for_ {A} (xs : list A) (body : A -> M unit) : M unit :=
  match xs with
  | [] => ret tt
  | x :: xs' => bind (body x) (fun _ => for_ xs' body)
  end.
End Monad.

Arguments ret {W A} a.
Arguments raise {W A} e.
Arguments bind {W A B} m k.
Arguments try_except {W A} body handler.
Arguments gather {W A} f.
Arguments ask {W} q.
Arguments call {W A} s.
Arguments run {W A} f.
Arguments effect {W} f.
Arguments for_ {W A} xs body.

Declare Scope monad_scope.
Delimit Scope monad_scope with monad.
Notation "x <- m ;; k" := (bind m (fun x => k))
  (at level 61, m at next level, right associativity) : monad_scope.
Notation "m ;; k" := (bind m (fun _ => k))
  (at level 61, right associativity) : monad_scope.
Open Scope monad_scope.

(** ** The environment of the module *)

(** Everything [delete.py] imports.  The [os] functions raise only [OSError];
    [os.path.isdir] and [os.walk] never raise; the functions of the package
    itself ([islink], [lexists], [make_writable], [recursive_make_writable])
    and the subprocess calls may raise anything.  All of them return.  [recursive_make_writable]
    takes its optional [max_tries] keyword as an option.  [walk] gives the
    triples [os.walk] yields, in order, as one list: the generator is run to
    its end before the body of the loop over it starts.  Logging is not
    modelled. *)
Record OS (W : Type) : Type := MkOS {
  (* conda.common.compat, conda.base.context, sys, conda.gateways.disk *)
  on_win : bool;
  conda_prefix : string;
  sys_prefix : string;
  MAX_TRIES : nat;
  (* os.path *)
  abspath : string -> syscall W string;
  dirname : string -> string;
  join : string -> string -> string;
  split : string -> string * string;
  normcase : string -> string;
  isdir : string -> query W;
  (* os *)
  unlink : string -> syscall W unit;
  rename : string -> string -> syscall W unit;
  rmdir : string -> syscall W unit;
  listdir : string -> syscall W (list string);
  makedirs : string -> syscall W unit;
  getcwd : syscall W string;
  walk : string -> bool -> W -> list walk_entry * W;
  (* shutil, subprocess, builtins *)
  shutil_rmtree : string -> syscall W unit;
  check_call : command -> prim W unit;
  popen_communicate : list string -> prim W unit;
  print : string -> W -> W;
  (* conda.gateways.disk.link, conda.gateways.disk.permissions *)
  islink : string -> prim W bool;
  lexists : string -> prim W bool;
  make_writable : string -> prim W unit;
  recursive_make_writable : string -> option nat -> prim W unit;
  (* what exp_backoff_fn needs from the platform *)
  transient : exn -> bool;
  sleep : nat -> W -> W
}.

(** ** fnmatch *)

(** [fnmatch.fnmatchcase] for patterns made of literal characters, [?] and
    [*] (bracket expressions are not modelled; the module only uses
    ["*.trash"]). *)
Fixpoint fnmatchcase_pat (pat : string) : string -> bool :=
  match pat with
  | EmptyString => fun name => match name with EmptyString => true | _ => false end
  | String c pat' =>
      if Ascii.eqb c "*" then
        fix star (name : string) : bool :=
          fnmatchcase_pat pat' name
          || match name with
             | EmptyString => false
             | String _ name' => star name'
             end
      else
        fun name =>
          match name with
          | EmptyString => false
          | String d name' =>
              (Ascii.eqb c "?" || Ascii.eqb c d) && fnmatchcase_pat pat' name'
          end
  end.

Definition fnmatchcase (name pat : string) : bool := fnmatchcase_pat pat name.

Definition dquote : string := String (ascii_of_nat 34) EmptyString.

(** ** The module *)

Section Delete.
Variable W : Type.
Variable os : OS W.

(** [fnmatch.fnmatch(name, pat)]: both sides go through [os.path.normcase]. *)
Definition fnmatch (name pat : string) : bool :=
  fnmatchcase (normcase os name) (normcase os pat).

(** The type of the [onerror] keyword handed to the tree deleter. *)
Definition onerror_t : Type := (string -> M W unit) -> string -> exn -> M W unit.

(** [rmtree(path, *args, **kwargs)]: the extra arguments, among them
    [onerror], are accepted and never used. *)
Definition rmtree (path : string) (onerror : option onerror_t) : M W unit :=
  (if on_win os then
     run (check_call os (Shell ("rd /s /q " ++ dquote ++ path ++ dquote)))
   else
     try_except (call (makedirs os ".empty")) (fun _ => ret tt) ;;
     cwd <- call (getcwd os) ;;
     let args := ["rsync"; "-a"; "--delete"; join os cwd ".empty" ++ "/"; path ++ "/"] in
     effect (print os (String.concat " " args)) ;;
     cwd' <- call (getcwd os) ;;
     run (check_call os
            (Argv ["rsync"; "-a"; "--delete"; join os cwd' ".empty" ++ "/"; path ++ "/"])) ;;
     call (shutil_rmtree os ".empty")) ;;
  call (rmdir os path).

Definition unlink_or_rename_to_trash (path : string) : M W unit :=
  try_except
    (run (make_writable os path) ;;
     call (unlink os path))
    (fun e =>
       match e with
       | OSError _ =>
           if on_win os then
             let condabin_dir := join os (conda_prefix os) "condabin" in
             let trash_script := join os condabin_dir "rename_trash.bat" in
             let '(_dirname, _fn) := split os path in
             run (popen_communicate os ["cmd.exe"; "/C"; trash_script; _dirname; _fn])
           else
             call (rename os path (path ++ ".trash"))
       | _ => raise e
       end).

(** The [while] loop of [remove_empty_parent_paths]; [fuel] bounds the
    number of iterations. *)
Fixpoint remove_empty_parent_paths_loop (fuel : nat) (parent_path : string) : M W unit :=
  match fuel with
  | O => fun w => (OutOfFuel, w)
  | S fuel' =>
      d <- ask (isdir os parent_path) ;;
      if d then
        names <- call (listdir os parent_path) ;;
        match names with
        | [] =>
            call (rmdir os parent_path) ;;
            remove_empty_parent_paths_loop fuel' (dirname os parent_path)
        | _ :: _ => ret tt
        end
      else ret tt
  end.

Definition remove_empty_parent_paths (fuel : nat) (path : string) : M W unit :=
  let parent_path := dirname os path in
  remove_empty_parent_paths_loop fuel parent_path.

(** Modelled from the spec: [exp_backoff_fn] is imported from the package's
    [__init__], which is not among the sources.  The operation is invoked;
    when it fails with a transient error and attempts remain, the wrapper
    sleeps (the delay grows with the attempt number) and invokes it again,
    up to [max_tries] attempts; the last error is re-raised. *)
Fixpoint exp_backoff_loop {A} (fn : M W A) (attempt remaining : nat) : M W A :=
  match remaining with
  | O => fn
  | S remaining' =>
      try_except fn
        (fun e =>
           if transient os e then
             effect (sleep os attempt) ;;
             exp_backoff_loop fn (S attempt) remaining'
           else raise e)
  end.

Definition exp_backoff_fn {A} (fn : M W A) (max_tries : nat) : M W A :=
  exp_backoff_loop fn 0 (Nat.pred max_tries).

(** The two closures of [backoff_rmdir]. *)
Definition retry (max_tries : nat) : onerror_t :=
  fun func path exc_info =>
    if match errno_of exc_info with Some n => Z.eqb n ENOENT | None => false end
    then ret tt
    else
      run (recursive_make_writable os (dirname os path) (Some max_tries)) ;;
      func path.

Definition _rmdir (max_tries : nat) (path : string) : M W unit :=
  try_except
    (run (recursive_make_writable os path None) ;;
     exp_backoff_fn (rmtree path (Some (retry max_tries))) max_tries)
    (fun e =>
       match e with
       | OSError n => if Z.eqb n ENOENT then ret tt else raise e
       | _ => raise e
       end).

(** The first statement of [backoff_rmdir] after its guard:
    [try: rmtree(dirpath) / except: pass]. *)
Definition backoff_rmdir_bulk (dirpath : string) : M W unit :=
  try_except (rmtree dirpath None) (fun _ => ret tt).

(** The walk over what the bulk deletion left, bottom-up. *)
Definition backoff_rmdir_walk (dirpath : string) (max_tries : nat) : M W unit :=
  entries <- gather (walk os dirpath false) ;;
  for_ entries
    (fun '(root, dirs, files) =>
       for_ files (fun file => unlink_or_rename_to_trash (join os root file)) ;;
       for_ dirs (fun dir => _rmdir max_tries (join os root dir))).

Definition backoff_rmdir (dirpath : string) (max_tries : nat) : M W unit :=
  d <- ask (isdir os dirpath) ;;
  if negb d then ret tt
  else
    backoff_rmdir_bulk dirpath ;;
    backoff_rmdir_walk dirpath max_tries ;;
    _rmdir max_tries dirpath.

(** The classification of [rm_rf], on the normalized path. *)
Definition rm_rf_classify (path : string) : M W unit :=
  d <- ask (isdir os path) ;;
  real_dir <- (if d then l <- run (islink os path) ;; ret (negb l) else ret false) ;;
  if real_dir then backoff_rmdir path (MAX_TRIES os)
  else
    e <- run (lexists os path) ;;
    if e then unlink_or_rename_to_trash path
    else ret tt.

(** The [try] block of [rm_rf]: how it ended and the value of the local
    [path], which is rebound only when [abspath] returns. *)
Definition rm_rf_try (path : string) : W -> outcome unit * string * W :=
  fun w =>
    match call (abspath os path) w with
    | (Return p, w1) => let '(r, w2) := rm_rf_classify p w1 in (r, p, w2)
    | (Raise e, w1) => (Raise e, path, w1)
    | (OutOfFuel, w1) => (OutOfFuel, path, w1)
    end.

(** [rm_rf(path, max_retries=5, trash=True, clean_empty_parents=False)].
    The [finally] block runs however the [try] block ended; its [return]
    discards an exception in flight, and when it does not return the
    exception continues. *)
Definition rm_rf (fuel : nat) (path : string) (max_retries : nat)
    (trash clean_empty_parents : bool) : M W bool :=
  fun w =>
    let '(r, path, w1) := rm_rf_try path w in
    match r with
    | OutOfFuel => (OutOfFuel, w1)   (* a block that does not end has no [finally] *)
    | _ =>
        match lexists os path w1 with
        | (inl true, w2) => (Return false, w2)
        | (inl false, w2) =>
            match r with
            | Return _ =>
                if clean_empty_parents then
                  (remove_empty_parent_paths fuel path ;; ret true) w2
                else (Return true, w2)
            | Raise e => (Raise e, w2)
            | OutOfFuel => (OutOfFuel, w2)
            end
        | (inr e, w2) => (Raise e, w2)
        end
    end.

(** The legacy aliases. *)
Definition try_rmdir_all_empty := rm_rf.
Definition move_to_trash := rm_rf.
Definition move_path_to_trash := rm_rf.

(** [try: unlink(filename) / except (OSError, IOError) as e: log.debug(...)] *)
Definition unlink_logged (filename : string) : M W unit :=
  try_except (call (unlink os filename))
    (fun e => match e with OSError _ => ret tt | _ => raise e end).

(** [if not prefix: prefix = sys.prefix]: the prefix that is walked. *)
Definition trash_root (prefix : option string) : string :=
  match prefix with
  | None | Some EmptyString => sys_prefix os
  | Some p => p
  end.

(** [delete_trash(prefix=None)] *)
Definition delete_trash (prefix : option string) : M W unit :=
  let prefix := trash_root prefix in
  entries <- gather (walk os prefix true) ;;
  for_ entries
    (fun '(root, dirs, files) =>
       for_ files
         (fun basename =>
            if fnmatch basename "*.trash" then
              let filename := join os root basename in
              unlink_logged filename
            else ret tt)).
End Delete.

(** ** Interposition *)

(** The calls that reach the environment, with their arguments. *)
Inductive oscall : Type :=
| CAbspath (p : string)
| CIsdir (p : string)
| CUnlink (p : string)
| CRename (src dst : string)
| CRmdir (p : string)
| CListdir (p : string)
| CMakedirs (p : string)
| CGetcwd
| CWalk (top : string) (topdown : bool)
| CShutilRmtree (p : string)
| CCheckCall (c : command)
| CPopen (args : list string)
| CPrint (line : string)
| CIslink (p : string)
| CLexists (p : string)
| CMakeWritable (p : string)
| CRecursiveMakeWritable (p : string) (max_tries : option nat)
| CSleep (attempt : nat).

Section Interpose.
Variables W S : Type.
Variable os : OS W.

(** What happens around the program between two of its calls: [hook c] runs
    just before call [c] is served.  It may keep a journal in [S], or stand
    for another process acting on the same world. *)
Variable hook : oscall -> W * S -> W * S.

Definition hooked {X} (c : oscall) (f : W -> X * W) : W * S -> X * (W * S) :=
  fun ws =>
    let '(w1, s1) := hook c ws in
    let '(x, w2) := f w1 in
    (x, (w2, s1)).

Definition hooked0 (c : oscall) (f : W -> W) : W * S -> W * S :=
  fun ws => let '(w1, s1) := hook c ws in (f w1, s1).

Definition interpose : OS (W * S) :=
  {| on_win := on_win os;
     conda_prefix := conda_prefix os;
     sys_prefix := sys_prefix os;
     MAX_TRIES := MAX_TRIES os;
     abspath := fun p => hooked (CAbspath p) (abspath os p);
     dirname := dirname os;
     join := join os;
     split := split os;
     normcase := normcase os;
     isdir := fun p => hooked (CIsdir p) (isdir os p);
     unlink := fun p => hooked (CUnlink p) (unlink os p);
     rename := fun a b => hooked (CRename a b) (rename os a b);
     rmdir := fun p => hooked (CRmdir p) (rmdir os p);
     listdir := fun p => hooked (CListdir p) (listdir os p);
     makedirs := fun p => hooked (CMakedirs p) (makedirs os p);
     getcwd := hooked CGetcwd (getcwd os);
     walk := fun top td => hooked (CWalk top td) (walk os top td);
     shutil_rmtree := fun p => hooked (CShutilRmtree p) (shutil_rmtree os p);
     check_call := fun c => hooked (CCheckCall c) (check_call os c);
     popen_communicate := fun a => hooked (CPopen a) (popen_communicate os a);
     print := fun l => hooked0 (CPrint l) (print os l);
     islink := fun p => hooked (CIslink p) (islink os p);
     lexists := fun p => hooked (CLexists p) (lexists os p);
     make_writable := fun p => hooked (CMakeWritable p) (make_writable os p);
     recursive_make_writable :=
       fun p n => hooked (CRecursiveMakeWritable p n) (recursive_make_writable os p n);
     transient := transient os;
     sleep := fun n => hooked0 (CSleep n) (sleep os n) |}.
End Interpose.

(** A journal of the calls made. *)
Definition journal {W} (c : oscall) (ws : W * list oscall) : W * list oscall :=
  (fst ws, (snd ws ++ [c])%list).

Definition recording {W} (os : OS W) : OS (W * list oscall) := interpose os journal.

(** ** posixpath *)

Definition is_slash (c : ascii) : bool := Ascii.eqb c "/".

Definition is_empty (s : string) : bool :=
  match s with EmptyString => true | _ => false end.

(** [s.split('/')] *)
Fixpoint split_slash (s : string) : list string :=
  match s with
  | EmptyString => [EmptyString]
  | String c s' =>
      if is_slash c then EmptyString :: split_slash s'
      else
        match split_slash s' with
        | h :: t => String c h :: t
        | [] => [String c EmptyString]
        end
  end.

(** [s[:s.rfind('/') + 1]] *)
Fixpoint head_slash (s : string) : string :=
  match s with
  | EmptyString => EmptyString
  | String c s' =>
      let h := head_slash s' in
      if is_slash c then String c h
      else if is_empty h then EmptyString else String c h
  end.

(** [s[s.rfind('/') + 1:]] *)
Fixpoint tail_slash (s : string) : string :=
  match s with
  | EmptyString => EmptyString
  | String c s' =>
      if is_empty (head_slash s) then s else tail_slash s'
  end.

(** [s.rstrip('/')] *)
Fixpoint rstrip_slash (s : string) : string :=
  match s with
  | EmptyString => EmptyString
  | String c s' =>
      let r := rstrip_slash s' in
      if is_slash c && is_empty r then EmptyString else String c r
  end.

(** [s.endswith('/')] *)
Fixpoint ends_with_slash (s : string) : bool :=
  match s with
  | EmptyString => false
  | String c EmptyString => is_slash c
  | String _ s' => ends_with_slash s'
  end.

Definition posix_isabs (p : string) : bool :=
  match p with
  | String c _ => is_slash c
  | EmptyString => false
  end.

(** [head and head != '/' * len(head)] then [head.rstrip('/')] *)
Definition strip_head (head : string) : string :=
  if is_empty (rstrip_slash head) then head else rstrip_slash head.

Definition posix_dirname (p : string) : string := strip_head (head_slash p).

Definition posix_split (p : string) : string * string :=
  (strip_head (head_slash p), tail_slash p).

Definition posix_join (a b : string) : string :=
  if posix_isabs b then b
  else if is_empty a || ends_with_slash a then a ++ b
  else a ++ "/" ++ b.

Definition is_nil {A} (l : list A) : bool :=
  match l with [] => true | _ => false end.

Definition last_is (l : list string) (s : string) : bool :=
  match rev l with
  | x :: _ => String.eqb x s
  | [] => false
  end.

(** One turn of the component loop of [normpath]. *)
Definition normpath_step (initial_slashes : bool) (new_comps : list string)
    (comp : string) : list string :=
  if String.eqb comp "" || String.eqb comp "." then new_comps
  else if negb (String.eqb comp "..")
          || (negb initial_slashes && is_nil new_comps)
          || last_is new_comps ".."
  then (new_comps ++ [comp])%list
  else removelast new_comps.

Definition initial_slashes (path : string) : string :=
  match path with
  | String a (String b (String c _)) =>
      if is_slash a then
        if is_slash b && negb (is_slash c) then "//" else "/"
      else ""
  | String a (String b EmptyString) =>
      if is_slash a then if is_slash b then "//" else "/" else ""
  | String a EmptyString => if is_slash a then "/" else ""
  | EmptyString => ""
  end.

Definition posix_normpath (path : string) : string :=
  if is_empty path then "."
  else
    let ini := initial_slashes path in
    let comps := fold_left (normpath_step (negb (is_empty ini))) (split_slash path) [] in
    let path' := ini ++ String.concat "/" comps in
    if is_empty path' then "." else path'.

(** ** A POSIX file system *)

(** Files carry a write-permission bit and their content, directories a
    write-permission bit (needed to add, remove or rename an entry) and their
    entries.  A symbolic link is followed only as the last component of a
    path; paths are resolved lexically, so that a world stands for the file
    system as far as the paths used have no link at an inner component. *)
Inductive node : Type :=
| File (writable : bool) (data : string)
| Link (target : string)
| Dir (writable : bool) (entries : list (string * node)).

Record world : Type := MkWorld {
  fs : node;
  cwd : list string;
  stdout : list string
}.

Definition set_fs (w : world) (t : node) : world :=
  {| fs := t; cwd := cwd w; stdout := stdout w |}.

(** The components a path names, from the root. *)
Definition comps_step (acc : list string) (comp : string) : list string :=
  if String.eqb comp "" || String.eqb comp "." then acc
  else if String.eqb comp ".." then removelast acc
  else (acc ++ [comp])%list.

Definition path_comps (cwd : list string) (p : string) : option (list string) :=
  if is_empty p then None
  else Some (fold_left comps_step (split_slash p) (if posix_isabs p then [] else cwd)).

(** The absolute path string of a list of components. *)
Fixpoint render_rel (comps : list string) : string :=
  match comps with
  | [] => ""
  | c :: comps' => "/" ++ c ++ render_rel comps'
  end.

Definition render (comps : list string) : string :=
  match comps with
  | [] => "/"
  | _ => render_rel comps
  end.

(** The names a directory entry can bear. *)
Fixpoint has_slash (s : string) : bool :=
  match s with
  | EmptyString => false
  | String c s' => is_slash c || has_slash s'
  end.

Definition valid_name (n : string) : bool :=
  negb (is_empty n) && negb (has_slash n)
  && negb (String.eqb n ".") && negb (String.eqb n "..").

Fixpoint assoc (name : string) (es : list (string * node)) : option node :=
  match es with
  | [] => None
  | (n, m) :: es' => if String.eqb n name then Some m else assoc name es'
  end.

(** [lstat], on a path none of whose inner components is a symbolic link:
    the path is resolved one component at a time and a link met on the way
    is not followed (the answer is then [None], where the system would go
    on from the target of the link).  The calls below inherit this: they are
    those of the system on paths whose directory part is free of links, see
    [link_free]. *)
Fixpoint lookup (p : list string) (t : node) : option node :=
  match p with
  | [] => Some t
  | c :: p' =>
      match t with
      | Dir _ es =>
          match assoc c es with
          | Some m => lookup p' m
          | None => None
          end
      | _ => None
      end
  end.

(** [stat]: the last component is followed when it is a link. *)
Fixpoint stat (fuel : nat) (p : list string) (t : node) {struct fuel} : option node :=
  match lookup p t with
  | Some (Link target) =>
      match fuel with
      | O => None
      | S fuel' =>
          match path_comps (removelast p) target with
          | Some p' => stat fuel' p' t
          | None => None
          end
      end
  | r => r
  end.

Definition MAXSYMLINKS : nat := 40.

(** Apply [F] to the entry [lstat] finds under [name]. *)
Fixpoint map_first (name : string) (F : node -> node) (es : list (string * node))
    : list (string * node) :=
  match es with
  | [] => []
  | (n, m) :: es' =>
      if String.eqb n name then (n, F m) :: es' else (n, m) :: map_first name F es'
  end.

Fixpoint alter (p : list string) (f : node -> node) (t : node) : node :=
  match p with
  | [] => f t
  | c :: p' =>
      match t with
      | Dir wr es => Dir wr (map_first c (alter p' f) es)
      | _ => t
      end
  end.

Definition remove_name (name : string) (es : list (string * node)) : list (string * node) :=
  filter (fun e => negb (String.eqb (fst e) name)) es.

Definition drop_entry (name : string) (t : node) : node :=
  match t with
  | Dir wr es => Dir wr (remove_name name es)
  | _ => t
  end.

Definition put_entry (name : string) (m : node) (t : node) : node :=
  match t with
  | Dir wr es => Dir wr (remove_name name es ++ [(name, m)])
  | _ => t
  end.

Definition set_writable (t : node) : node :=
  match t with
  | File _ d => File true d
  | Dir _ es => Dir true es
  | Link tg => Link tg
  end.

Fixpoint all_writable (t : node) : node :=
  match t with
  | File _ d => File true d
  | Link tg => Link tg
  | Dir _ es =>
      Dir true ((fix go (l : list (string * node)) : list (string * node) :=
                   match l with
                   | [] => []
                   | (n, m) :: l' => (n, all_writable m) :: go l'
                   end) es)
  end.

Fixpoint comps_eqb (a b : list string) : bool :=
  match a, b with
  | [], [] => true
  | x :: a', y :: b' => String.eqb x y && comps_eqb a' b'
  | _, _ => false
  end.

Fixpoint is_prefix (a b : list string) : bool :=
  match a, b with
  | [], _ => true
  | x :: a', y :: b' => String.eqb x y && is_prefix a' b'
  | _ :: _, [] => false
  end.

(** The result of a file-system operation: done or an [errno], and the tree
    it leaves. *)
Definition fsres : Type := ((unit + Z) * node)%type.

Definition fs_unlink (p : list string) (t : node) : fsres :=
  match p with
  | [] => (inr EISDIR, t)
  | _ =>
      let d := removelast p in
      let name := last p "" in
      match lookup d t with
      | Some (Dir wr es) =>
          match assoc name es with
          | None => (inr ENOENT, t)
          | Some (Dir _ _) => (inr EISDIR, t)
          | Some _ =>
              if wr then (inl tt, alter d (drop_entry name) t) else (inr EACCES, t)
          end
      | Some _ => (inr ENOTDIR, t)
      | None => (inr ENOENT, t)
      end
  end.

Definition fs_rmdir (p : list string) (t : node) : fsres :=
  match p with
  | [] => (inr EBUSY, t)
  | _ =>
      let d := removelast p in
      let name := last p "" in
      match lookup d t with
      | Some (Dir wr es) =>
          match assoc name es with
          | None => (inr ENOENT, t)
          | Some (Dir _ []) =>
              if wr then (inl tt, alter d (drop_entry name) t) else (inr EACCES, t)
          | Some (Dir _ (_ :: _)) => (inr (if wr then ENOTEMPTY else EACCES), t)
          | Some _ => (inr ENOTDIR, t)
          end
      | Some _ => (inr ENOTDIR, t)
      | None => (inr ENOENT, t)
      end
  end.

Definition fs_rename (src dst : list string) (t : node) : fsres :=
  match src, dst with
  | [], _ | _, [] => (inr EBUSY, t)
  | _, _ =>
      let sd := removelast src in
      let sn := last src "" in
      let dd := removelast dst in
      let dn := last dst "" in
      match lookup sd t, lookup dd t with
      | Some (Dir swr ses), Some (Dir dwr des) =>
          match assoc sn ses with
          | None => (inr ENOENT, t)
          | Some m =>
              if comps_eqb src dst then (inl tt, t)
              else if is_prefix src dst then (inr EINVAL, t)
              else if negb (swr && dwr) then (inr EACCES, t)
              else
                let move := alter dd (put_entry dn m) (alter sd (drop_entry sn) t) in
                match m, assoc dn des with
                | _, None => (inl tt, move)
                | Dir _ _, Some (Dir _ []) => (inl tt, move)
                | Dir _ _, Some (Dir _ (_ :: _)) => (inr ENOTEMPTY, t)
                | Dir _ _, Some _ => (inr ENOTDIR, t)
                | _, Some (Dir _ _) => (inr EISDIR, t)
                | _, Some _ => (inl tt, move)
                end
          end
      | Some (Dir _ _), Some _ | Some _, _ => (inr ENOTDIR, t)
      | _, _ => (inr ENOENT, t)
      end
  end.

Fixpoint fs_makedirs (done todo : list string) (t : node) : fsres :=
  match todo with
  | [] => (inr EEXIST, t)
  | c :: todo' =>
      match lookup done t with
      | Some (Dir wr es) =>
          match assoc c es with
          | Some _ =>
              match todo' with
              | [] => (inr EEXIST, t)
              | _ => fs_makedirs (done ++ [c]) todo' t
              end
          | None =>
              if wr then
                let t' := alter done (put_entry c (Dir true [])) t in
                match todo' with
                | [] => (inl tt, t')
                | _ => fs_makedirs (done ++ [c]) todo' t'
                end
              else (inr EACCES, t)
          end
      | Some _ => (inr ENOTDIR, t)
      | None => (inr ENOENT, t)
      end
  end.

(** [shutil.rmtree] on a node whose parent has write bit [parent_wr]: what is
    left of the node, and the error that stopped the deletion. *)
Fixpoint fs_rmtree_node (parent_wr : bool) (t : node) : option node * option Z :=
  match t with
  | Dir wr es =>
      let '(rest, err) :=
        (fix go (l : list (string * node)) : list (string * node) * option Z :=
           match l with
           | [] => ([], None)
           | (n, m) :: l' =>
               match fs_rmtree_node wr m with
               | (None, None) => go l'
               | (Some m', e) => ((n, m') :: l', e)
               | (None, Some e) => (l', Some e)
               end
           end) es in
      match err with
      | Some e => (Some (Dir wr rest), Some e)
      | None =>
          if parent_wr then (None, None) else (Some (Dir wr rest), Some EACCES)
      end
  | _ => if parent_wr then (None, None) else (Some t, Some EACCES)
  end.

Definition fs_rmtree (p : list string) (t : node) : fsres :=
  match p with
  | [] => (inr EBUSY, t)
  | _ =>
      let d := removelast p in
      let name := last p "" in
      match lookup d t with
      | Some (Dir wr es) =>
          match assoc name es with
          | None => (inr ENOENT, t)
          | Some (Dir w' es') =>
              match fs_rmtree_node wr (Dir w' es') with
              | (None, _) => (inl tt, alter d (drop_entry name) t)
              | (Some m', Some e) => (inr e, alter p (fun _ => m') t)
              | (Some m', None) => (inl tt, alter p (fun _ => m') t)
              end
          | Some (Link _) => (inr ENOTDIR, t)
          | Some (File _ _) => (inr ENOTDIR, t)
          end
      | Some _ => (inr ENOTDIR, t)
      | None => (inr ENOENT, t)
      end
  end.

(** The path that a path names once the link at its last component, and the
    links that one points at, are followed. *)
Fixpoint realpath (fuel : nat) (p : list string) (t : node) {struct fuel}
    : option (list string) :=
  match lookup p t with
  | Some (Link target) =>
      match fuel with
      | O => None
      | S fuel' =>
          match path_comps (removelast p) target with
          | Some p' => realpath fuel' p' t
          | None => None
          end
      end
  | Some _ => Some p
  | None => None
  end.

(** [rsync -a --delete src/ dst/], run by the owner of the files: [dst]
    becomes a mirror of the directory [src].  What [dst] held and [src] does
    not hold is deleted, whatever the write bits at or below [dst] ([rsync]
    gives itself write permission on the directories it has to empty), and
    [dst] takes the permissions of [src]; a missing [dst] is created in its
    parent, which has to be a writable directory.  The exit status is 23 when
    [src] is no directory, 3 when [dst] is no directory and 11 when [dst]
    cannot be created. *)
Definition fs_rsync_delete (src dst : list string) (t : node) : (unit + Z) * node :=
  match stat MAXSYMLINKS src t with
  | Some (Dir swr ses) =>
      match lookup dst t with
      | None =>
          match lookup (removelast dst) t with
          | Some (Dir true _) =>
              (inl tt, alter (removelast dst) (put_entry (last dst "") (Dir swr ses)) t)
          | _ => (inr 11%Z, t)
          end
      | Some _ =>
          match realpath MAXSYMLINKS dst t with
          | Some d =>
              match lookup d t with
              | Some (Dir _ _) => (inl tt, alter d (fun _ => Dir swr ses) t)
              | _ => (inr 3%Z, t)
              end
          | None => (inr 3%Z, t)
          end
      end
  | _ => (inr 23%Z, t)
  end.

Definition entry_is_dir (t0 : node) (dir : list string) (e : string * node) : bool :=
  match snd e with
  | Dir _ _ => true
  | Link _ =>
      match stat MAXSYMLINKS (dir ++ [fst e]) t0 with
      | Some (Dir _ _) => true
      | _ => false
      end
  | File _ _ => false
  end.

(** [os.walk(top, topdown)] without [followlinks]: the directory itself, then
    (or, bottom-up, before) its real subdirectories in listing order. *)
Fixpoint walk_node (t0 : node) (topdown : bool) (root : string) (dir : list string)
    (t : node) {struct t} : list walk_entry :=
  match t with
  | Dir _ es =>
      let dirs := map fst (filter (entry_is_dir t0 dir) es) in
      let files := map fst (filter (fun e => negb (entry_is_dir t0 dir e)) es) in
      let subs :=
        flat_map
          (fun e : string * node =>
             let '(name, m) := e in
             match m with
             | Dir _ _ =>
                 walk_node t0 topdown (posix_join root name) (dir ++ [name]) m
             | _ => []
             end) es in
      if topdown then (root, dirs, files) :: subs
      else (subs ++ [(root, dirs, files)])%list
  | _ => []
  end.

(** *** The calls of the interface on that file system *)

Definition with_path {A} (p : string)
    (k : list string -> world -> (A + Z) * world) : syscall world A :=
  fun w =>
    match path_comps (cwd w) p with
    | Some c => k c w
    | None => (inr ENOENT, w)
    end.

Definition fs_call (op : node -> fsres) : world -> (unit + Z) * world :=
  fun w => let '(r, t) := op (fs w) in (r, set_fs w t).

Definition posix_unlink (p : string) : syscall world unit :=
  with_path p (fun c => fs_call (fs_unlink c)).

Definition posix_rename (src dst : string) : syscall world unit :=
  with_path src (fun cs => with_path dst (fun cd => fs_call (fs_rename cs cd))).

Definition posix_rmdir (p : string) : syscall world unit :=
  with_path p (fun c => fs_call (fs_rmdir c)).

Definition posix_listdir (p : string) : syscall world (list string) :=
  with_path p
    (fun c w =>
       match stat MAXSYMLINKS c (fs w) with
       | Some (Dir _ es) => (inl (map fst es), w)
       | Some _ => (inr ENOTDIR, w)
       | None => (inr ENOENT, w)
       end).

Definition posix_makedirs (p : string) : syscall world unit :=
  with_path p (fun c => fs_call (fs_makedirs [] c)).

Definition posix_shutil_rmtree (p : string) : syscall world unit :=
  with_path p (fun c => fs_call (fs_rmtree c)).

Definition posix_getcwd : syscall world string :=
  fun w =>
    match lookup (cwd w) (fs w) with
    | Some (Dir _ _) => (inl (render (cwd w)), w)
    | _ => (inr ENOENT, w)
    end.

Definition posix_abspath (path : string) : syscall world string :=
  fun w =>
    if posix_isabs path then (inl (posix_normpath path), w)
    else
      match posix_getcwd w with
      | (inl d, w') => (inl (posix_normpath (posix_join d path)), w')
      | (inr e, w') => (inr e, w')
      end.

Definition is_dir (o : option node) : bool :=
  match o with
  | Some (Dir _ _) => true
  | _ => false
  end.

Definition is_link (o : option node) : bool :=
  match o with
  | Some (Link _) => true
  | _ => false
  end.

Definition is_some {A} (o : option A) : bool :=
  match o with
  | Some _ => true
  | None => false
  end.

Definition posix_isdir (p : string) : query world :=
  fun w =>
    match path_comps (cwd w) p with
    | Some c => (is_dir (stat MAXSYMLINKS c (fs w)), w)
    | None => (false, w)
    end.

(** Modelled from the spec: [islink] and [lexists] come from the package's
    [link] module, which is not among the sources.  Here they are what
    [os.path.islink] and [os.path.lexists] are: [lstat] succeeds and shows a
    link, [lstat] succeeds. *)
Definition posix_islink (p : string) : prim world bool :=
  fun w =>
    match path_comps (cwd w) p with
    | Some c => (inl (is_link (lookup c (fs w))), w)
    | None => (inl false, w)
    end.

Definition posix_lexists (p : string) : prim world bool :=
  fun w =>
    match path_comps (cwd w) p with
    | Some c => (inl (is_some (lookup c (fs w))), w)
    | None => (inl false, w)
    end.

Definition posix_walk (top : string) (topdown : bool) : world -> list walk_entry * world :=
  fun w =>
    match path_comps (cwd w) top with
    | Some c =>
        match stat MAXSYMLINKS c (fs w) with
        | Some t => (walk_node (fs w) topdown top c t, w)
        | None => ([], w)
        end
    | None => ([], w)
    end.

Definition posix_check_call (c : command) : prim world unit :=
  match c with
  | Argv ["rsync"; "-a"; "--delete"; src; dst] =>
      fun w =>
        match path_comps (cwd w) src, path_comps (cwd w) dst with
        | Some s, Some d =>
            let '(r, t) := fs_rsync_delete s d (fs w) in
            (match r with
             | inl _ => inl tt
             | inr rc => inr (CalledProcessError rc)
             end, set_fs w t)
        | _, _ => (inr (CalledProcessError 23), w)
        end
  | Argv _ => fun w => (inr (OSError ENOENT), w)
  | Shell _ => fun w => (inr (CalledProcessError 127), w)
  end.

(** No [cmd.exe] here. *)
Definition posix_popen_communicate (args : list string) : prim world unit :=
  fun w => (inr (OSError ENOENT), w).

Definition posix_print (line : string) (w : world) : world :=
  {| fs := fs w; cwd := cwd w; stdout := stdout w ++ [line] |}.

(** Modelled from the spec: [make_writable] lives in the package's
    [permissions] module, which is not among the sources.  It adds the
    permission bits needed to delete the entry and fails silently when the
    entry no longer exists. *)
Definition posix_make_writable (p : string) : prim world unit :=
  fun w =>
    match path_comps (cwd w) p with
    | Some c => (inl tt, set_fs w (alter c set_writable (fs w)))
    | None => (inl tt, w)
    end.

(** Modelled from the spec: [recursive_make_writable] lives in the package's
    [permissions] module, which is not among the sources.  It applies
    [make_writable] to the path and to every entry of its subtree. *)
Definition posix_recursive_make_writable (p : string) (max_tries : option nat)
    : prim world unit :=
  fun w =>
    match path_comps (cwd w) p with
    | Some c => (inl tt, set_fs w (alter c all_writable (fs w)))
    | None => (inl tt, w)
    end.

Definition posix_transient (e : exn) : bool :=
  match e with
  | OSError n => Z.eqb n EACCES || Z.eqb n EPERM
  | _ => false
  end.

(** The module on a POSIX platform.  The retry budget is the default the
    spec gives (5); the prefixes are those of an installation under
    [/opt/conda]. *)
Definition posix : OS world :=
  {| on_win := false;
     conda_prefix := "/opt/conda";
     sys_prefix := "/opt/conda";
     MAX_TRIES := 5;
     abspath := posix_abspath;
     dirname := posix_dirname;
     join := posix_join;
     split := posix_split;
     normcase := fun s => s;
     isdir := posix_isdir;
     unlink := posix_unlink;
     rename := posix_rename;
     rmdir := posix_rmdir;
     listdir := posix_listdir;
     makedirs := posix_makedirs;
     getcwd := posix_getcwd;
     walk := posix_walk;
     shutil_rmtree := posix_shutil_rmtree;
     check_call := posix_check_call;
     popen_communicate := posix_popen_communicate;
     print := posix_print;
     islink := posix_islink;
     lexists := posix_lexists;
     make_writable := posix_make_writable;
     recursive_make_writable := posix_recursive_make_writable;
     transient := posix_transient;
     sleep := fun _ w => w |}.

(** Another process that unlinks [victim] at the moment the program is about
    to unlink it itself (once). *)
Definition rival_unlink (victim : string) (c : oscall) (ws : world * bool)
    : world * bool :=
  match c, snd ws with
  | CUnlink p, false =>
      if String.eqb p victim then (snd (posix_unlink victim (fst ws)), true) else ws
  | _, _ => ws
  end.

(** *** Sample worlds *)

Definition mk_world (root : node) : world :=
  {| fs := root; cwd := []; stdout := [] |}.

(** [/a/b/c/target], with other content in [/a]. *)
Definition w_nested : world :=
  mk_world
    (Dir true
       [("a", Dir true
                [("b", Dir true [("c", Dir true [("target", File true "x")])]);
                 ("keep.txt", File true "k")])]).

(** A read-only directory [/ro] holding the directory [p] with the file [f]. *)
Definition w_readonly_parent : world :=
  mk_world
    (Dir true
       [("ro", Dir false [("p", Dir true [("f", File true "x")])]);
        ("tmp", Dir true [])]).

(** A file in a read-only directory. *)
Definition w_readonly_dir : world :=
  mk_world (Dir true [("d", Dir false [("f", File true "x")]); ("tmp", Dir true [])]).

(** A tree with trash markers at several depths, one of them in a read-only
    directory, a directory with a matching name and a link. *)
Definition w_trash : world :=
  mk_world
    (Dir true
       [("env", Dir true
           [("a.trash", File true "1");
            ("a.txt", File true "2");
            ("lib", Dir true
               [("b.trash", File false "3");
                ("b.so", File true "4");
                ("deep", Dir true [(".trash", File true "5"); ("x.trashy", File true "6")]);
                ("locked", Dir false [("c.trash", File true "7")])]);
            ("dir.trash", Dir true [("inner", File true "8")]);
            ("l.trash", Link "/env/a.txt")]);
        ("other", Dir true [("o.trash", File true "9")])]).

(** A directory, a link to it and a dangling link. *)
Definition w_links : world :=
  mk_world
    (Dir true
       [("d", Dir true [("f", File true "x"); ("sub", Dir true [("g", File false "y")])]);
        ("ld", Link "/d");
        ("dangling", Link "/nowhere");
        ("tmp", Dir true [])]).

(** ** Notions used to state the properties *)

(** A computation that returns or raises on every world: it never runs out
    of fuel. *)
Definition total {W A} (m : M W A) : Prop :=
  forall w, fst (m w) <> OutOfFuel.

(** The existence re-check of the [finally] block of [rm_rf], in the world
    the [try] block left. *)
Definition rm_rf_recheck {W} (os : OS W) (path : string) (w : W) : (bool + exn) * W :=
  let '(_, p, w1) := rm_rf_try os path w in
  lexists os p w1.

(** The ancestor pruning of [rm_rf], in the world the re-check left. *)
Definition rm_rf_pruning {W} (os : OS W) (fuel : nat) (path : string) (w : W)
    : outcome unit * W :=
  let '(_, p, w1) := rm_rf_try os path w in
  remove_empty_parent_paths os fuel p (snd (lexists os p w1)).

(** What [rm_rf] does once its [try] block has ended with the outcome [r] on
    the path [p]: the [finally] block, then the pruning and [return True]. *)
Definition rm_rf_finale {W} (os : OS W) (fuel : nat) (p : string) (clean : bool)
    (r : outcome unit * W) : outcome bool * W :=
  let '(o, u) := r in
  match o with
  | OutOfFuel => (OutOfFuel, u)
  | _ =>
      match lexists os p u with
      | (inl true, u') => (Return false, u')
      | (inl false, u') =>
          match o with
          | Return _ =>
              if clean then (remove_empty_parent_paths os fuel p ;; ret true) u'
              else (Return true, u')
          | Raise e => (Raise e, u')
          | OutOfFuel => (OutOfFuel, u')
          end
      | (inr e, u') => (Raise e, u')
      end
  end.

(** The first tier of [backoff_rmdir] as the specification words it:
    [recursive_make_writable(path)], then the tree deletion under
    [exp_backoff_fn] with the repair callback and [max_tries], any error
    swallowed. *)
Definition bulk_tier_as_specified {W} (os : OS W) (dirpath : string) (max_tries : nat)
    : M W unit :=
  try_except
    (run (recursive_make_writable os dirpath None) ;;
     exp_backoff_fn os (rmtree os dirpath (Some (retry os max_tries))) max_tries)
    (fun _ => ret tt).

(** The files [delete_trash] asks to unlink, given what the walk produced. *)
Definition trash_targets {W} (os : OS W) (entries : list walk_entry) : list string :=
  flat_map
    (fun e : walk_entry =>
       let '(root, _, files) := e in
       map (join os root) (filter (fun b => fnmatch os b "*.trash") files))
    entries.

(** What [lstat] shows of a node. *)
Inductive kind : Type :=
| KFile (writable : bool) (data : string)
| KLink (target : string)
| KDir (writable : bool).

Definition kind_of (t : node) : kind :=
  match t with
  | File wr d => KFile wr d
  | Link tg => KLink tg
  | Dir wr _ => KDir wr
  end.

Definition kind_at (p : list string) (t : node) : option kind :=
  option_map kind_of (lookup p t).

Definition is_dir_kind (k : option kind) : bool :=
  match k with
  | Some (KDir _) => true
  | _ => false
  end.

(** A package cache under a read-only directory. *)
Definition w_pkgs : world :=
  mk_world
    (Dir true
       [("pkgs", Dir false [("cache", Dir true [("repodata.json", File true "{}")])]);
        ("home", Dir true [])]).

(** Two paths that part ways at some component. *)
Definition apart (p q : list string) : Prop :=
  exists l a b p' q', p = (l ++ a :: p')%list /\ q = (l ++ b :: q')%list /\ a <> b.

(** A node without children: nothing can be looked up below it. *)
Definition childless (m : node) : Prop :=
  match m with
  | Dir _ (_ :: _) => False
  | _ => True
  end.

(** The [i]-th ancestor of a path: the path without its last [i] components. *)
Definition ancestor (i : nat) (p : list string) : list string :=
  firstn (List.length p - i) p.

(** An empty directory, as [isdir] and [listdir] see it. *)
Definition holds_nothing (o : option node) : bool :=
  match o with
  | Some (Dir _ []) => true
  | _ => false
  end.


(** No symbolic link stands at the path [p] or at a prefix of it, as far as
    the path exists in the tree.  The tree resolves paths one component at a
    time without following links at inner components; on a path that is free
    of links this is how the system resolves it, and the properties of the
    POSIX file system below are stated for such paths. *)
Fixpoint link_free (p : list string) (t : node) {struct p} : bool :=
  match t, p with
  | Link _, _ => false
  | Dir _ es, c :: p' =>
      match assoc c es with
      | Some m => link_free p' m
      | None => true
      end
  | _, _ => true
  end.



(** A chain of empty directories beside other content. *)
Definition w_hollow : world :=
  mk_world
    (Dir true
       [("a", Dir true [("b", Dir true [("c", Dir true [])])]);
        ("keep", Dir true [("k", File true "k")])]).

(** ** The glob pattern of the sweep *)

(** A pattern without [*] and [?] matches itself only. *)
Fixpoint literal (pat : string) : bool :=
  match pat with
  | EmptyString => true
  | String c pat' => negb (Ascii.eqb c "*") && negb (Ascii.eqb c "?") && literal pat'
  end.

(** The working directory has been removed under the process. *)
Definition w_lost_cwd : world :=
  {| fs := Dir true [("f", File true "x")]; cwd := ["gone"]; stdout := [] |}.

(** A stand-in for a Windows host on which every file is held open by another
    process: [unlink] is refused and the helper script can be launched.  The
    rest is borrowed from [posix]. *)
Definition held_open : OS world :=
  {| on_win := true;
     conda_prefix := "/opt/conda";
     sys_prefix := "/opt/conda";
     MAX_TRIES := 5;
     abspath := posix_abspath;
     dirname := posix_dirname;
     join := posix_join;
     split := posix_split;
     normcase := fun s => s;
     isdir := posix_isdir;
     unlink := fun _ w => (inr EACCES, w);
     rename := posix_rename;
     rmdir := posix_rmdir;
     listdir := posix_listdir;
     makedirs := posix_makedirs;
     getcwd := posix_getcwd;
     walk := posix_walk;
     shutil_rmtree := posix_shutil_rmtree;
     check_call := posix_check_call;
     popen_communicate := fun _ w => (inl tt, w);
     print := posix_print;
     islink := posix_islink;
     lexists := posix_lexists;
     make_writable := posix_make_writable;
     recursive_make_writable := posix_recursive_make_writable;
     transient := posix_transient;
     sleep := fun _ w => w |}.

(** The calls the deletion functions may make.  Off Windows: [makedirs] and
    [shutil.rmtree] on [.empty] only, [rename] of a path to that path followed
    by [.trash] only; on Windows: none of these, and no [print]; the helper
    script on Windows only.  On either: no walk from the top down, and no
    [recursive_make_writable] with a retry budget, which only the [onerror]
    closure [retry] would make. *)
Definition permitted (win : bool) (c : oscall) : bool :=
  match c with
  | CRecursiveMakeWritable _ (Some _) => false
  | CShutilRmtree p | CMakedirs p => negb win && String.eqb p ".empty"
  | CRename src dst => negb win && String.eqb dst (src ++ ".trash")
  | CPopen _ => win
  | CCheckCall (Shell _) => win
  | CCheckCall (Argv _) => negb win
  | CPrint _ => negb win
  | CWalk _ topdown => negb topdown
  | _ => true
  end.

(** A computation of the recorded environment whose calls are all in a given
    set, provided those before it were. *)
Definition keeps {W A} (P : oscall -> bool) (m : M (W * list oscall) A) : Prop :=
  forall w l, forallb P l = true -> forallb P (snd (snd (m (w, l)))) = true.

(** A tree that [unlink] and [rmdir] calls alone can remove entirely from a
    writable directory: every directory in it that holds something is
    writable. *)
Fixpoint deletable (t : node) : bool :=
  match t with
  | Dir wr es => (wr || is_nil es) && forallb (fun e : string * node => deletable (snd e)) es
  | _ => true
  end.

(** A function on nodes that changes, of a directory, the entry [n] only. *)
Definition only_entry (n : string) (F : node -> node) : Prop :=
  (forall m, kind_of (F m) = kind_of m) /\
  (forall m a r, a <> n -> lookup (a :: r) (F m) = lookup (a :: r) m).

(** The line [rmtree] prints when it empties the directory [D] from the
    working directory [c]. *)
Definition rsync_line (c D : list string) : string :=
  String.concat " "
    ["rsync"; "-a"; "--delete"; posix_join (render c) ".empty" ++ "/"; render D ++ "/"].

(** The world [u] is the world [w0] with the directory [D] emptied and made
    writable: the same elsewhere, under the same working directory. *)
Definition emptied (D : list string) (w0 u : world) : Prop :=
  cwd u = cwd w0 /\
  lookup D (fs u) = Some (Dir true []) /\
  forall q, is_prefix D q = false -> kind_at q (fs u) = kind_at q (fs w0).

(** A directory whose parent is read-only. *)
Definition w_kept : world :=
  mk_world
    (Dir true
       [("ro", Dir false
           [("p", Dir true [("f", File true "x"); ("sub", Dir true [("g", File true "y")])])]);
        ("tmp", Dir true [])]).

(** A read-only directory with two files in it. *)
Definition w_sealed : world :=
  mk_world
    (Dir true
       [("d", Dir false [("f", File false "x"); ("g", File true "y")]);
        ("tmp", Dir true [])]).


(** A file two levels below a read-only directory. *)
Definition w_readonly_grandparent : world :=
  mk_world
    (Dir true
       [("ro", Dir false [("a", Dir true [("b", Dir true [("f", File true "x")])])]);
        ("tmp", Dir true [])]).

(** * Properties *)

Unset Implicit Arguments.

(** ** The monad: what returns *)

Section Totality.
Variable W : Type.

Lemma total_ret : forall A (a : A), total (ret (W := W) a).
Proof. intros A a w; discriminate. Qed.

Lemma total_raise : forall A (e : exn), total (raise (W := W) (A := A) e).
Proof. intros A e w; discriminate. Qed.

Lemma total_bind : forall A B (m : M W A) (k : A -> M W B),
  total m -> (forall a, total (k a)) -> total (bind m k).
Proof.
  intros A B m k Hm Hk w. unfold bind.
  specialize (Hm w). destruct (m w) as [[a | e |] w']; simpl in *.
  - apply Hk.
  - discriminate.
  - congruence.
Qed.

Lemma total_try_except : forall A (m : M W A) (h : exn -> M W A),
  total m -> (forall e, total (h e)) -> total (try_except m h).
Proof.
  intros A m h Hm Hh w. unfold try_except.
  specialize (Hm w). destruct (m w) as [[a | e |] w']; simpl in *.
  - discriminate.
  - apply Hh.
  - congruence.
Qed.

Lemma total_gather : forall A (f : W -> A * W), total (gather f).
Proof. intros A f w. unfold gather. destruct (f w). discriminate. Qed.

Lemma total_ask : forall q : query W, total (ask q).
Proof. intros q. apply total_gather. Qed.

Lemma total_call : forall A (s : syscall W A), total (call s).
Proof. intros A s w. unfold call. destruct (s w) as [[a | n] w']; discriminate. Qed.

Lemma total_run : forall A (f : prim W A), total (run f).
Proof. intros A f w. unfold run. destruct (f w) as [[a | n] w']; discriminate. Qed.

Lemma total_effect : forall f : W -> W, total (effect f).
Proof. intros f w; discriminate. Qed.

Lemma total_for : forall A (xs : list A) (body : A -> M W unit),
  (forall x, total (body x)) -> total (for_ xs body).
Proof.
  intros A xs body Hb. induction xs as [| x xs IH]; simpl.
  - apply total_ret.
  - apply total_bind; auto.
Qed.

Variable os : OS W.

Lemma rmtree_total : forall path onerror, total (rmtree os path onerror).
Proof.
  intros path onerror. unfold rmtree.
  apply total_bind; [| intros; apply total_call].
  destruct (on_win os).
  - apply total_run.
  - repeat (first [ apply total_bind | apply total_try_except | apply total_call
                  | apply total_run | apply total_effect | apply total_ret | intro ]).
Qed.

Lemma unlink_or_rename_to_trash_total : forall path,
  total (unlink_or_rename_to_trash os path).
Proof.
  intros path. unfold unlink_or_rename_to_trash.
  apply total_try_except.
  - apply total_bind; [apply total_run | intros; apply total_call].
  - intros [n | rc | s]; try apply total_raise.
    destruct (on_win os).
    + destruct (split os path). apply total_run.
    + apply total_call.
Qed.

Lemma exp_backoff_loop_total : forall A (fn : M W A) remaining attempt,
  total fn -> total (exp_backoff_loop os fn attempt remaining).
Proof.
  intros A fn remaining. induction remaining as [| r IH]; intros attempt Hfn; simpl.
  - exact Hfn.
  - apply total_try_except; [exact Hfn |].
    intros e. destruct (transient os e).
    + apply total_bind; [apply total_effect | intros; apply IH; exact Hfn].
    + apply total_raise.
Qed.

Lemma _rmdir_total : forall max_tries path, total (_rmdir os max_tries path).
Proof.
  intros max_tries path. unfold _rmdir.
  apply total_try_except.
  - apply total_bind; [apply total_run |].
    intros _. apply exp_backoff_loop_total, rmtree_total.
  - intros [n | rc | s]; try apply total_raise.
    destruct (Z.eqb n ENOENT); [apply total_ret | apply total_raise].
Qed.

Lemma backoff_rmdir_total : forall dirpath max_tries,
  total (backoff_rmdir os dirpath max_tries).
Proof.
  intros dirpath max_tries. unfold backoff_rmdir.
  apply total_bind; [apply total_ask |].
  intros d. destruct (negb d); [apply total_ret |].
  apply total_bind.
  { apply total_try_except; [apply rmtree_total | intros; apply total_ret]. }
  intros _. apply total_bind; [| intros; apply _rmdir_total].
  unfold backoff_rmdir_walk. apply total_bind.
  { apply total_gather. }
  intros entries. apply total_for. intros [[root dirs] files].
  apply total_bind.
  - apply total_for. intros; apply unlink_or_rename_to_trash_total.
  - intros _. apply total_for. intros; apply _rmdir_total.
Qed.

Lemma rm_rf_classify_total : forall path, total (rm_rf_classify os path).
Proof.
  intros path. unfold rm_rf_classify.
  apply total_bind; [apply total_ask |]. intros d.
  apply total_bind.
  { destruct d; [| apply total_ret].
    apply total_bind; [apply total_run | intros; apply total_ret]. }
  intros [|].
  - apply backoff_rmdir_total.
  - apply total_bind; [apply total_run |].
    intros [|]; [apply unlink_or_rename_to_trash_total | apply total_ret].
Qed.

(** The [try] block of [rm_rf] always ends: with a value or an exception. *)
Lemma rm_rf_try_total : forall path w,
  fst (fst (rm_rf_try os path w)) <> OutOfFuel.
Proof.
  intros path w. unfold rm_rf_try, call.
  destruct (abspath os path w) as [[p | n] w1]; simpl; [| discriminate].
  pose proof (rm_rf_classify_total p w1) as H.
  destruct (rm_rf_classify os p w1) as [r w2]; simpl in *. exact H.
Qed.

Lemma delete_trash_total : forall prefix, total (delete_trash os prefix).
Proof.
  intros prefix. unfold delete_trash.
  apply total_bind.
  { apply total_gather. }
  intros entries. apply total_for. intros [[root dirs] files].
  apply total_for. intros b. destruct (fnmatch os b "*.trash"); [| apply total_ret].
  unfold unlink_logged. apply total_try_except; [apply total_call |].
  intros [n | rc | s]; first [apply total_ret | apply total_raise].
Qed.
End Totality.

(** ** The top-level operation *)

Section RmRf.
Variable W : Type.
Variable os : OS W.

(** How [rm_rf] ends, from how its [try] block ended and what the re-check
    found. *)
Lemma rm_rf_unfold : forall fuel path max_retries trash clean w,
  rm_rf os fuel path max_retries trash clean w =
  match fst (fst (rm_rf_try os path w)), rm_rf_recheck os path w with
  | OutOfFuel, _ => (OutOfFuel, snd (rm_rf_try os path w))
  | _, (inl true, w2) => (Return false, w2)
  | Return _, (inl false, w2) =>
      if clean then
        match rm_rf_pruning os fuel path w with
        | (Return _, w3) => (Return true, w3)
        | (Raise e, w3) => (Raise e, w3)
        | (OutOfFuel, w3) => (OutOfFuel, w3)
        end
      else (Return true, w2)
  | Raise e, (inl false, w2) => (Raise e, w2)
  | _, (inr e, w2) => (Raise e, w2)
  end.
Proof.
  intros fuel path max_retries trash clean w.
  unfold rm_rf, rm_rf_recheck, rm_rf_pruning.
  destruct (rm_rf_try os path w) as [[r p] w1]; simpl.
  destruct r as [[] | e |];
    destruct (lexists os p w1) as [[[|] | e'] w2]; reflexivity.
Qed.

Lemma rm_rf_try_abspath : forall path w p w1,
  abspath os path w = (inl p, w1) ->
  rm_rf_try os path w
  = (fst (rm_rf_classify os p w1), p, snd (rm_rf_classify os p w1)).
Proof.
  intros path w p w1 Habs. unfold rm_rf_try, call. rewrite Habs.
  destruct (rm_rf_classify os p w1); reflexivity.
Qed.

Lemma rm_rf_classify_dir : forall p w w1 w2,
  isdir os p w = (true, w1) ->
  islink os p w1 = (inl false, w2) ->
  rm_rf_classify os p w = backoff_rmdir os p (MAX_TRIES os) w2.
Proof.
  intros p w w1 w2 Hd Hl. unfold rm_rf_classify, bind, ask, gather, run, ret.
  rewrite Hd, Hl. reflexivity.
Qed.

Lemma rm_rf_classify_other : forall p w w1 w2 w3 e,
  (isdir os p w = (false, w2) \/
   (isdir os p w = (true, w1) /\ islink os p w1 = (inl true, w2))) ->
  lexists os p w2 = (inl e, w3) ->
  rm_rf_classify os p w
  = if e then unlink_or_rename_to_trash os p w3 else (Return tt, w3).
Proof.
  intros p w w1 w2 w3 e [Hd | [Hd Hl]] He;
    unfold rm_rf_classify, bind, ask, gather, run, ret; rewrite Hd; try rewrite Hl;
    simpl; rewrite He; destruct e; reflexivity.
Qed.
End RmRf.

(** C1 (as amended).  [rm_rf] returns [False] exactly when the re-check after
    the deletion attempt finds the path present; whenever it returns [True]
    the re-check found the path absent; and with the path absent at the
    re-check it does return [True] as soon as the deletion attempt raised
    nothing and ancestor pruning (when requested) returned. *)
Theorem rm_rf_reports_recheck :
  forall W (os : OS W) fuel path max_retries trash clean w,
    (fst (rm_rf os fuel path max_retries trash clean w) = Return false
     <-> fst (rm_rf_recheck os path w) = inl true) /\
    (fst (rm_rf os fuel path max_retries trash clean w) = Return true
     -> fst (rm_rf_recheck os path w) = inl false) /\
    (fst (rm_rf_recheck os path w) = inl false ->
     fst (fst (rm_rf_try os path w)) = Return tt ->
     (clean = true -> fst (rm_rf_pruning os fuel path w) = Return tt) ->
     fst (rm_rf os fuel path max_retries trash clean w) = Return true).
Proof.
  intros W os fuel path max_retries trash clean w.
  rewrite rm_rf_unfold.
  pose proof (rm_rf_try_total _ os path w) as Htot.
  destruct (fst (fst (rm_rf_try os path w))) as [[] | e |]; [| | congruence];
    destruct (rm_rf_recheck os path w) as [[[|] | e'] w2]; simpl;
    try (destruct clean; [destruct (rm_rf_pruning os fuel path w) as [[[] | e'' |] w3] |]);
    simpl; repeat split; intros; try congruence; try discriminate;
    try match goal with
        | H : true = true -> _ |- _ => specialize (H eq_refl); discriminate
        end.
Qed.

(** At the sample tree of the spec the deletion and the pruning return. *)
Lemma rm_rf_reports_recheck_witness :
  fst (rm_rf posix 10 "/a/b/c/target" 5 true true w_nested) = Return true.
Proof.
  apply (proj2 (proj2 (rm_rf_reports_recheck _ posix 10 "/a/b/c/target" 5 true true w_nested)));
    intros; reflexivity.
Defined.

(** C1, as stated, fails: the file is deleted, the re-check finds the path
    absent, and the call does not return [True]: removing the emptied parent
    inside a read-only directory raises. *)
Lemma rm_rf_absent_yet_not_true :
  ~ (fst (rm_rf posix 10 "/ro/p/f" 5 true true w_readonly_parent) = Return true
     <-> fst (rm_rf_recheck posix "/ro/p/f" w_readonly_parent) = inl false).
Proof.
  intros [_ H]. specialize (H eq_refl). vm_compute in H. discriminate.
Qed.

(** C2 (as amended).  Whenever the path is still present at the re-check,
    [rm_rf] returns [False], whatever the deletion operations raised.  An
    exception that leaves [rm_rf] is one of the re-check, one of the deletion
    attempt with the path absent at the re-check, or one of ancestor pruning;
    and an exception of ancestor pruning always leaves it. *)
Theorem rm_rf_absorbs_while_present :
  forall W (os : OS W) fuel path max_retries trash clean w,
    (forall e, fst (fst (rm_rf_try os path w)) = Raise e ->
       fst (rm_rf_recheck os path w) = inl true ->
       fst (rm_rf os fuel path max_retries trash clean w) = Return false) /\
    (forall e, fst (rm_rf os fuel path max_retries trash clean w) = Raise e ->
       fst (rm_rf_recheck os path w) = inr e \/
       (fst (rm_rf_recheck os path w) = inl false /\
        fst (fst (rm_rf_try os path w)) = Raise e) \/
       (fst (rm_rf_recheck os path w) = inl false /\ clean = true /\
        fst (rm_rf_pruning os fuel path w) = Raise e)) /\
    (forall e, fst (rm_rf_recheck os path w) = inl false ->
       fst (fst (rm_rf_try os path w)) = Return tt ->
       clean = true ->
       fst (rm_rf_pruning os fuel path w) = Raise e ->
       fst (rm_rf os fuel path max_retries trash clean w) = Raise e).
Proof.
  intros W os fuel path max_retries trash clean w.
  rewrite rm_rf_unfold.
  pose proof (rm_rf_try_total _ os path w) as Htot.
  destruct (fst (fst (rm_rf_try os path w))) as [[] | e |]; [| | congruence];
    destruct (rm_rf_recheck os path w) as [[[|] | e'] w2]; simpl;
    try (destruct clean; [destruct (rm_rf_pruning os fuel path w) as [[[] | e'' |] w3] |]);
    simpl; repeat split; intros; try congruence; try discriminate;
    try (left; congruence);
    try (right; left; split; congruence);
    try (right; right; repeat split; congruence).
Qed.

(** A file in a read-only directory: [unlink] and the fall-back [rename]
    both raise, the file is still there, and [rm_rf] returns [False]. *)
Lemma rm_rf_absorbs_while_present_witness :
  fst (fst (rm_rf_try posix "/d/f" w_readonly_dir)) = Raise (OSError EACCES) /\
  fst (rm_rf posix 10 "/d/f" 5 true false w_readonly_dir) = Return false.
Proof.
  split; [reflexivity |].
  apply (proj1 (rm_rf_absorbs_while_present _ posix 10 "/d/f" 5 true false w_readonly_dir)
           (OSError EACCES)); reflexivity.
Defined.

(** C2, as stated, fails: here [rm_rf] raises.  The file is deleted and the
    emptied [cache] directory cannot be removed from the read-only [pkgs]. *)
Lemma rm_rf_raises_from_pruning :
  fst (rm_rf posix 10 "/pkgs/cache/repodata.json" 5 true true w_pkgs)
  = Raise (OSError EACCES).
Proof. reflexivity. Qed.

(** The race the module is written for also ends in an exception: another
    process unlinks the file between the classification and our [unlink];
    [unlink] and then [rename] raise [ENOENT], the path is absent at the
    re-check and nothing returns [False]. *)
Lemma rm_rf_raises_when_path_vanishes :
  fst (rm_rf (interpose posix (rival_unlink "/d/f")) 10 "/d/f" 5 true false
         (w_links, false))
  = Raise (OSError ENOENT).
Proof. reflexivity. Qed.

(** C9.  The [trash] argument has no effect: two runs that differ only in it
    end alike, in the same world.  The deletion attempt is not even handed the
    argument: off Windows, for a path that is no directory and exists, when
    [unlink] raises an [OSError] the attempt ends as the rename to
    [path + ".trash"] ends, whatever [trash] is. *)
Theorem rm_rf_trash_irrelevant :
  forall W (os : OS W) fuel path max_retries clean w (trash1 trash2 : bool),
    rm_rf os fuel path max_retries trash1 clean w
    = rm_rf os fuel path max_retries trash2 clean w /\
    (forall p w1 w2 w3 w4 w5 n,
       on_win os = false ->
       abspath os path w = (inl p, w1) ->
       isdir os p w1 = (false, w2) ->
       lexists os p w2 = (inl true, w3) ->
       make_writable os p w3 = (inl tt, w4) ->
       unlink os p w4 = (inr n, w5) ->
       rm_rf_try os path w
       = (fst (call (rename os p (p ++ ".trash")) w5), p,
          snd (call (rename os p (p ++ ".trash")) w5))).
Proof.
  intros W os fuel path max_retries clean w trash1 trash2.
  split; [reflexivity |].
  intros p w1 w2 w3 w4 w5 n Hwin Habs Hd He Hmw Hun.
  rewrite (rm_rf_try_abspath _ os path w p w1 Habs).
  rewrite (rm_rf_classify_other _ os p w1 w1 w2 w3 true (or_introl Hd) He).
  unfold unlink_or_rename_to_trash, try_except, bind, run.
  rewrite Hmw. unfold call at 1 3. rewrite Hun, Hwin. reflexivity.
Qed.

(** With [trash=False] on a file in a read-only directory the rename is
    attempted all the same, and refused. *)
Lemma rm_rf_trash_irrelevant_witness :
  rm_rf posix 10 "/d/f" 5 true false w_readonly_dir
  = rm_rf posix 10 "/d/f" 5 false false w_readonly_dir /\
  rm_rf_try posix "/d/f" w_readonly_dir
  = (fst (call (rename posix "/d/f" "/d/f.trash")
            (snd (make_writable posix "/d/f" w_readonly_dir))), "/d/f",
     snd (call (rename posix "/d/f" "/d/f.trash")
            (snd (make_writable posix "/d/f" w_readonly_dir)))).
Proof.
  destruct (rm_rf_trash_irrelevant _ posix 10 "/d/f" 5 false w_readonly_dir true false)
    as [H1 H2].
  split; [exact H1 |].
  apply (H2 "/d/f" w_readonly_dir w_readonly_dir w_readonly_dir
           (snd (make_writable posix "/d/f" w_readonly_dir))
           (snd (make_writable posix "/d/f" w_readonly_dir)) EACCES);
    reflexivity.
Defined.

(** C10.  The [max_retries] argument has no effect: two runs that differ only
    in it end alike, in the same world; a real directory is handed to
    [backoff_rmdir] with the process-wide [MAX_TRIES]. *)
Theorem rm_rf_max_retries_irrelevant :
  forall W (os : OS W) fuel path clean trash w (max_retries1 max_retries2 : nat),
    rm_rf os fuel path max_retries1 trash clean w
    = rm_rf os fuel path max_retries2 trash clean w /\
    (forall p w1 w2,
       isdir os p w = (true, w1) ->
       islink os p w1 = (inl false, w2) ->
       rm_rf_classify os p w = backoff_rmdir os p (MAX_TRIES os) w2).
Proof.
  intros. split; [reflexivity |].
  intros p w1 w2 Hd Hl. apply (rm_rf_classify_dir _ os p w w1 w2 Hd Hl).
Qed.

Lemma rm_rf_max_retries_irrelevant_witness :
  rm_rf posix 10 "/d" 0 true false w_links = rm_rf posix 10 "/d" 99 true false w_links /\
  rm_rf_classify posix "/d" w_links = backoff_rmdir posix "/d" 5 w_links.
Proof.
  split.
  - apply (proj1 (rm_rf_max_retries_irrelevant _ posix 10 "/d" false true w_links 0 99)).
  - apply (proj2 (rm_rf_max_retries_irrelevant _ posix 10 "/d" false true w_links 0 99)
             "/d" w_links w_links); reflexivity.
Defined.

(** C6 (as amended).  [rm_rf] works on the absolute path [p] that [abspath]
    returns.  When [p] is a directory and not a link, [rm_rf] is
    [backoff_rmdir(p)] followed by the re-check and what comes after it; when
    [p] is anything else that exists it is [unlink_or_rename_to_trash(p)]
    followed by the same; and when [p] is absent the classification calls
    nothing beyond its questions.  For a path that is absent at the re-check
    as well, [rm_rf] returns [True] with nothing called but [abspath],
    [isdir], [lexists] and [lexists] again when [clean_empty_parents] is not
    set, and goes on to prune the ancestors of [p] when it is. *)
Theorem rm_rf_dispatch :
  forall W (os : OS W) fuel path max_retries trash clean w p w1,
    abspath os path w = (inl p, w1) ->
    forall d w2, isdir os p w1 = (d, w2) ->
      (d = true -> forall w3, islink os p w2 = (inl false, w3) ->
         rm_rf os fuel path max_retries trash clean w
         = rm_rf_finale os fuel p clean (backoff_rmdir os p (MAX_TRIES os) w3)) /\
      (forall w3,
         (d = false /\ w3 = w2) \/ (d = true /\ islink os p w2 = (inl true, w3)) ->
         (forall w4, lexists os p w3 = (inl true, w4) ->
            rm_rf os fuel path max_retries trash clean w
            = rm_rf_finale os fuel p clean (unlink_or_rename_to_trash os p w4)) /\
         (forall w4, lexists os p w3 = (inl false, w4) ->
            rm_rf os fuel path max_retries trash clean w
            = rm_rf_finale os fuel p clean (Return tt, w4) /\
            forall w5, lexists os p w4 = (inl false, w5) ->
              rm_rf os fuel path max_retries trash clean w
              = if clean then (remove_empty_parent_paths os fuel p ;; ret true) w5
                else (Return true, w5))).
Proof.
  intros W os fuel path max_retries trash clean w p w1 Habs d w2 Hd.
  assert (Hrun : rm_rf os fuel path max_retries trash clean w
                 = rm_rf_finale os fuel p clean (rm_rf_classify os p w1)).
  { unfold rm_rf, rm_rf_finale. rewrite (rm_rf_try_abspath _ os path w p w1 Habs).
    destruct (rm_rf_classify os p w1) as [[[] | e |] u]; reflexivity. }
  split.
  - intros -> w3 Hl. rewrite Hrun, (rm_rf_classify_dir _ os p w1 w2 w3 Hd Hl). reflexivity.
  - intros w3 Hcase.
    assert (Hc : isdir os p w1 = (false, w3) \/
                 (isdir os p w1 = (true, w2) /\ islink os p w2 = (inl true, w3))).
    { destruct Hcase as [[-> ->] | [-> Hl]]; [left; exact Hd | right; split; assumption]. }
    split; intros w4 He.
    + rewrite Hrun, (rm_rf_classify_other _ os p w1 w2 w3 w4 true Hc He). reflexivity.
    + rewrite Hrun, (rm_rf_classify_other _ os p w1 w2 w3 w4 false Hc He).
      split; [reflexivity |].
      intros w5 He'. unfold rm_rf_finale. rewrite He'. reflexivity.
Qed.

(** A link to a directory is unlinked, not descended into: the directory
    behind it keeps its content.  And nothing is at [/nowhere]. *)
Lemma rm_rf_dispatch_witness :
  rm_rf posix 10 "ld" 5 true false w_links
  = rm_rf_finale posix 10 "/ld" false (unlink_or_rename_to_trash posix "/ld" w_links) /\
  kind_at ["ld"] (fs (snd (rm_rf posix 10 "ld" 5 true false w_links))) = None /\
  kind_at ["d"; "f"] (fs (snd (rm_rf posix 10 "ld" 5 true false w_links)))
  = Some (KFile true "x") /\
  rm_rf posix 10 "/nowhere" 5 true false w_links = (Return true, w_links).
Proof.
  split; [| split; [reflexivity | split; [reflexivity |]]].
  - destruct (rm_rf_dispatch _ posix 10 "ld" 5 true false w_links "/ld" w_links eq_refl
                true w_links eq_refl) as [_ H2].
    destruct (H2 w_links (or_intror (conj eq_refl eq_refl))) as [H3 _].
    apply H3. reflexivity.
  - destruct (rm_rf_dispatch _ posix 10 "/nowhere" 5 true false w_links "/nowhere" w_links
                eq_refl false w_links eq_refl) as [_ H2].
    destruct (H2 w_links (or_introl (conj eq_refl eq_refl))) as [_ H3].
    destruct (H3 w_links eq_refl) as [_ H4].
    apply (H4 w_links). reflexivity.
Defined.

(** C6, as stated, fails: nothing is at [/a/b/c/x], and with
    [clean_empty_parents] set [rm_rf] removes the three empty directories
    above it all the same. *)
Lemma rm_rf_absent_path_still_prunes :
  kind_at ["a"; "b"; "c"; "x"] (fs w_hollow) = None /\
  kind_at ["a"; "b"; "c"] (fs w_hollow) = Some (KDir true) /\
  fst (rm_rf posix 10 "/a/b/c/x" 5 true true w_hollow) = Return true /\
  kind_at ["a"; "b"; "c"] (fs (snd (rm_rf posix 10 "/a/b/c/x" 5 true true w_hollow))) = None /\
  kind_at ["a"; "b"] (fs (snd (rm_rf posix 10 "/a/b/c/x" 5 true true w_hollow))) = None /\
  kind_at ["a"] (fs (snd (rm_rf posix 10 "/a/b/c/x" 5 true true w_hollow))) = None /\
  snd (snd (rm_rf (recording posix) 10 "/a/b/c/x" 5 true true (w_hollow, [])))
  = [CAbspath "/a/b/c/x"; CIsdir "/a/b/c/x"; CLexists "/a/b/c/x"; CLexists "/a/b/c/x";
     CIsdir "/a/b/c"; CListdir "/a/b/c"; CRmdir "/a/b/c";
     CIsdir "/a/b"; CListdir "/a/b"; CRmdir "/a/b";
     CIsdir "/a"; CListdir "/a"; CRmdir "/a";
     CIsdir "/"; CListdir "/"].
Proof. repeat split; reflexivity. Qed.

(** For an absent path the calls are the normalization, the questions and
    the re-check. *)
Lemma rm_rf_absent_path_journal :
  rm_rf (recording posix) 10 "/nowhere" 5 true false (w_links, [])
  = (Return true,
     (w_links, [CAbspath "/nowhere"; CIsdir "/nowhere"; CLexists "/nowhere";
                CLexists "/nowhere"])).
Proof. reflexivity. Qed.

(** ** The directory engine *)

(** C3 (as amended).  The first tier of [backoff_rmdir] is the single call
    [rmtree(dirpath)]: no permission repair, no retry wrapper, no [onerror]
    callback, and [max_tries] plays no part in it.  It never raises: whatever
    [rmtree] did, the per-entry walk and the final [_rmdir] run next, in the
    world [rmtree] left. *)
Theorem backoff_rmdir_bulk_tier :
  forall W (os : OS W) dirpath max_tries w,
    backoff_rmdir_bulk os dirpath w = (Return tt, snd (rmtree os dirpath None w)) /\
    (forall w1, isdir os dirpath w = (true, w1) ->
       backoff_rmdir os dirpath max_tries w
       = (backoff_rmdir_walk os dirpath max_tries ;; _rmdir os max_tries dirpath)
           (snd (rmtree os dirpath None w1))).
Proof.
  intros W os dirpath max_tries w.
  assert (Hbulk : forall u,
            backoff_rmdir_bulk os dirpath u = (Return tt, snd (rmtree os dirpath None u))).
  { intros u. unfold backoff_rmdir_bulk, try_except.
    pose proof (rmtree_total _ os dirpath None u) as Ht.
    destruct (rmtree os dirpath None u) as [[[] | e |] u']; simpl in *;
      [reflexivity | reflexivity | congruence]. }
  split; [apply Hbulk |].
  intros w1 Hd. unfold backoff_rmdir. unfold bind at 1, ask, gather. rewrite Hd. simpl.
  unfold bind at 1. rewrite Hbulk. reflexivity.
Qed.

(** In a read-only directory the bulk deletion empties [p] and then fails at
    its [rmdir]; the failure is swallowed and the directory is then taken
    entry by entry. *)
Lemma backoff_rmdir_bulk_tier_witness :
  fst (rmtree posix "/ro/p" None w_readonly_parent) = Raise (OSError EACCES) /\
  fst (backoff_rmdir_bulk posix "/ro/p" w_readonly_parent) = Return tt /\
  backoff_rmdir posix "/ro/p" 5 w_readonly_parent
  = (backoff_rmdir_walk posix "/ro/p" 5 ;; _rmdir posix 5 "/ro/p")
      (snd (rmtree posix "/ro/p" None w_readonly_parent)).
Proof.
  split; [reflexivity |].
  destruct (backoff_rmdir_bulk_tier _ posix "/ro/p" 5 w_readonly_parent) as [H1 H2].
  split.
  - rewrite H1. reflexivity.
  - apply H2. reflexivity.
Defined.

(** C3, as stated, fails: the calls of the code's first tier on the directory
    [/d] begin with [makedirs('.empty')] and hold no
    [recursive_make_writable], where the tier the claim describes begins with
    [recursive_make_writable('/d')]. *)
Lemma bulk_tier_is_not_as_specified :
  snd (snd (backoff_rmdir_bulk (recording posix) "/d" (w_links, [])))
  = [CMakedirs ".empty"; CGetcwd; CPrint "rsync -a --delete /.empty/ /d/"; CGetcwd;
     CCheckCall (Argv ["rsync"; "-a"; "--delete"; "/.empty/"; "/d/"]);
     CShutilRmtree ".empty"; CRmdir "/d"] /\
  snd (snd (bulk_tier_as_specified (recording posix) "/d" 5 (w_links, [])))
  = [CRecursiveMakeWritable "/d" None;
     CMakedirs ".empty"; CGetcwd; CPrint "rsync -a --delete /.empty/ /d/"; CGetcwd;
     CCheckCall (Argv ["rsync"; "-a"; "--delete"; "/.empty/"; "/d/"]);
     CShutilRmtree ".empty"; CRmdir "/d"].
Proof. split; reflexivity. Qed.

(** ** The file-system tree *)

Lemma assoc_remove_name_same : forall n es, assoc n (remove_name n es) = None.
Proof.
  intros n es. induction es as [| [n' m] es IH]; simpl; [reflexivity |].
  destruct (String.eqb n' n) eqn:E; simpl; [exact IH |].
  rewrite E. exact IH.
Qed.

Lemma assoc_remove_name_other : forall n c es,
  String.eqb c n = false -> assoc c (remove_name n es) = assoc c es.
Proof.
  intros n c es Hne. induction es as [| [n' m] es IH]; simpl; [reflexivity |].
  destruct (String.eqb n' n) eqn:E; simpl.
  - apply String.eqb_eq in E. subst n'.
    rewrite String.eqb_sym, Hne. exact IH.
  - destruct (String.eqb n' c); [reflexivity | exact IH].
Qed.

Lemma assoc_map_first : forall c c0 (F : node -> node) es,
  assoc c (map_first c0 F es)
  = if String.eqb c c0 then option_map F (assoc c es) else assoc c es.
Proof.
  intros c c0 F es. induction es as [| [n m] es IH]; simpl.
  - destruct (String.eqb c c0); reflexivity.
  - destruct (String.eqb n c0) eqn:E0; simpl.
    + apply String.eqb_eq in E0. subst n.
      rewrite (String.eqb_sym c c0).
      destruct (String.eqb c0 c) eqn:E; reflexivity.
    + destruct (String.eqb n c) eqn:E; [| exact IH].
      apply String.eqb_eq in E. subst. rewrite E0. reflexivity.
Qed.

Lemma lookup_app : forall p q t,
  lookup (p ++ q) t = match lookup p t with Some m => lookup q m | None => None end.
Proof.
  induction p as [| c p IH]; intros q t; simpl; [reflexivity |].
  destruct t as [wr d | tg | wr es]; try reflexivity.
  destruct (assoc c es); [apply IH | reflexivity].
Qed.

Lemma lookup_snoc : forall d n t,
  lookup (d ++ [n]) t
  = match lookup d t with
    | Some (Dir _ es) => assoc n es
    | _ => None
    end.
Proof.
  intros d n t. rewrite lookup_app. destruct (lookup d t) as [[wr x | tg | wr es] |];
    simpl; try reflexivity.
  destruct (assoc n es); reflexivity.
Qed.

Lemma lookup_alter_under : forall p r f t,
  lookup (p ++ r) (alter p f t)
  = match lookup p t with Some m => lookup r (f m) | None => None end.
Proof.
  induction p as [| c p IH]; intros r f t; simpl; [reflexivity |].
  destruct t as [wr d | tg | wr es]; try reflexivity.
  rewrite assoc_map_first, String.eqb_refl.
  destruct (assoc c es); simpl; [apply IH | reflexivity].
Qed.

Lemma lookup_alter_same : forall p f t,
  lookup p (alter p f t) = option_map f (lookup p t).
Proof.
  intros p f t. rewrite <- (app_nil_r p) at 1. rewrite lookup_alter_under.
  destruct (lookup p t); reflexivity.
Qed.

Lemma lookup_alter_above : forall q r f t,
  lookup q (alter (q ++ r) f t) = option_map (alter r f) (lookup q t).
Proof.
  induction q as [| c q IH]; intros r f t; simpl; [reflexivity |].
  destruct t as [wr d | tg | wr es]; try reflexivity.
  rewrite assoc_map_first, String.eqb_refl.
  destruct (assoc c es); simpl; [apply IH | reflexivity].
Qed.

Lemma lookup_alter_apart : forall p q f t,
  apart p q -> lookup q (alter p f t) = lookup q t.
Proof.
  intros p q f t (l & a & b & p' & q' & -> & -> & Hab). revert t.
  induction l as [| c l IH]; intros t; simpl.
  - destruct t as [wr d | tg | wr es]; try reflexivity.
    rewrite assoc_map_first.
    destruct (String.eqb b a) eqn:E; [| reflexivity].
    apply String.eqb_eq in E. congruence.
  - destruct t as [wr d | tg | wr es]; try reflexivity.
    rewrite assoc_map_first, String.eqb_refl.
    destruct (assoc c es); simpl; [apply IH | reflexivity].
Qed.

Lemma paths_compare : forall p q : list string,
  (exists r, q = (p ++ r)%list) \/ (exists c r, p = (q ++ c :: r)%list) \/ apart p q.
Proof.
  induction p as [| a p IH]; intros q.
  - left. exists q. reflexivity.
  - destruct q as [| b q].
    + right. left. exists a, p. reflexivity.
    + destruct (string_dec a b) as [-> | Hab].
      * destruct (IH q) as [[r ->] | [[c [r ->]] | (l & x & y & p' & q' & -> & -> & Hxy)]].
        -- left. exists r. reflexivity.
        -- right. left. exists c, r. reflexivity.
        -- right. right. exists (b :: l), x, y, p', q'. auto.
      * right. right. exists [], a, b, p, q. auto.
Qed.

Lemma childless_lookup : forall m c r, childless m -> lookup (c :: r) m = None.
Proof.
  intros [wr d | tg | wr [| e es]] c r H; simpl in *; try reflexivity. contradiction.
Qed.

(** Removing the entry of a childless node changes what [lstat] shows at
    that path only. *)
Lemma kind_at_drop_entry : forall d name t m,
  lookup (d ++ [name]) t = Some m ->
  childless m ->
  kind_at (d ++ [name]) (alter d (drop_entry name) t) = None /\
  forall q, q <> (d ++ [name])%list ->
    kind_at q (alter d (drop_entry name) t) = kind_at q t.
Proof.
  intros d name t m Hm Hc.
  assert (Hd : exists wr es, lookup d t = Some (Dir wr es) /\ assoc name es = Some m).
  { rewrite lookup_snoc in Hm.
    destruct (lookup d t) as [[wr x | tg | wr es] |]; try discriminate.
    exists wr, es. auto. }
  destruct Hd as (wr & es & Hd & Ha).
  split.
  - unfold kind_at. rewrite lookup_alter_under, Hd. simpl.
    rewrite assoc_remove_name_same. reflexivity.
  - intros q Hq. unfold kind_at.
    destruct (paths_compare d q) as [[r ->] | [[c [r ->]] | Hap]].
    + rewrite lookup_alter_under, lookup_app, Hd.
      destruct r as [| c r]; [reflexivity |]. simpl.
      destruct (String.eqb c name) eqn:E.
      * apply String.eqb_eq in E. subst c.
        rewrite assoc_remove_name_same, Ha.
        destruct r as [| c' r]; [contradiction Hq; reflexivity |].
        rewrite childless_lookup by exact Hc. reflexivity.
      * rewrite assoc_remove_name_other by exact E. reflexivity.
    + rewrite lookup_alter_above.
      destruct (lookup q t) as [[wr' x | tg | wr' es'] |]; reflexivity.
    + rewrite lookup_alter_apart by exact Hap. reflexivity.
Qed.

Lemma removelast_snoc : forall A (l : list A) (x : A), removelast (l ++ [x]) = l.
Proof. intros A l x. apply removelast_last. Qed.

Lemma last_snoc : forall A (l : list A) (x d : A), last (l ++ [x]) d = x.
Proof. intros A l x d. apply last_last. Qed.

Lemma snoc_inv : forall (p : list string),
  p <> [] -> p = (removelast p ++ [last p ""])%list.
Proof. intros p Hp. apply app_removelast_last. exact Hp. Qed.



Lemma alter_missing : forall p f t, lookup p t = None -> alter p f t = t.
Proof.
  induction p as [| c p IH]; intros f t H; simpl in *; [discriminate |].
  destruct t as [wr d | tg | wr es]; try reflexivity.
  f_equal. induction es as [| [n m] es IHes]; simpl in *; [reflexivity |].
  destruct (String.eqb n c).
  - rewrite IH by exact H. reflexivity.
  - rewrite IHes by exact H. reflexivity.
Qed.

Lemma set_fs_same : forall w, set_fs w (fs w) = w.
Proof. intros [t c o]. reflexivity. Qed.

Lemma fs_unlink_missing : forall p t,
  lookup p t = None -> exists n, fs_unlink p t = (inr n, t).
Proof.
  intros p t H. unfold fs_unlink.
  destruct p as [| c p0]; [discriminate |].
  assert (Hp : c :: p0 <> []) by discriminate.
  rewrite (snoc_inv _ Hp), lookup_snoc in H.
  destruct (lookup (removelast (c :: p0)) t) as [[wr x | tg | wr es] |]; eauto.
  rewrite H. eauto.
Qed.

Lemma fs_rename_missing : forall src dst t,
  lookup src t = None -> exists n, fs_rename src dst t = (inr n, t).
Proof.
  intros src dst t H. unfold fs_rename.
  destruct src as [| c s0]; [discriminate |].
  destruct dst as [| c' d0]; [eauto |].
  assert (Hp : c :: s0 <> []) by discriminate.
  rewrite (snoc_inv _ Hp), lookup_snoc in H.
  destruct (lookup (removelast (c :: s0)) t) as [[wr x | tg | wr es] |];
    destruct (lookup (removelast (c' :: d0)) t) as [[wr' x' | tg' | wr' es'] |]; eauto.
  rewrite H. eauto.
Qed.

Lemma path_comps_nonempty : forall c s,
  s <> "" -> exists cs, path_comps c s = Some cs.
Proof.
  intros c s H. unfold path_comps. destruct s; [contradiction H; reflexivity |].
  simpl. eauto.
Qed.

Lemma append_nonempty : forall a b, b <> "" -> a ++ b <> "".
Proof. intros [| x a] b H; simpl; [exact H | discriminate]. Qed.

(** ** The trash fall-back *)

(** C4 fails on the code.  On the POSIX platform, for every path that names
    nothing, [unlink_or_rename_to_trash] raises: [unlink] raises, the handler
    tries the rename to [path + ".trash"], and that raises in turn.  Nothing
    is changed. *)
Theorem unlink_or_rename_to_trash_missing_raises :
  forall w p cs,
    path_comps (cwd w) p = Some cs ->
    lookup cs (fs w) = None ->
    exists n, unlink_or_rename_to_trash posix p w = (Raise (OSError n), w).
Proof.
  intros w p cs Hp Hl.
  unfold unlink_or_rename_to_trash, try_except, bind, run, call. simpl.
  unfold posix_make_writable. rewrite Hp.
  rewrite (@alter_missing cs set_writable (fs w) Hl), set_fs_same.
  unfold posix_unlink, with_path, fs_call. rewrite Hp.
  destruct (@fs_unlink_missing cs (fs w) Hl) as [n Hn]. rewrite Hn.
  rewrite set_fs_same.
  unfold posix_rename, with_path, fs_call. rewrite Hp.
  destruct (path_comps_nonempty (cwd w) (p ++ ".trash")) as [cd Hcd].
  { apply append_nonempty. discriminate. }
  rewrite Hcd.
  destruct (@fs_rename_missing cs cd (fs w) Hl) as [n' Hn']. rewrite Hn'.
  rewrite set_fs_same. eauto.
Qed.

Lemma unlink_or_rename_to_trash_missing_raises_witness :
  exists n, unlink_or_rename_to_trash posix "/tmp/missing" w_readonly_dir
            = (Raise (OSError n), w_readonly_dir).
Proof.
  apply (unlink_or_rename_to_trash_missing_raises w_readonly_dir "/tmp/missing"
           ["tmp"; "missing"]); reflexivity.
Defined.

(** The errno is that of the missing path. *)
Lemma unlink_or_rename_to_trash_enoent :
  unlink_or_rename_to_trash posix "/tmp/missing" w_readonly_dir
  = (Raise (OSError ENOENT), w_readonly_dir).
Proof. reflexivity. Qed.

(** ** Path strings *)

Lemma append_assoc : forall a b c : string, (a ++ b) ++ c = a ++ (b ++ c).
Proof. induction a as [| x a IH]; intros b c; simpl; [reflexivity | rewrite IH; reflexivity]. Qed.

Lemma append_nil_r : forall a : string, a ++ "" = a.
Proof. induction a as [| x a IH]; simpl; [reflexivity | rewrite IH; reflexivity]. Qed.

Lemma length_append : forall a b : string,
  String.length (a ++ b) = String.length a + String.length b.
Proof. induction a as [| x a IH]; intros b; simpl; [reflexivity | rewrite IH; reflexivity]. Qed.

Lemma valid_name_inv : forall n,
  valid_name n = true ->
  n <> "" /\ has_slash n = false /\ n <> "." /\ n <> "..".
Proof.
  intros n H. unfold valid_name in H.
  repeat (apply andb_prop in H; destruct H as [H ?]).
  repeat match goal with
         | H : negb _ = true |- _ => apply negb_true_iff in H
         end.
  repeat split; try assumption.
  - intros ->. discriminate.
  - apply String.eqb_neq. assumption.
  - apply String.eqb_neq. assumption.
Qed.

Lemma split_slash_nonempty : forall s, split_slash s <> [].
Proof.
  induction s as [| c s IH]; simpl; [discriminate |].
  destruct (is_slash c); [discriminate |].
  destruct (split_slash s); discriminate.
Qed.

Lemma split_slash_no_slash : forall s, has_slash s = false -> split_slash s = [s].
Proof.
  induction s as [| c s IH]; intros H; simpl in *; [reflexivity |].
  apply orb_false_iff in H. destruct H as [Hc Hs].
  rewrite Hc, (IH Hs). reflexivity.
Qed.

Lemma split_slash_app_slash : forall a b,
  split_slash (a ++ String "/" b) = (split_slash a ++ split_slash b)%list.
Proof.
  induction a as [| c a IH]; intros b; simpl; [reflexivity |].
  destruct (is_slash c); rewrite IH; [reflexivity |].
  pose proof (split_slash_nonempty a) as Hne.
  destruct (split_slash a) as [| h t]; [contradiction Hne; reflexivity | reflexivity].
Qed.

Lemma ends_with_slash_inv : forall s,
  ends_with_slash s = true -> exists r, s = r ++ "/".
Proof.
  induction s as [| c s IH]; intros H; simpl in H; [discriminate |].
  destruct s as [| c' s'].
  - exists "". unfold is_slash in H. apply Ascii.eqb_eq in H. subst. reflexivity.
  - destruct (IH H) as [r Hr]. exists (String c r). simpl. rewrite <- Hr. reflexivity.
Qed.

Lemma isabs_valid : forall c, valid_name c = true -> posix_isabs c = false.
Proof.
  intros c H. destruct (valid_name_inv _ H) as (_ & Hs & _).
  destruct c as [| x c]; [reflexivity |]. simpl in *.
  apply orb_false_iff in Hs. tauto.
Qed.

Lemma isabs_app : forall a b, a <> "" -> posix_isabs (a ++ b) = posix_isabs a.
Proof. intros [| x a] b H; [contradiction H |]; reflexivity. Qed.

Lemma is_empty_app : forall a b, a <> "" -> is_empty (a ++ b) = false.
Proof. intros [| x a] b H; [contradiction H |]; reflexivity. Qed.

(** A valid name is appended by the kernel's component loop. *)
Lemma comps_step_valid : forall acc c,
  valid_name c = true -> comps_step acc c = (acc ++ [c])%list.
Proof.
  intros acc c H. destruct (valid_name_inv _ H) as (H1 & _ & H3 & H4).
  unfold comps_step.
  apply String.eqb_neq in H1, H3, H4. rewrite H1, H3, H4. reflexivity.
Qed.

Lemma fold_comps_step_valid : forall cs acc,
  forallb valid_name cs = true -> fold_left comps_step cs acc = (acc ++ cs)%list.
Proof.
  induction cs as [| c cs IH]; intros acc H; simpl in *.
  - rewrite app_nil_r. reflexivity.
  - apply andb_prop in H. destruct H as [Hc Hcs].
    rewrite comps_step_valid by exact Hc. rewrite IH by exact Hcs.
    rewrite <- app_assoc. reflexivity.
Qed.

(** The components of a joined path. *)
Lemma path_comps_join : forall cwd root name X,
  valid_name name = true ->
  path_comps cwd root = Some X ->
  path_comps cwd (posix_join root name) = Some (X ++ [name])%list.
Proof.
  intros cwd root name X Hv HX.
  assert (Hroot : root <> "").
  { intros ->. discriminate. }
  unfold path_comps in HX.
  destruct (is_empty root) eqn:Er; [discriminate |]. injection HX as <-.
  destruct (valid_name_inv _ Hv) as (Hn & Hs & _).
  unfold posix_join. rewrite (isabs_valid _ Hv), Er. simpl.
  destruct (ends_with_slash root) eqn:Ee.
  - destruct (ends_with_slash_inv _ Ee) as [r ->].
    unfold path_comps.
    rewrite is_empty_app by exact Hroot.
    rewrite isabs_app by exact Hroot. f_equal.
    rewrite append_assoc. simpl append.
    replace (r ++ "/") with (r ++ String "/" "") by reflexivity.
    rewrite !split_slash_app_slash, (split_slash_no_slash _ Hs).
    rewrite !fold_left_app. simpl. rewrite comps_step_valid by exact Hv.
    reflexivity.
  - unfold path_comps.
    rewrite is_empty_app by exact Hroot.
    rewrite isabs_app by exact Hroot. f_equal. simpl append.
    rewrite split_slash_app_slash, (split_slash_no_slash _ Hs).
    rewrite fold_left_app. simpl. rewrite comps_step_valid by exact Hv. reflexivity.
Qed.

(** Rendered component lists. *)
Lemma render_rel_app : forall a b, render_rel (a ++ b) = render_rel a ++ render_rel b.
Proof.
  induction a as [| c a IH]; intros b; simpl; [reflexivity |].
  rewrite IH, append_assoc. reflexivity.
Qed.

Lemma render_snoc : forall cs c, render (cs ++ [c]) = render_rel cs ++ "/" ++ c.
Proof.
  intros cs c. unfold render.
  destruct (cs ++ [c])%list eqn:E; [destruct cs; discriminate |].
  rewrite <- E, render_rel_app. simpl. rewrite append_nil_r. reflexivity.
Qed.

Lemma split_slash_render_rel : forall cs,
  forallb valid_name cs = true -> split_slash (render_rel cs) = "" :: cs.
Proof.
  induction cs as [| c cs IH]; intros H; simpl in *; [reflexivity |].
  apply andb_prop in H. destruct H as [Hc Hcs].
  destruct (valid_name_inv _ Hc) as (_ & Hs & _).
  destruct cs as [| c' cs'].
  - simpl. rewrite append_nil_r, (split_slash_no_slash _ Hs). reflexivity.
  - simpl render_rel.
    rewrite split_slash_app_slash, (split_slash_no_slash _ Hs).
    simpl app. f_equal. f_equal.
    specialize (IH Hcs). simpl render_rel in IH. simpl split_slash in IH.
    inversion IH. reflexivity.
Qed.

Lemma path_comps_render : forall cwd cs,
  forallb valid_name cs = true -> path_comps cwd (render cs) = Some cs.
Proof.
  intros cwd cs H. destruct cs as [| c cs']; [reflexivity |].
  unfold render, path_comps.
  rewrite (split_slash_render_rel _ H).
  simpl render_rel. simpl is_empty. simpl posix_isabs. cbv iota.
  change (fold_left comps_step ("" :: c :: cs') [])
    with (fold_left comps_step (c :: cs') []).
  rewrite fold_comps_step_valid by exact H. reflexivity.
Qed.

Lemma head_slash_no_slash : forall c, has_slash c = false -> head_slash c = "".
Proof.
  induction c as [| x c IH]; intros H; simpl in *; [reflexivity |].
  apply orb_false_iff in H. destruct H as [Hx Hc].
  rewrite Hx, (IH Hc). reflexivity.
Qed.

Lemma head_slash_app : forall X c,
  has_slash c = false -> head_slash (X ++ String "/" c) = X ++ "/".
Proof.
  intros X c Hc. induction X as [| x X IH]; simpl.
  - rewrite (head_slash_no_slash _ Hc). reflexivity.
  - rewrite IH. destruct (is_slash x); [reflexivity |].
    destruct X; reflexivity.
Qed.

Lemma rstrip_app_slash : forall Y, rstrip_slash (Y ++ "/") = rstrip_slash Y.
Proof.
  induction Y as [| y Y IH]; simpl; [reflexivity |]. rewrite IH. reflexivity.
Qed.

Lemma rstrip_app_no_slash : forall c R,
  has_slash c = false -> rstrip_slash (c ++ R) = c ++ rstrip_slash R.
Proof.
  induction c as [| x c IH]; intros R H; simpl in *; [reflexivity |].
  apply orb_false_iff in H. destruct H as [Hx Hc].
  rewrite Hx, (IH _ Hc). reflexivity.
Qed.

Lemma rstrip_render_rel : forall cs,
  forallb valid_name cs = true -> rstrip_slash (render_rel cs) = render_rel cs.
Proof.
  induction cs as [| c cs IH]; intros H; [reflexivity |].
  simpl in H. apply andb_prop in H. destruct H as [Hc Hcs].
  destruct (valid_name_inv _ Hc) as (Hn & Hs & _).
  simpl render_rel. simpl rstrip_slash.
  rewrite (rstrip_app_no_slash _ _ Hs), (IH Hcs).
  rewrite is_empty_app by exact Hn. reflexivity.
Qed.

Lemma forallb_snoc : forall (f : string -> bool) l x,
  forallb f (l ++ [x]) = true -> forallb f l = true /\ f x = true.
Proof.
  intros f l x H. rewrite forallb_app in H. simpl in H.
  apply andb_prop in H. destruct H as [H1 H2].
  rewrite andb_true_r in H2. auto.
Qed.

(** [dirname] of a normalized absolute path drops the last component. *)
Lemma dirname_render_snoc : forall cs c,
  forallb valid_name (cs ++ [c]) = true ->
  posix_dirname (render (cs ++ [c])) = render cs.
Proof.
  intros cs c H. apply forallb_snoc in H. destruct H as [Hcs Hc].
  destruct (valid_name_inv _ Hc) as (_ & Hs & _).
  unfold posix_dirname. rewrite render_snoc. simpl append.
  rewrite (head_slash_app _ _ Hs). unfold strip_head.
  rewrite rstrip_app_slash, (rstrip_render_rel _ Hcs).
  destruct cs as [| c0 cs0]; reflexivity.
Qed.

Lemma dirname_render : forall cs,
  forallb valid_name cs = true ->
  posix_dirname (render cs) = render (removelast cs).
Proof.
  intros cs H. destruct cs as [| c cs'] using rev_ind; [reflexivity |].
  rewrite removelast_last. apply dirname_render_snoc. exact H.
Qed.

Lemma normpath_step_valid : forall acc c,
  valid_name c = true -> normpath_step true acc c = (acc ++ [c])%list.
Proof.
  intros acc c H. destruct (valid_name_inv _ H) as (H1 & _ & H3 & H4).
  unfold normpath_step.
  apply String.eqb_neq in H1, H3, H4. rewrite H1, H3, H4. reflexivity.
Qed.

Lemma fold_normpath_step_valid : forall cs acc,
  forallb valid_name cs = true ->
  fold_left (normpath_step true) cs acc = (acc ++ cs)%list.
Proof.
  induction cs as [| c cs IH]; intros acc H; simpl in *.
  - rewrite app_nil_r. reflexivity.
  - apply andb_prop in H. destruct H as [Hc Hcs].
    rewrite normpath_step_valid by exact Hc. rewrite IH by exact Hcs.
    rewrite <- app_assoc. reflexivity.
Qed.

Lemma concat_slash_render : forall c cs,
  "/" ++ String.concat "/" (c :: cs) = render_rel (c :: cs).
Proof.
  intros c cs. revert c. induction cs as [| c' cs IH]; intros c.
  - simpl. rewrite append_nil_r. reflexivity.
  - change (String.concat "/" (c :: c' :: cs))
      with (c ++ "/" ++ String.concat "/" (c' :: cs)).
    rewrite IH. reflexivity.
Qed.

Lemma initial_slashes_render : forall c cs,
  valid_name c = true -> initial_slashes (render_rel (c :: cs)) = "/".
Proof.
  intros c cs H. destruct (valid_name_inv _ H) as (Hn & Hs & _).
  destruct c as [| x c0]; [contradiction Hn; reflexivity |].
  simpl in Hs. apply orb_false_iff in Hs. destruct Hs as [Hx _].
  simpl. destruct (c0 ++ render_rel cs); simpl; rewrite Hx; reflexivity.
Qed.

(** A normalized absolute path is its own [abspath]. *)
Lemma normpath_render : forall cs,
  forallb valid_name cs = true -> posix_normpath (render cs) = render cs.
Proof.
  intros cs H. destruct cs as [| c cs']; [reflexivity |].
  unfold render, posix_normpath.
  assert (Hc : valid_name c = true) by (simpl in H; apply andb_prop in H; tauto).
  rewrite (initial_slashes_render _ cs' Hc).
  rewrite (split_slash_render_rel _ H).
  simpl is_empty at 1. cbv iota. simpl is_empty at 1. simpl negb.
  change (fold_left (normpath_step true) ("" :: c :: cs') [])
    with (fold_left (normpath_step true) (c :: cs') []).
  rewrite fold_normpath_step_valid by exact H. simpl app.
  rewrite concat_slash_render. reflexivity.
Qed.

Lemma abspath_render : forall cs w,
  forallb valid_name cs = true -> posix_abspath (render cs) w = (inl (render cs), w).
Proof.
  intros cs w H. unfold posix_abspath.
  replace (posix_isabs (render cs)) with true by (destruct cs; reflexivity).
  rewrite (normpath_render _ H). reflexivity.
Qed.

Lemma has_slash_app : forall a b, has_slash (a ++ b) = has_slash a || has_slash b.
Proof.
  induction a as [| x a IH]; intros b; simpl; [reflexivity |].
  rewrite IH, orb_assoc. reflexivity.
Qed.

Lemma valid_name_trash : forall c, valid_name c = true -> valid_name (c ++ ".trash") = true.
Proof.
  intros c H. destruct (valid_name_inv _ H) as (Hn & Hs & _).
  unfold valid_name. rewrite has_slash_app, Hs.
  rewrite is_empty_app by exact Hn. simpl.
  assert (Hlen : 7 <= String.length (c ++ ".trash")).
  { rewrite length_append. destruct c; [contradiction Hn; reflexivity |]. simpl. lia. }
  destruct (String.eqb (c ++ ".trash") ".") eqn:E1.
  { apply String.eqb_eq in E1. rewrite E1 in Hlen. simpl in Hlen. lia. }
  destruct (String.eqb (c ++ ".trash") "..") eqn:E2.
  { apply String.eqb_eq in E2. rewrite E2 in Hlen. simpl in Hlen. lia. }
  reflexivity.
Qed.

Lemma render_trash : forall cs c,
  render (cs ++ [c]) ++ ".trash" = render (cs ++ [c ++ ".trash"]).
Proof.
  intros cs c. rewrite !render_snoc.
  rewrite append_assoc. reflexivity.
Qed.

Lemma name_trash_neq : forall c, String.eqb c (c ++ ".trash") = false.
Proof.
  intros c. apply String.eqb_neq. intros E.
  apply (f_equal String.length) in E. rewrite length_append in E. simpl in E. lia.
Qed.

(** ** The POSIX calls on resolved paths *)

Lemma stat_not_link : forall fuel p t,
  is_link (lookup p t) = false -> stat fuel p t = lookup p t.
Proof.
  intros fuel p t H. destruct fuel; simpl;
    destruct (lookup p t) as [[wr d | tg | wr es] |]; try reflexivity; discriminate.
Qed.

Lemma fs_set_fs : forall w t, fs (set_fs w t) = t.
Proof. reflexivity. Qed.

Lemma posix_isdir_at : forall p c w,
  path_comps (cwd w) p = Some c ->
  posix_isdir p w = (is_dir (stat MAXSYMLINKS c (fs w)), w).
Proof. intros p c w H. unfold posix_isdir. rewrite H. reflexivity. Qed.

Lemma posix_lexists_at : forall p c w,
  path_comps (cwd w) p = Some c ->
  posix_lexists p w = (inl (is_some (lookup c (fs w))), w).
Proof. intros p c w H. unfold posix_lexists. rewrite H. reflexivity. Qed.

Lemma posix_make_writable_at : forall p c w,
  path_comps (cwd w) p = Some c ->
  posix_make_writable p w = (inl tt, set_fs w (alter c set_writable (fs w))).
Proof. intros p c w H. unfold posix_make_writable. rewrite H. reflexivity. Qed.

Lemma posix_unlink_at : forall p c w,
  path_comps (cwd w) p = Some c ->
  posix_unlink p w = (fst (fs_unlink c (fs w)), set_fs w (snd (fs_unlink c (fs w)))).
Proof.
  intros p c w H. unfold posix_unlink, with_path, fs_call. rewrite H.
  destruct (fs_unlink c (fs w)); reflexivity.
Qed.

Lemma posix_rmdir_at : forall p c w,
  path_comps (cwd w) p = Some c ->
  posix_rmdir p w = (fst (fs_rmdir c (fs w)), set_fs w (snd (fs_rmdir c (fs w)))).
Proof.
  intros p c w H. unfold posix_rmdir, with_path, fs_call. rewrite H.
  destruct (fs_rmdir c (fs w)); reflexivity.
Qed.

Lemma posix_rename_at : forall p c p' c' w,
  path_comps (cwd w) p = Some c ->
  path_comps (cwd w) p' = Some c' ->
  posix_rename p p' w
  = (fst (fs_rename c c' (fs w)), set_fs w (snd (fs_rename c c' (fs w)))).
Proof.
  intros p c p' c' w H H'. unfold posix_rename, with_path, fs_call. rewrite H, H'.
  destruct (fs_rename c c' (fs w)); reflexivity.
Qed.

Lemma posix_listdir_at : forall p c w,
  path_comps (cwd w) p = Some c ->
  posix_listdir p w
  = (match stat MAXSYMLINKS c (fs w) with
     | Some (Dir _ es) => inl (map fst es)
     | Some _ => inr ENOTDIR
     | None => inr ENOENT
     end, w).
Proof.
  intros p c w H. unfold posix_listdir, with_path. rewrite H.
  destruct (stat MAXSYMLINKS c (fs w)) as [[wr d | tg | wr es] |]; reflexivity.
Qed.

(** ** What [chmod] leaves alone *)

Lemma lookup_set_writable_below : forall m c r,
  lookup (c :: r) (set_writable m) = lookup (c :: r) m.
Proof. intros [wr d | tg | wr es] c r; reflexivity. Qed.

Lemma kind_of_alter_cons : forall c r f m, kind_of (alter (c :: r) f m) = kind_of m.
Proof. intros c r f [wr d | tg | wr es]; reflexivity. Qed.

Lemma kind_at_set_writable_other : forall p q t,
  q <> p -> kind_at q (alter p set_writable t) = kind_at q t.
Proof.
  intros p q t Hq. unfold kind_at.
  destruct (paths_compare p q) as [[r ->] | [[c [r ->]] | Hap]].
  - rewrite lookup_alter_under, lookup_app.
    destruct r as [| c r]; [rewrite app_nil_r in Hq; contradiction Hq; reflexivity |].
    destruct (lookup p t) as [m |]; [| reflexivity].
    rewrite lookup_set_writable_below. reflexivity.
  - rewrite lookup_alter_above.
    destruct (lookup q t) as [m |]; [| reflexivity].
    cbn [option_map]. rewrite kind_of_alter_cons. reflexivity.
  - rewrite lookup_alter_apart by exact Hap. reflexivity.
Qed.

Lemma comps_eqb_trash : forall cs name,
  comps_eqb (cs ++ [name]) (cs ++ [name ++ ".trash"]) = false.
Proof.
  intros cs name. induction cs as [| c cs IH]; simpl.
  - rewrite name_trash_neq. reflexivity.
  - rewrite String.eqb_refl. exact IH.
Qed.

Lemma is_prefix_trash : forall cs name,
  is_prefix (cs ++ [name]) (cs ++ [name ++ ".trash"]) = false.
Proof.
  intros cs name. induction cs as [| c cs IH]; simpl.
  - rewrite name_trash_neq. reflexivity.
  - rewrite String.eqb_refl. exact IH.
Qed.

(** The operations on a path given as parent and name. *)
Lemma fs_unlink_snoc : forall d n t,
  fs_unlink (d ++ [n]) t
  = match lookup d t with
    | Some (Dir wr es) =>
        match assoc n es with
        | None => (inr ENOENT, t)
        | Some (Dir _ _) => (inr EISDIR, t)
        | Some _ => if wr then (inl tt, alter d (drop_entry n) t) else (inr EACCES, t)
        end
    | Some _ => (inr ENOTDIR, t)
    | None => (inr ENOENT, t)
    end.
Proof.
  intros d n t. unfold fs_unlink.
  destruct (d ++ [n])%list eqn:E; [destruct d; discriminate |].
  rewrite <- E, removelast_snoc, last_snoc. reflexivity.
Qed.

Lemma fs_rmdir_snoc : forall d n t,
  fs_rmdir (d ++ [n]) t
  = match lookup d t with
    | Some (Dir wr es) =>
        match assoc n es with
        | None => (inr ENOENT, t)
        | Some (Dir _ []) =>
            if wr then (inl tt, alter d (drop_entry n) t) else (inr EACCES, t)
        | Some (Dir _ (_ :: _)) => (inr (if wr then ENOTEMPTY else EACCES), t)
        | Some _ => (inr ENOTDIR, t)
        end
    | Some _ => (inr ENOTDIR, t)
    | None => (inr ENOENT, t)
    end.
Proof.
  intros d n t. unfold fs_rmdir.
  destruct (d ++ [n])%list eqn:E; [destruct d; discriminate |].
  rewrite <- E, removelast_snoc, last_snoc. reflexivity.
Qed.

Lemma fs_rename_denied : forall d n n' t es m,
  lookup d t = Some (Dir false es) ->
  assoc n es = Some m ->
  comps_eqb (d ++ [n]) (d ++ [n']) = false ->
  is_prefix (d ++ [n]) (d ++ [n']) = false ->
  fs_rename (d ++ [n]) (d ++ [n']) t = (inr EACCES, t).
Proof.
  intros d n n' t es m Hd Hm. unfold fs_rename.
  destruct (d ++ [n])%list eqn:E; [destruct d; discriminate |].
  destruct (d ++ [n'])%list eqn:E'; [destruct d; discriminate |].
  rewrite <- E, <- E'. intros He Hp.
  rewrite !removelast_snoc, !last_snoc, Hd, Hm, He, Hp. reflexivity.
Qed.

(** ** Deleting one regular file *)

Section RegularFile.
Variable w : world.
Variables (cs : list string) (name : string).
Variables (wr : bool) (es : list (string * node)) (fw : bool) (data : string).
Hypothesis Hvalid : forallb valid_name (cs ++ [name]) = true.
Hypothesis Hdir : lookup cs (fs w) = Some (Dir wr es).
Hypothesis Hfile : assoc name es = Some (File fw data).

(** The path of the file, and the tree once [make_writable] has run. *)
Variable p : list string.
Hypothesis Hp : p = (cs ++ [name])%list.
Variable t1 : node.
Hypothesis Ht1 : t1 = alter p set_writable (fs w).

Lemma file_lookup : lookup p (fs w) = Some (File fw data).
Proof. rewrite Hp, lookup_snoc, Hdir. exact Hfile. Qed.

Lemma file_parent_after_chmod :
  lookup cs t1 = Some (Dir wr (map_first name set_writable es)).
Proof. rewrite Ht1, Hp, lookup_alter_above, Hdir. reflexivity. Qed.

Lemma file_after_chmod : lookup (cs ++ [name]) t1 = Some (File true data).
Proof.
  rewrite <- Hp, Ht1, lookup_alter_same, file_lookup. reflexivity.
Qed.

Lemma file_entry_after_chmod :
  assoc name (map_first name set_writable es) = Some (File true data).
Proof. rewrite assoc_map_first, String.eqb_refl, Hfile. reflexivity. Qed.

Lemma file_path_comps : forall u, path_comps (cwd u) (render p) = Some p.
Proof. intros u. apply path_comps_render. rewrite Hp. exact Hvalid. Qed.

Lemma file_trash_comps : forall u,
  path_comps (cwd u) (render p ++ ".trash") = Some (cs ++ [(name ++ ".trash")%string])%list.
Proof.
  intros u. rewrite Hp, render_trash. apply path_comps_render.
  apply forallb_snoc in Hvalid. destruct Hvalid as [H1 H2].
  rewrite forallb_app, H1. simpl. rewrite valid_name_trash by exact H2. reflexivity.
Qed.

Lemma file_unlink :
  fs_unlink p t1
  = if wr then (inl tt, alter cs (drop_entry name) t1) else (inr EACCES, t1).
Proof.
  rewrite Hp, fs_unlink_snoc.
  rewrite file_parent_after_chmod, file_entry_after_chmod. reflexivity.
Qed.

Lemma file_rename_denied :
  wr = false -> fs_rename p (cs ++ [(name ++ ".trash")%string]) t1 = (inr EACCES, t1).
Proof.
  intros Hwr. rewrite Hp.
  apply (fs_rename_denied cs name _ t1 (map_first name set_writable es) (File true data)).
  - rewrite file_parent_after_chmod, Hwr. reflexivity.
  - apply file_entry_after_chmod.
  - apply comps_eqb_trash.
  - apply is_prefix_trash.
Qed.

Lemma file_unlink_or_rename_to_trash :
  unlink_or_rename_to_trash posix (render p) w
  = if wr then (Return tt, set_fs w (alter cs (drop_entry name) t1))
    else (Raise (OSError EACCES), set_fs w t1).
Proof.
  unfold unlink_or_rename_to_trash, try_except, bind, run, call. simpl.
  rewrite (posix_make_writable_at _ _ _ (file_path_comps w)). rewrite <- Ht1.
  rewrite (posix_unlink_at _ p) by apply file_path_comps.
  rewrite fs_set_fs, file_unlink.
  pose proof file_rename_denied as Hren.
  pose proof file_path_comps as Hpc. pose proof file_trash_comps as Hpc'.
  destruct wr; simpl; [reflexivity |].
  rewrite (posix_rename_at _ p _ (cs ++ [(name ++ ".trash")%string])%list)
    by (first [apply Hpc | apply Hpc']).
  rewrite fs_set_fs, (Hren eq_refl). reflexivity.
Qed.

Lemma file_rm_rf : forall fuel max_retries trash,
  rm_rf posix fuel (render p) max_retries trash false w
  = (Return wr, set_fs w (if wr then alter cs (drop_entry name) t1 else t1)).
Proof.
  intros fuel max_retries trash.
  pose proof file_path_comps as Hpc.
  destruct (kind_at_drop_entry cs name t1 _ file_after_chmod I) as [Hnone _].
  pose proof file_after_chmod as Hafter.
  rewrite <- Hp in Hnone, Hafter.
  assert (Htry : rm_rf_try posix (render p) w
                 = (fst (unlink_or_rename_to_trash posix (render p) w), render p,
                    snd (unlink_or_rename_to_trash posix (render p) w))).
  { rewrite (rm_rf_try_abspath _ posix (render p) w (render p) w)
      by (apply abspath_render; rewrite Hp; exact Hvalid).
    rewrite (rm_rf_classify_other _ posix (render p) w w w w true); [reflexivity | |].
    - left. simpl isdir. rewrite (posix_isdir_at _ _ _ (Hpc w)).
      rewrite stat_not_link by (rewrite file_lookup; reflexivity).
      rewrite file_lookup. reflexivity.
    - simpl lexists. rewrite (posix_lexists_at _ _ _ (Hpc w)), file_lookup. reflexivity. }
  rewrite rm_rf_unfold. unfold rm_rf_recheck. rewrite Htry.
  rewrite file_unlink_or_rename_to_trash.
  destruct wr; simpl.
  - rewrite (posix_lexists_at _ p) by apply Hpc. rewrite fs_set_fs.
    unfold kind_at in Hnone.
    destruct (lookup p (alter cs (drop_entry name) t1)); [discriminate |].
    reflexivity.
  - rewrite (posix_lexists_at _ p) by apply Hpc. rewrite fs_set_fs, Hafter.
    reflexivity.
Qed.

Lemma file_rm_rf_effect :
  let t' := if wr then alter cs (drop_entry name) t1 else t1 in
  kind_at p t' = (if wr then None else Some (KFile true data)) /\
  (forall q, q <> p -> kind_at q t' = kind_at q (fs w)).
Proof.
  destruct (kind_at_drop_entry cs name t1 _ file_after_chmod I) as [H1 H2].
  pose proof file_after_chmod as Hafter.
  rewrite <- Hp in H1, H2, Hafter.
  assert (Hother : forall q, q <> p -> kind_at q t1 = kind_at q (fs w)).
  { intros q Hq. rewrite Ht1. apply kind_at_set_writable_other. exact Hq. }
  destruct wr; simpl.
  - split; [exact H1 |]. intros q Hq. rewrite (H2 q Hq). apply Hother. exact Hq.
  - split.
    + unfold kind_at. rewrite Hafter. reflexivity.
    + exact Hother.
Qed.
End RegularFile.

Lemma unlink_failure_falls_back_to_rename :
  forall W (os : OS W) p w w1 w2 n,
    on_win os = false ->
    make_writable os p w = (inl tt, w1) ->
    unlink os p w1 = (inr n, w2) ->
    unlink_or_rename_to_trash os p w = call (rename os p (p ++ ".trash")) w2.
Proof.
  intros W os p w w1 w2 n Hwin Hmw Hun.
  unfold unlink_or_rename_to_trash, try_except, bind, run.
  rewrite Hmw. unfold call at 1. rewrite Hun, Hwin. reflexivity.
Qed.

(** C5 (as amended).  On the POSIX platform, for every existing regular file
    [F]: [rm_rf(F)] returns the write permission of the directory that holds
    [F].  When the directory is writable [F] is unlinked and no longer exists;
    otherwise [unlink] and the fall-back rename both fail and [F] is still
    there.  Nothing else changes but the write bit of [F].  In general, on a
    platform that is not Windows, when [unlink] alone raises an [OSError] the
    call ends as the rename of [F] to [F + ".trash"] ends. *)
Theorem rm_rf_regular_file :
  (forall w cs name wr es fw data fuel max_retries trash,
     forallb valid_name (cs ++ [name]) = true ->
     lookup cs (fs w) = Some (Dir wr es) ->
     assoc name es = Some (File fw data) ->
     exists w',
       rm_rf posix fuel (render (cs ++ [name])) max_retries trash false w
       = (Return wr, w') /\
       kind_at (cs ++ [name]) (fs w') = (if wr then None else Some (KFile true data)) /\
       (forall q, q <> (cs ++ [name])%list -> kind_at q (fs w') = kind_at q (fs w)) /\
       cwd w' = cwd w /\ stdout w' = stdout w) /\
  (forall W (os : OS W) p w w1 w2 n,
     on_win os = false ->
     make_writable os p w = (inl tt, w1) ->
     unlink os p w1 = (inr n, w2) ->
     unlink_or_rename_to_trash os p w = call (rename os p (p ++ ".trash")) w2).
Proof.
  split; [| exact unlink_failure_falls_back_to_rename].
  intros w cs name wr es fw data fuel max_retries trash Hv Hd Hf.
  eexists. split; [apply (file_rm_rf w cs name wr es fw data Hv Hd Hf _ eq_refl _ eq_refl) |].
  destruct (file_rm_rf_effect w cs name wr es fw data Hd Hf _ eq_refl _ eq_refl) as [H1 H2].
  rewrite fs_set_fs. repeat split; assumption.
Qed.

(** The file of the spec's example is unlinked; in the read-only directory the
    rename is what decides, and it is refused. *)
Lemma rm_rf_regular_file_witness :
  (exists w',
     rm_rf posix 10 "/a/b/c/target" 5 true false w_nested = (Return true, w') /\
     kind_at ["a"; "b"; "c"; "target"] (fs w') = None) /\
  unlink_or_rename_to_trash posix "/d/f" w_readonly_dir
  = call (rename posix "/d/f" "/d/f.trash")
      (snd (make_writable posix "/d/f" w_readonly_dir)).
Proof.
  split.
  - destruct (proj1 rm_rf_regular_file w_nested ["a"; "b"; "c"] "target" true
                [("target", File true "x")] true "x" 10 5 true
                eq_refl eq_refl eq_refl) as (w' & H1 & H2 & _).
    exists w'. split; [exact H1 | exact H2].
  - apply (proj2 rm_rf_regular_file world posix "/d/f" w_readonly_dir
             (snd (make_writable posix "/d/f" w_readonly_dir))
             (snd (make_writable posix "/d/f" w_readonly_dir)) EACCES);
      reflexivity.
Defined.

(** C5, as stated, fails: a regular file in a read-only directory is still
    there after [rm_rf], under its own name, and [rm_rf] returns [False]. *)
Lemma rm_rf_file_in_readonly_directory :
  kind_at ["d"; "f"] (fs w_readonly_dir) = Some (KFile true "x") /\
  fst (rm_rf posix 10 "/d/f" 5 true false w_readonly_dir) = Return false /\
  kind_at ["d"; "f"] (fs (snd (rm_rf posix 10 "/d/f" 5 true false w_readonly_dir)))
  = Some (KFile true "x") /\
  kind_at ["d"; "f.trash"] (fs (snd (rm_rf posix 10 "/d/f" 5 true false w_readonly_dir)))
  = None.
Proof. repeat split; reflexivity. Qed.

(** ** Pruning empty ancestors *)

Lemma ancestor_0 : forall p, ancestor 0 p = p.
Proof. intros p. unfold ancestor. rewrite Nat.sub_0_r. apply firstn_all. Qed.

Lemma ancestor_snoc_S : forall p n i, ancestor (S i) (p ++ [n]) = ancestor i p.
Proof.
  intros p n i. unfold ancestor. rewrite length_app. simpl.
  replace (List.length p + 1 - S i) with (List.length p - i) by lia.
  rewrite firstn_app.
  replace (List.length p - i - List.length p) with 0 by lia.
  simpl. apply app_nil_r.
Qed.

Lemma ancestor_length : forall p i, List.length (ancestor i p) <= List.length p.
Proof. intros p i. unfold ancestor. rewrite length_firstn. lia. Qed.

Lemma ancestor_S_removelast : forall p i, ancestor (S i) p = ancestor i (removelast p).
Proof.
  intros p i. destruct p as [| c p'] using rev_ind; [reflexivity |].
  rewrite removelast_last. apply ancestor_snoc_S.
Qed.

Lemma kind_at_dir : forall p t wr es,
  lookup p t = Some (Dir wr es) -> is_dir_kind (kind_at p t) = true.
Proof. intros p t wr es H. unfold kind_at. rewrite H. reflexivity. Qed.

(** What one successful [rmdir] changes. *)
Lemma fs_rmdir_ok : forall d n t t',
  fs_rmdir (d ++ [n]) t = (inl tt, t') ->
  t' = alter d (drop_entry n) t /\
  exists wr, lookup (d ++ [n]) t = Some (Dir wr []).
Proof.
  intros d n t t' H. rewrite fs_rmdir_snoc in H. rewrite lookup_snoc.
  destruct (lookup d t) as [[wr x | tg | wr es] |]; try discriminate.
  destruct (assoc n es) as [[fw fd | tg | dw [| e des]] |]; try discriminate.
  destruct wr; [| discriminate]. inversion H. split; [reflexivity |]. eauto.
Qed.

(** One turn of the loop on the POSIX file system. *)
Lemma prune_step : forall fuel ps u,
  forallb valid_name ps = true ->
  remove_empty_parent_paths_loop posix (S fuel) (render ps) u
  = match stat MAXSYMLINKS ps (fs u) with
    | Some (Dir _ []) =>
        match fs_rmdir ps (fs u) with
        | (inl _, t1) =>
            remove_empty_parent_paths_loop posix fuel (render (removelast ps)) (set_fs u t1)
        | (inr e, t1) => (Raise (OSError e), set_fs u t1)
        end
    | _ => (Return tt, u)
    end.
Proof.
  intros fuel ps u Hv.
  assert (Hp : forall x, path_comps (cwd x) (render ps) = Some ps)
    by (intros; apply path_comps_render; exact Hv).
  cbn [remove_empty_parent_paths_loop]. unfold bind, ask, gather, call.
  cbn [isdir listdir rmdir dirname posix].
  rewrite (posix_isdir_at _ ps u (Hp u)).
  destruct (stat MAXSYMLINKS ps (fs u)) as [[wr d | tg | wr [| e es]] |] eqn:Hs;
    cbn [is_dir]; cbv beta iota; try reflexivity.
  - rewrite (posix_listdir_at _ ps u (Hp u)), Hs. cbn [map]. cbv beta iota.
    rewrite (posix_rmdir_at _ ps u (Hp u)), (dirname_render _ Hv).
    destruct (fs_rmdir ps (fs u)) as [[[] | err] t1]; reflexivity.
  - rewrite (posix_listdir_at _ ps u (Hp u)), Hs. reflexivity.
Qed.

(** The loop of [remove_empty_parent_paths] started at the directory [ps]:
    when it returns, it has removed [k] directories ([ps] and the ancestors
    above it), each of them empty by then; it stopped at the next ancestor,
    which is missing, not a directory or not empty; nothing else changed. *)
Lemma prune_loop_posix : forall fuel ps u u',
  forallb valid_name ps = true ->
  remove_empty_parent_paths_loop posix fuel (render ps) u = (Return tt, u') ->
  exists k,
    k <= List.length ps /\
    (forall i, i < k -> kind_at (ancestor i ps) (fs u') = None) /\
    holds_nothing (stat MAXSYMLINKS (ancestor k ps) (fs u')) = false /\
    (forall q,
       kind_at q (fs u') = kind_at q (fs u) \/
       exists i, i < k /\ q = ancestor i ps /\
                 is_dir_kind (kind_at q (fs u)) = true /\ kind_at q (fs u') = None) /\
    cwd u' = cwd u /\ stdout u' = stdout u.
Proof.
  induction fuel as [| fuel IH]; intros ps u u' Hv Hrun; [discriminate |].
  rewrite (prune_step _ _ _ Hv) in Hrun.
  assert (Hstay : (Return tt, u) = (Return tt, u') ->
                  holds_nothing (stat MAXSYMLINKS ps (fs u)) = false ->
                  exists k,
                    k <= List.length ps /\
                    (forall i, i < k -> kind_at (ancestor i ps) (fs u') = None) /\
                    holds_nothing (stat MAXSYMLINKS (ancestor k ps) (fs u')) = false /\
                    (forall q,
                       kind_at q (fs u') = kind_at q (fs u) \/
                       exists i, i < k /\ q = ancestor i ps /\
                         is_dir_kind (kind_at q (fs u)) = true /\
                         kind_at q (fs u') = None) /\
                    cwd u' = cwd u /\ stdout u' = stdout u).
  { intros E Hh. inversion E; subst u'. exists 0. rewrite ancestor_0.
    repeat split; try lia; auto. }
  destruct (stat MAXSYMLINKS ps (fs u)) as [[wr d | tg | wr [| e es]] |] eqn:Hs;
    try (apply Hstay; [exact Hrun | reflexivity]).
  clear Hstay.
  destruct ps as [| n ps0] using rev_ind; [discriminate |]. clear IHps0.
  destruct (fs_rmdir (ps0 ++ [n]) (fs u)) as [[[] | err] t1] eqn:Hrm; [| discriminate].
  destruct (fs_rmdir_ok _ _ _ _ Hrm) as [-> [wr0 Hl]].
  rewrite removelast_snoc in Hrun.
  destruct (forallb_snoc _ _ _ Hv) as [Hv0 _].
  destruct (IH _ _ _ Hv0 Hrun) as (k & Hk & Hgone & Hstop & Hframe & Hcwd & Hout).
  destruct (kind_at_drop_entry ps0 n (fs u) _ Hl I) as [Hnone Hsame].
  exists (S k). rewrite length_app. simpl. split; [lia |].
  split; [| split; [| split; [| split]]].
  - intros [| i] Hi.
    + rewrite ancestor_0.
      destruct (Hframe (ps0 ++ [n])%list) as [H | (j & _ & _ & _ & H)]; [| exact H].
      rewrite H. exact Hnone.
    + rewrite ancestor_snoc_S. apply Hgone. lia.
  - rewrite ancestor_snoc_S. exact Hstop.
  - intros q. destruct (Hframe q) as [H | (j & Hj & Hq & Hdir & H)].
    + destruct (list_eq_dec string_dec q (ps0 ++ [n])%list) as [-> | Hne].
      * right. exists 0. rewrite ancestor_0.
        repeat split; [lia | | ].
        -- apply (kind_at_dir _ _ wr0 []). exact Hl.
        -- rewrite H. exact Hnone.
      * left. rewrite H. simpl fs. apply Hsame. exact Hne.
    + right. exists (S j). rewrite ancestor_snoc_S.
      repeat split; [lia | exact Hq | | exact H].
      rewrite <- Hdir. simpl fs. symmetry. f_equal. apply Hsame.
      intros E. pose proof (ancestor_length ps0 j) as Hlen.
      rewrite <- Hq, E, length_app in Hlen. simpl in Hlen. lia.
  - rewrite Hcwd. reflexivity.
  - rewrite Hout. reflexivity.
Qed.

(** The loop ends within one turn per component of the path, and one more. *)
Lemma prune_loop_posix_ends : forall fuel ps u,
  forallb valid_name ps = true ->
  List.length ps < fuel ->
  fst (remove_empty_parent_paths_loop posix fuel (render ps) u) <> OutOfFuel.
Proof.
  induction fuel as [| fuel IH]; intros ps u Hv Hlen; [lia |].
  rewrite (prune_step _ _ _ Hv).
  destruct (stat MAXSYMLINKS ps (fs u)) as [[wr d | tg | wr [| e es]] |];
    try discriminate.
  destruct ps as [| n ps0] using rev_ind; [discriminate |]. clear IHps0.
  destruct (fs_rmdir (ps0 ++ [n]) (fs u)) as [[[] | err] t1]; [| discriminate].
  rewrite removelast_snoc.
  destruct (forallb_snoc _ _ _ Hv) as [Hv0 _].
  apply IH; [exact Hv0 |]. rewrite length_app in Hlen. simpl in Hlen. lia.
Qed.

Lemma removelast_length_le : forall (p : list string),
  List.length (removelast p) <= List.length p.
Proof.
  intros p. destruct p as [| c p'] using rev_ind; [simpl; lia |].
  rewrite removelast_last, length_app. simpl. lia.
Qed.

Lemma forallb_removelast : forall (f : string -> bool) p,
  forallb f p = true -> forallb f (removelast p) = true.
Proof.
  intros f p H. destruct p as [| c p'] using rev_ind; [reflexivity |].
  rewrite removelast_last. apply forallb_snoc in H. tauto.
Qed.

(** [rm_rf] on a normalized absolute path of the POSIX file system: the path
    it works on, the re-check and the pruning. *)
Lemma rm_rf_posix_parts : forall w cs fuel,
  forallb valid_name cs = true ->
  exists r w1,
    rm_rf_try posix (render cs) w = (r, render cs, w1) /\
    rm_rf_recheck posix (render cs) w = (inl (is_some (lookup cs (fs w1))), w1) /\
    rm_rf_pruning posix fuel (render cs) w
    = remove_empty_parent_paths_loop posix fuel (render (removelast cs)) w1.
Proof.
  intros w cs fuel Hv.
  assert (Htry : rm_rf_try posix (render cs) w
                 = (fst (rm_rf_classify posix (render cs) w), render cs,
                    snd (rm_rf_classify posix (render cs) w))).
  { apply rm_rf_try_abspath. apply abspath_render. exact Hv. }
  exists (fst (rm_rf_classify posix (render cs) w)),
         (snd (rm_rf_classify posix (render cs) w)).
  split; [exact Htry |].
  unfold rm_rf_recheck, rm_rf_pruning. rewrite Htry.
  cbn [lexists posix].
  rewrite (posix_lexists_at _ cs) by (apply path_comps_render; exact Hv).
  split; [reflexivity |].
  unfold remove_empty_parent_paths. cbn [dirname posix snd].
  rewrite (dirname_render _ Hv). reflexivity.
Qed.

Lemma fs_rmdir_err : forall p t n t', fs_rmdir p t = (inr n, t') -> t' = t.
Proof.
  intros p t n t' H. unfold fs_rmdir in H.
  destruct p as [| c p0]; [inversion H; reflexivity |].
  destruct (lookup (removelast (c :: p0)) t) as [[wr x | tg | wr es] |];
    try (inversion H; reflexivity).
  destruct (assoc (last (c :: p0) "") es) as [[fw fd | tg | dw [| e des]] |];
    try destruct wr; inversion H; reflexivity.
Qed.

(** The loop of [remove_empty_parent_paths] when it raises: it has removed
    [k] directories, each of them empty by then, and the [rmdir] of the next
    ancestor, an empty directory, was refused; that directory is still
    there, and nothing else changed. *)
Lemma prune_loop_posix_raises : forall fuel ps u e u',
  forallb valid_name ps = true ->
  remove_empty_parent_paths_loop posix fuel (render ps) u = (Raise e, u') ->
  exists k n,
    e = OSError n /\
    k <= List.length ps /\
    (forall i, i < k -> kind_at (ancestor i ps) (fs u') = None) /\
    holds_nothing (stat MAXSYMLINKS (ancestor k ps) (fs u')) = true /\
    (forall q,
       kind_at q (fs u') = kind_at q (fs u) \/
       exists i, i < k /\ q = ancestor i ps /\
                 is_dir_kind (kind_at q (fs u)) = true /\ kind_at q (fs u') = None) /\
    cwd u' = cwd u /\ stdout u' = stdout u.
Proof.
  induction fuel as [| fuel IH]; intros ps u e u' Hv Hrun; [discriminate |].
  rewrite (prune_step _ _ _ Hv) in Hrun.
  destruct (stat MAXSYMLINKS ps (fs u)) as [[wr d | tg | wr [| e0 es]] |] eqn:Hs;
    try discriminate.
  destruct (fs_rmdir ps (fs u)) as [[[] | err] t1] eqn:Hrm.
  - destruct ps as [| n ps0] using rev_ind; [discriminate |]. clear IHps0.
    destruct (fs_rmdir_ok _ _ _ _ Hrm) as [-> [wr0 Hl]].
    rewrite removelast_snoc in Hrun.
    destruct (forallb_snoc _ _ _ Hv) as [Hv0 _].
    destruct (IH _ _ _ _ Hv0 Hrun) as (k & m & He & Hk & Hgone & Hstop & Hframe & Hcwd & Hout).
    destruct (kind_at_drop_entry ps0 n (fs u) _ Hl I) as [Hnone Hsame].
    exists (S k), m. split; [exact He |]. rewrite length_app. simpl. split; [lia |].
    split; [| split; [| split; [| split]]].
    + intros [| i] Hi.
      * rewrite ancestor_0.
        destruct (Hframe (ps0 ++ [n])%list) as [H | (j & _ & _ & _ & H)]; [| exact H].
        rewrite H. exact Hnone.
      * rewrite ancestor_snoc_S. apply Hgone. lia.
    + rewrite ancestor_snoc_S. exact Hstop.
    + intros q. destruct (Hframe q) as [H | (j & Hj & Hq & Hdir & H)].
      * destruct (list_eq_dec string_dec q (ps0 ++ [n])%list) as [-> | Hne].
        -- right. exists 0. rewrite ancestor_0.
           repeat split; [lia | | ].
           ++ apply (kind_at_dir _ _ wr0 []). exact Hl.
           ++ rewrite H. exact Hnone.
        -- left. rewrite H. simpl fs. apply Hsame. exact Hne.
      * right. exists (S j). rewrite ancestor_snoc_S.
        repeat split; [lia | exact Hq | | exact H].
        rewrite <- Hdir. simpl fs. symmetry. f_equal. apply Hsame.
        intros E. pose proof (ancestor_length ps0 j) as Hlen.
        rewrite <- Hq, E, length_app in Hlen. simpl in Hlen. lia.
    + rewrite Hcwd. reflexivity.
    + rewrite Hout. reflexivity.
  - rewrite (fs_rmdir_err _ _ _ _ Hrm) in Hrun. rewrite set_fs_same in Hrun.
    injection Hrun as <- <-.
    exists 0, err. rewrite ancestor_0. split; [reflexivity |]. split; [lia |].
    split; [intros i Hi; lia |]. split; [rewrite Hs; reflexivity |].
    split; [intros q; left; reflexivity |]. split; reflexivity.
Qed.

(** C8 (as amended).  With [clean_empty_parents] set, on the POSIX file
    system and for a normalized absolute path whose directory part holds no
    symbolic link: when the re-check finds the path present nothing is
    pruned; when [rm_rf] returns [True] the path is gone and the walk upward
    has removed the first [k] ancestors, each a directory that was empty by
    then, and has stopped at the next one, which is missing, not a directory
    or not empty; when [rm_rf] raises after an attempt that raised nothing,
    the path is gone, the walk has removed the first [k] ancestors and the
    [rmdir] of the next one, an empty directory, was refused with the
    [OSError] raised: that directory is still there.  In either case
    everything else is as the deletion left it.  The walk needs no more turns
    than the path has components. *)
Theorem rm_rf_clean_empty_parents :
  forall w cs fuel max_retries trash,
    forallb valid_name cs = true ->
    link_free (removelast cs) (fs w) = true ->
    (List.length cs < fuel ->
     fst (rm_rf posix fuel (render cs) max_retries trash true w) <> OutOfFuel) /\
    (fst (rm_rf posix fuel (render cs) max_retries trash true w) = Return false ->
     snd (rm_rf posix fuel (render cs) max_retries trash true w)
     = snd (rm_rf_recheck posix (render cs) w)) /\
    (forall w',
       rm_rf posix fuel (render cs) max_retries trash true w = (Return true, w') ->
       let u := snd (rm_rf_recheck posix (render cs) w) in
       kind_at cs (fs u) = None /\
       exists k,
         k <= List.length cs /\
         (forall i, i < k -> kind_at (ancestor (S i) cs) (fs w') = None) /\
         holds_nothing (stat MAXSYMLINKS (ancestor (S k) cs) (fs w')) = false /\
         (forall q,
            kind_at q (fs w') = kind_at q (fs u) \/
            exists i, i < k /\ q = ancestor (S i) cs /\
                      is_dir_kind (kind_at q (fs u)) = true /\
                      kind_at q (fs w') = None) /\
         cwd w' = cwd u /\ stdout w' = stdout u) /\
    (forall e w',
       rm_rf posix fuel (render cs) max_retries trash true w = (Raise e, w') ->
       fst (fst (rm_rf_try posix (render cs) w)) = Return tt ->
       let u := snd (rm_rf_recheck posix (render cs) w) in
       kind_at cs (fs u) = None /\
       exists k n,
         e = OSError n /\
         k <= List.length cs /\
         (forall i, i < k -> kind_at (ancestor (S i) cs) (fs w') = None) /\
         holds_nothing (stat MAXSYMLINKS (ancestor (S k) cs) (fs w')) = true /\
         (forall q,
            kind_at q (fs w') = kind_at q (fs u) \/
            exists i, i < k /\ q = ancestor (S i) cs /\
                      is_dir_kind (kind_at q (fs u)) = true /\
                      kind_at q (fs w') = None) /\
         cwd w' = cwd u /\ stdout w' = stdout u).
Proof.
  intros w cs fuel max_retries trash Hv _.
  destruct (rm_rf_posix_parts w cs fuel Hv) as (r & w1 & Htry & Hre & Hpr).
  pose proof (rm_rf_try_total _ posix (render cs) w) as Htot.
  rewrite rm_rf_unfold, Hre, Hpr. rewrite Htry in *. simpl fst in *. simpl snd.
  pose proof (forallb_removelast _ _ Hv) as Hv'.
  destruct (is_some (lookup cs (fs w1))) eqn:Hex.
  { destruct r as [[] | e |]; try congruence;
      (split; [intros; discriminate |]); (split; [reflexivity |]);
      (split; [intros w' H; discriminate | intros e' w' H; discriminate]). }
  destruct r as [[] | e |]; try congruence.
  2:{ split; [intros; discriminate |]. split; [intros; discriminate |].
      split; [intros w' H; discriminate | intros e' w' _ H; discriminate]. }
  assert (Hgone0 : kind_at cs (fs w1) = None).
  { unfold kind_at. destruct (lookup cs (fs w1)); [discriminate | reflexivity]. }
  pose proof (removelast_length_le cs) as Hle.
  split; [| split; [| split]].
  - intros Hlen.
    pose proof (prune_loop_posix_ends fuel (removelast cs) w1 Hv') as Hend.
    destruct (remove_empty_parent_paths_loop posix fuel (render (removelast cs)) w1)
      as [[[] | e |] w3]; simpl in *; try discriminate.
    exfalso. apply Hend; [lia | reflexivity].
  - destruct (remove_empty_parent_paths_loop posix fuel (render (removelast cs)) w1)
      as [[[] | e |] w3]; simpl; intros; discriminate.
  - intros w' H.
    destruct (remove_empty_parent_paths_loop posix fuel (render (removelast cs)) w1)
      as [[[] | e |] w3] eqn:Hloop; try discriminate.
    inversion H; subst w3. clear H.
    split; [exact Hgone0 |].
    destruct (prune_loop_posix _ _ _ _ Hv' Hloop)
      as (k & Hk & Hgone & Hstop & Hframe & Hcwd & Hout).
    exists k.
    split; [lia |]. split; [| split; [| split; [| split]]].
    + intros i Hi. rewrite ancestor_S_removelast. apply Hgone. exact Hi.
    + rewrite ancestor_S_removelast. exact Hstop.
    + intros q. destruct (Hframe q) as [Hq | (i & Hi & Hq & Hd & Hn)]; [left; exact Hq |].
      right. exists i. rewrite ancestor_S_removelast. auto.
    + exact Hcwd.
    + exact Hout.
  - intros e w' H _.
    destruct (remove_empty_parent_paths_loop posix fuel (render (removelast cs)) w1)
      as [[[] | e0 |] w3] eqn:Hloop; try discriminate.
    inversion H; subst e0 w3. clear H.
    split; [exact Hgone0 |].
    destruct (prune_loop_posix_raises _ _ _ _ _ Hv' Hloop)
      as (k & n & He & Hk & Hgone & Hstop & Hframe & Hcwd & Hout).
    exists k, n. split; [exact He |].
    split; [lia |]. split; [| split; [| split; [| split]]].
    + intros i Hi. rewrite ancestor_S_removelast. apply Hgone. exact Hi.
    + rewrite ancestor_S_removelast. exact Hstop.
    + intros q. destruct (Hframe q) as [Hq | (i & Hi & Hq & Hd & Hn)]; [left; exact Hq |].
      right. exists i. rewrite ancestor_S_removelast. auto.
    + exact Hcwd.
    + exact Hout.
Qed.

(** The example of the spec: with other content in [/a], deleting
    [/a/b/c/target] removes [/a/b/c] and [/a/b] and stops at [/a].  And a
    run that raises: below the read-only [/ro], deleting [/ro/a/b/f] removes
    [/ro/a/b], and the [rmdir] of the emptied [/ro/a] is refused. *)
Lemma rm_rf_clean_empty_parents_witness :
  (fst (rm_rf posix 10 "/a/b/c/target" 5 true true w_nested) <> OutOfFuel /\
   exists k,
     (forall i, i < k ->
        kind_at (ancestor (S i) ["a"; "b"; "c"; "target"])
          (fs (snd (rm_rf posix 10 "/a/b/c/target" 5 true true w_nested))) = None) /\
     holds_nothing
       (stat MAXSYMLINKS (ancestor (S k) ["a"; "b"; "c"; "target"])
          (fs (snd (rm_rf posix 10 "/a/b/c/target" 5 true true w_nested)))) = false) /\
  exists k n,
    fst (rm_rf posix 10 "/ro/a/b/f" 5 true true w_readonly_grandparent)
    = Raise (OSError n) /\
    (forall i, i < k ->
       kind_at (ancestor (S i) ["ro"; "a"; "b"; "f"])
         (fs (snd (rm_rf posix 10 "/ro/a/b/f" 5 true true w_readonly_grandparent)))
       = None) /\
    holds_nothing
      (stat MAXSYMLINKS (ancestor (S k) ["ro"; "a"; "b"; "f"])
         (fs (snd (rm_rf posix 10 "/ro/a/b/f" 5 true true w_readonly_grandparent))))
    = true.
Proof.
  split.
  - destruct (rm_rf_clean_empty_parents w_nested ["a"; "b"; "c"; "target"] 10 5 true
                eq_refl eq_refl)
      as (Hend & _ & Hprune & _).
    split; [apply Hend; simpl; lia |].
    destruct (Hprune (snd (rm_rf posix 10 "/a/b/c/target" 5 true true w_nested)) eq_refl)
      as (_ & k & _ & Hgone & Hstop & _).
    exists k. split; assumption.
  - destruct (rm_rf_clean_empty_parents w_readonly_grandparent ["ro"; "a"; "b"; "f"]
                10 5 true eq_refl eq_refl)
      as (_ & _ & _ & Hraise).
    destruct (Hraise (OSError EACCES)
                (snd (rm_rf posix 10 "/ro/a/b/f" 5 true true w_readonly_grandparent))
                eq_refl eq_refl)
      as (_ & k & n & He & _ & Hgone & Hstop & _).
    exists k, n. split; [rewrite <- He; reflexivity |]. split; assumption.
Defined.

(** C8, as stated, fails: the deletion succeeds, the walk removes [/ro/a/b],
    and the next ancestor [/ro/a], which exists and is empty, is not removed:
    its [rmdir] is refused in the read-only [/ro] and [rm_rf] raises instead
    of stopping. *)
Lemma rm_rf_keeps_empty_ancestor :
  let r := rm_rf posix 10 "/ro/a/b/f" 5 true true w_readonly_grandparent in
  fst (fst (rm_rf_try posix "/ro/a/b/f" w_readonly_grandparent)) = Return tt /\
  fst (rm_rf_recheck posix "/ro/a/b/f" w_readonly_grandparent) = inl false /\
  fst r = Raise (OSError EACCES) /\
  kind_at ["ro"; "a"; "b"; "f"] (fs (snd r)) = None /\
  kind_at ["ro"; "a"; "b"] (fs (snd r)) = None /\
  lookup ["ro"; "a"] (fs (snd r)) = Some (Dir true []).
Proof. repeat split; reflexivity. Qed.

(** In that example two directories go and [/a] stays. *)
Lemma rm_rf_clean_empty_parents_example :
  let w' := snd (rm_rf posix 10 "/a/b/c/target" 5 true true w_nested) in
  kind_at ["a"; "b"; "c"; "target"] (fs w') = None /\
  kind_at ["a"; "b"; "c"] (fs w') = None /\
  kind_at ["a"; "b"] (fs w') = None /\
  kind_at ["a"] (fs w') = Some (KDir true) /\
  kind_at ["a"; "keep.txt"] (fs w') = Some (KFile true "k").
Proof. repeat split; reflexivity. Qed.

(** ** Loops *)

Section Loops.
Variable W : Type.







End Loops.

(** ** The sweep of trash markers *)

Section Sweep.
Variable W : Type.
Variable os : OS W.



End Sweep.



(** ** Trees with valid names, and the walk *)






Lemma is_prefix_app : forall X r, is_prefix X (X ++ r) = true.
Proof.
  induction X as [| x X IH]; intros r; simpl; [reflexivity |].
  rewrite String.eqb_refl. apply IH.
Qed.




(** ** The sweep on the POSIX file system *)






Lemma kind_dir_lookup : forall p t wr,
  kind_at p t = Some (KDir wr) -> exists es, lookup p t = Some (Dir wr es).
Proof.
  intros p t wr H. unfold kind_at in H.
  destruct (lookup p t) as [[fw fd | tg | dw des] |]; try discriminate.
  inversion H. eauto.
Qed.












(** What the sweep leaves on the sample tree. *)
Lemma delete_trash_example :
  let w' := snd (delete_trash posix (Some "/env") w_trash) in
  kind_at ["env"; "a.trash"] (fs w') = None /\
  kind_at ["env"; "a.txt"] (fs w') = Some (KFile true "2") /\
  kind_at ["env"; "lib"; "b.trash"] (fs w') = None /\
  kind_at ["env"; "lib"; "b.so"] (fs w') = Some (KFile true "4") /\
  kind_at ["env"; "lib"; "deep"; "x.trashy"] (fs w') = Some (KFile true "6") /\
  kind_at ["env"; "lib"; "locked"; "c.trash"] (fs w') = Some (KFile true "7") /\
  kind_at ["env"; "dir.trash"; "inner"] (fs w') = Some (KFile true "8") /\
  kind_at ["other"; "o.trash"] (fs w') = Some (KFile true "9").
Proof. repeat split; reflexivity. Qed.

(** ** Absent paths and repeated deletion *)

Lemma lookup_none_stat : forall fuel p t, lookup p t = None -> stat fuel p t = None.
Proof.
  intros fuel p t H. rewrite stat_not_link by (rewrite H; reflexivity). exact H.
Qed.

Lemma rm_rf_posix_absent_try : forall w cs,
  forallb valid_name cs = true ->
  lookup cs (fs w) = None ->
  rm_rf_try posix (render cs) w = (Return tt, render cs, w).
Proof.
  intros w cs Hv Hl.
  assert (Hp : path_comps (cwd w) (render cs) = Some cs) by (apply path_comps_render; exact Hv).
  rewrite (rm_rf_try_abspath _ posix (render cs) w (render cs) w)
    by (apply abspath_render; exact Hv).
  rewrite (rm_rf_classify_other _ posix (render cs) w w w w false); [reflexivity | |].
  - left. cbn [isdir posix]. rewrite (posix_isdir_at _ _ _ Hp).
    rewrite (lookup_none_stat _ _ _ Hl). reflexivity.
  - cbn [lexists posix]. rewrite (posix_lexists_at _ _ _ Hp), Hl. reflexivity.
Qed.

Lemma rm_rf_posix_absent : forall w cs fuel max_retries trash clean,
  forallb valid_name cs = true ->
  lookup cs (fs w) = None ->
  rm_rf posix fuel (render cs) max_retries trash clean w
  = if clean then (remove_empty_parent_paths posix fuel (render cs) ;; ret true) w
    else (Return true, w).
Proof.
  intros w cs fuel max_retries trash clean Hv Hl.
  assert (Hp : path_comps (cwd w) (render cs) = Some cs) by (apply path_comps_render; exact Hv).
  rewrite rm_rf_unfold. unfold rm_rf_recheck, rm_rf_pruning.
  rewrite (rm_rf_posix_absent_try w cs Hv Hl). cbn [fst snd lexists posix].
  rewrite (posix_lexists_at _ _ _ Hp), Hl. cbn [is_some snd].
  destruct clean; [| reflexivity].
  unfold bind. destruct (remove_empty_parent_paths posix fuel (render cs) w)
    as [[[] | e |] w3]; reflexivity.
Qed.

(** X1.  On the POSIX file system, for a normalized absolute path that names
    nothing and passes through no symbolic link: without
    [clean_empty_parents], [rm_rf] returns [True] and leaves the world as it
    is; with it, [rm_rf] is the pruning of the ancestors of the path followed
    by [True], so that empty directories above a path that never existed are
    removed. *)
Theorem rm_rf_absent_path :
  forall w cs fuel max_retries trash,
    forallb valid_name cs = true ->
    link_free cs (fs w) = true ->
    lookup cs (fs w) = None ->
    rm_rf posix fuel (render cs) max_retries trash false w = (Return true, w) /\
    rm_rf posix fuel (render cs) max_retries trash true w
    = (remove_empty_parent_paths posix fuel (render cs) ;; ret true) w.
Proof.
  intros w cs fuel max_retries trash Hv _ Hl. split.
  - apply (rm_rf_posix_absent w cs fuel max_retries trash false Hv Hl).
  - apply (rm_rf_posix_absent w cs fuel max_retries trash true Hv Hl).
Qed.

Lemma rm_rf_absent_path_witness :
  rm_rf posix 10 "/a/b/c/x" 5 true false w_hollow = (Return true, w_hollow) /\
  rm_rf posix 10 "/a/b/c/x" 5 true true w_hollow
  = (remove_empty_parent_paths posix 10 "/a/b/c/x" ;; ret true) w_hollow.
Proof.
  exact (rm_rf_absent_path w_hollow ["a"; "b"; "c"; "x"] 10 5 true
           eq_refl eq_refl eq_refl).
Defined.

Lemma kind_none_lookup : forall p t, kind_at p t = None -> lookup p t = None.
Proof.
  intros p t H. unfold kind_at in H. destruct (lookup p t); [discriminate | reflexivity].
Qed.

(** A second pruning from the same path finds nothing to do. *)
Lemma prune_loop_posix_again : forall fuel ps u u',
  forallb valid_name ps = true ->
  remove_empty_parent_paths_loop posix fuel (render ps) u = (Return tt, u') ->
  remove_empty_parent_paths_loop posix fuel (render ps) u' = (Return tt, u').
Proof.
  intros fuel ps u u' Hv Hrun.
  destruct (prune_loop_posix _ _ _ _ Hv Hrun) as (k & _ & Hgone & Hstop & _).
  destruct fuel as [| fuel]; [discriminate |].
  rewrite (prune_step _ _ _ Hv).
  assert (Hh : holds_nothing (stat MAXSYMLINKS ps (fs u')) = false).
  { destruct k as [| k].
    - rewrite ancestor_0 in Hstop. exact Hstop.
    - assert (H0 : kind_at (ancestor 0 ps) (fs u') = None) by (apply Hgone; lia).
      rewrite ancestor_0 in H0.
      rewrite (lookup_none_stat _ _ _ (kind_none_lookup _ _ H0)). reflexivity. }
  destruct (stat MAXSYMLINKS ps (fs u')) as [[wr d | tg | wr [| e es]] |];
    try reflexivity. discriminate.
Qed.

(** X2.  Deleting twice: on the POSIX file system, when [rm_rf] has returned
    [True] for a normalized absolute path, the same call made again returns
    [True] and changes nothing, with or without [clean_empty_parents]. *)
Theorem rm_rf_twice :
  forall w cs fuel max_retries trash clean w',
    forallb valid_name cs = true ->
    rm_rf posix fuel (render cs) max_retries trash clean w = (Return true, w') ->
    rm_rf posix fuel (render cs) max_retries trash clean w' = (Return true, w').
Proof.
  intros w cs fuel max_retries trash clean w' Hv Hrun.
  destruct (rm_rf_posix_parts w cs fuel Hv) as (r & w1 & Htry & Hre & Hpr).
  pose proof (rm_rf_try_total _ posix (render cs) w) as Htot.
  rewrite rm_rf_unfold, Hre, Hpr in Hrun. rewrite Htry in *. simpl fst in *.
  pose proof (forallb_removelast _ _ Hv) as Hv'.
  destruct (is_some (lookup cs (fs w1))) eqn:Hex.
  { destruct r as [[] | e |]; try congruence; discriminate. }
  assert (Hl1 : lookup cs (fs w1) = None).
  { destruct (lookup cs (fs w1)); [discriminate | reflexivity]. }
  destruct r as [[] | e |]; try congruence; try discriminate.
  destruct clean.
  - destruct (remove_empty_parent_paths_loop posix fuel (render (removelast cs)) w1)
      as [[[] | e |] w3] eqn:Hloop; try discriminate.
    inversion Hrun; subst w3. clear Hrun.
    assert (Hl' : lookup cs (fs w') = None).
    { destruct (prune_loop_posix _ _ _ _ Hv' Hloop) as (k & _ & _ & _ & Hframe & _).
      apply kind_none_lookup.
      destruct (Hframe cs) as [H | (i & _ & _ & _ & H)]; [| exact H].
      rewrite H. unfold kind_at. rewrite Hl1. reflexivity. }
    rewrite (rm_rf_posix_absent w' cs fuel max_retries trash true Hv Hl').
    unfold bind, remove_empty_parent_paths. cbn [dirname posix].
    rewrite (dirname_render _ Hv).
    rewrite (prune_loop_posix_again _ _ _ _ Hv' Hloop). reflexivity.
  - inversion Hrun; subst w1.
    apply (rm_rf_posix_absent w' cs fuel max_retries trash false Hv Hl1).
Qed.

Lemma rm_rf_twice_witness :
  rm_rf posix 10 "/a/b/c/target" 5 true true
    (snd (rm_rf posix 10 "/a/b/c/target" 5 true true w_nested))
  = (Return true, snd (rm_rf posix 10 "/a/b/c/target" 5 true true w_nested)).
Proof.
  apply (rm_rf_twice w_nested ["a"; "b"; "c"; "target"] 10 5 true true); reflexivity.
Defined.

(** ** Symbolic links *)

Section SymLink.
Variable w : world.
Variables (cs : list string) (name : string).
Variables (wr : bool) (es : list (string * node)) (tg : string).
Hypothesis Hvalid : forallb valid_name (cs ++ [name]) = true.
Hypothesis Hdir : lookup cs (fs w) = Some (Dir wr es).
Hypothesis Hlink : assoc name es = Some (Link tg).

Variable p : list string.
Hypothesis Hp : p = (cs ++ [name])%list.
Variable t1 : node.
Hypothesis Ht1 : t1 = alter p set_writable (fs w).

Lemma link_lookup : lookup p (fs w) = Some (Link tg).
Proof. rewrite Hp, lookup_snoc, Hdir. exact Hlink. Qed.

Lemma link_parent_after_chmod :
  lookup cs t1 = Some (Dir wr (map_first name set_writable es)).
Proof. rewrite Ht1, Hp, lookup_alter_above, Hdir. reflexivity. Qed.

Lemma link_after_chmod : lookup (cs ++ [name]) t1 = Some (Link tg).
Proof.
  rewrite <- Hp, Ht1, lookup_alter_same, link_lookup. reflexivity.
Qed.

Lemma link_entry_after_chmod :
  assoc name (map_first name set_writable es) = Some (Link tg).
Proof. rewrite assoc_map_first, String.eqb_refl, Hlink. reflexivity. Qed.

Lemma link_path_comps : forall u, path_comps (cwd u) (render p) = Some p.
Proof. intros u. apply path_comps_render. rewrite Hp. exact Hvalid. Qed.

Lemma link_trash_comps : forall u,
  path_comps (cwd u) (render p ++ ".trash") = Some (cs ++ [(name ++ ".trash")%string])%list.
Proof.
  intros u. rewrite Hp, render_trash. apply path_comps_render.
  apply forallb_snoc in Hvalid. destruct Hvalid as [H1 H2].
  rewrite forallb_app, H1. simpl. rewrite valid_name_trash by exact H2. reflexivity.
Qed.

Lemma link_unlink :
  fs_unlink p t1
  = if wr then (inl tt, alter cs (drop_entry name) t1) else (inr EACCES, t1).
Proof.
  rewrite Hp, fs_unlink_snoc.
  rewrite link_parent_after_chmod, link_entry_after_chmod. reflexivity.
Qed.

Lemma link_rename_denied :
  wr = false -> fs_rename p (cs ++ [(name ++ ".trash")%string]) t1 = (inr EACCES, t1).
Proof.
  intros Hwr. rewrite Hp.
  apply (fs_rename_denied cs name _ t1 (map_first name set_writable es) (Link tg)).
  - rewrite link_parent_after_chmod, Hwr. reflexivity.
  - apply link_entry_after_chmod.
  - apply comps_eqb_trash.
  - apply is_prefix_trash.
Qed.

Lemma link_unlink_or_rename_to_trash :
  unlink_or_rename_to_trash posix (render p) w
  = if wr then (Return tt, set_fs w (alter cs (drop_entry name) t1))
    else (Raise (OSError EACCES), set_fs w t1).
Proof.
  unfold unlink_or_rename_to_trash, try_except, bind, run, call. simpl.
  rewrite (posix_make_writable_at _ _ _ (link_path_comps w)). rewrite <- Ht1.
  rewrite (posix_unlink_at _ p) by apply link_path_comps.
  rewrite fs_set_fs, link_unlink.
  pose proof link_rename_denied as Hren.
  pose proof link_path_comps as Hpc. pose proof link_trash_comps as Hpc'.
  destruct wr; simpl; [reflexivity |].
  rewrite (posix_rename_at _ p _ (cs ++ [(name ++ ".trash")%string])%list)
    by (first [apply Hpc | apply Hpc']).
  rewrite fs_set_fs, (Hren eq_refl). reflexivity.
Qed.

(** A link is never handed to [backoff_rmdir], whatever it points at. *)
Lemma link_rm_rf_try :
  rm_rf_try posix (render p) w
  = (fst (unlink_or_rename_to_trash posix (render p) w), render p,
     snd (unlink_or_rename_to_trash posix (render p) w)).
Proof.
  pose proof link_path_comps as Hpc.
  rewrite (rm_rf_try_abspath _ posix (render p) w (render p) w)
    by (apply abspath_render; rewrite Hp; exact Hvalid).
  rewrite (rm_rf_classify_other _ posix (render p) w w w w true); [reflexivity | |].
  - simpl isdir. simpl islink. rewrite (posix_isdir_at _ _ _ (Hpc w)).
    destruct (is_dir (stat MAXSYMLINKS p (fs w))); [right | left; reflexivity].
    split; [reflexivity |]. unfold posix_islink. rewrite (Hpc w), link_lookup.
    reflexivity.
  - simpl lexists. rewrite (posix_lexists_at _ _ _ (Hpc w)), link_lookup. reflexivity.
Qed.

Lemma link_rm_rf : forall fuel max_retries trash,
  rm_rf posix fuel (render p) max_retries trash false w
  = (Return wr, set_fs w (if wr then alter cs (drop_entry name) t1 else t1)).
Proof.
  intros fuel max_retries trash.
  pose proof link_path_comps as Hpc.
  destruct (kind_at_drop_entry cs name t1 _ link_after_chmod I) as [Hnone _].
  pose proof link_after_chmod as Hafter.
  rewrite <- Hp in Hnone, Hafter.
  rewrite rm_rf_unfold. unfold rm_rf_recheck. rewrite link_rm_rf_try.
  rewrite link_unlink_or_rename_to_trash.
  destruct wr; simpl.
  - rewrite (posix_lexists_at _ p) by apply Hpc. rewrite fs_set_fs.
    unfold kind_at in Hnone.
    destruct (lookup p (alter cs (drop_entry name) t1)); [discriminate |].
    reflexivity.
  - rewrite (posix_lexists_at _ p) by apply Hpc. rewrite fs_set_fs, Hafter.
    reflexivity.
Qed.

Lemma link_rm_rf_effect :
  let t' := if wr then alter cs (drop_entry name) t1 else t1 in
  kind_at p t' = (if wr then None else Some (KLink tg)) /\
  (forall q, q <> p -> kind_at q t' = kind_at q (fs w)).
Proof.
  destruct (kind_at_drop_entry cs name t1 _ link_after_chmod I) as [H1 H2].
  pose proof link_after_chmod as Hafter.
  rewrite <- Hp in H1, H2, Hafter.
  assert (Hother : forall q, q <> p -> kind_at q t1 = kind_at q (fs w)).
  { intros q Hq. rewrite Ht1. apply kind_at_set_writable_other. exact Hq. }
  destruct wr; simpl.
  - split; [exact H1 |]. intros q Hq. rewrite (H2 q Hq). apply Hother. exact Hq.
  - split.
    + unfold kind_at. rewrite Hafter. reflexivity.
    + exact Hother.
Qed.
End SymLink.

(** X3.  On the POSIX file system, for every symbolic link [L], dangling or
    not, to a file or to a directory: [rm_rf(L)] takes the non-directory
    branch and returns the write permission of the directory that holds [L].
    When that directory is writable the link itself is unlinked; otherwise it
    stays.  Every other path, the target of the link and what lies below it
    included, is as before: the link is never followed. *)
Theorem rm_rf_symlink :
  forall w cs name wr es tg fuel max_retries trash,
    forallb valid_name (cs ++ [name]) = true ->
    lookup cs (fs w) = Some (Dir wr es) ->
    assoc name es = Some (Link tg) ->
    exists w',
      rm_rf posix fuel (render (cs ++ [name])) max_retries trash false w
      = (Return wr, w') /\
      fst (fst (rm_rf_try posix (render (cs ++ [name])) w))
      = fst (unlink_or_rename_to_trash posix (render (cs ++ [name])) w) /\
      kind_at (cs ++ [name]) (fs w') = (if wr then None else Some (KLink tg)) /\
      (forall q, q <> (cs ++ [name])%list -> kind_at q (fs w') = kind_at q (fs w)) /\
      cwd w' = cwd w /\ stdout w' = stdout w.
Proof.
  intros w cs name wr es tg fuel max_retries trash Hv Hd Hf.
  eexists. split; [apply (link_rm_rf w cs name wr es tg Hv Hd Hf _ eq_refl _ eq_refl) |].
  destruct (link_rm_rf_effect w cs name wr es tg Hd Hf _ eq_refl _ eq_refl) as [H1 H2].
  rewrite (link_rm_rf_try w cs name wr es tg Hv Hd Hf _ eq_refl).
  rewrite fs_set_fs. repeat split; assumption.
Qed.

(** [/ld] points at the directory [/d]: the link goes, the directory and its
    files stay. *)
Lemma rm_rf_symlink_witness :
  exists w',
    rm_rf posix 10 "/ld" 5 true false w_links = (Return true, w') /\
    kind_at ["ld"] (fs w') = None /\
    kind_at ["d"; "sub"; "g"] (fs w') = Some (KFile false "y").
Proof.
  destruct (rm_rf_symlink w_links [] "ld" true
              [("d", Dir true [("f", File true "x"); ("sub", Dir true [("g", File false "y")])]);
               ("ld", Link "/d"); ("dangling", Link "/nowhere"); ("tmp", Dir true [])]
              "/d" 10 5 true eq_refl eq_refl eq_refl) as (w' & H1 & _ & H2 & H3 & _).
  exists w'. split; [exact H1 |]. split; [exact H2 |].
  rewrite (H3 ["d"; "sub"; "g"]) by discriminate. reflexivity.
Defined.

(** ** The directory engine: vanished directories, and what is printed *)

Lemma for_raises : forall W A (xs : list A) (body : A -> M W unit) w e,
  fst (for_ xs body w) = Raise e ->
  exists x u, In x xs /\ fst (body x u) = Raise e.
Proof.
  intros W A xs body. induction xs as [| x xs IH]; intros w e H; simpl in H.
  - discriminate.
  - unfold bind in H. destruct (body x w) as [[[] | e' |] w1] eqn:Hb.
    + destruct (IH _ _ H) as (y & u & Hy & Hr). exists y, u. split; [right; exact Hy | exact Hr].
    + exists x, w. split; [left; reflexivity |]. rewrite Hb. exact H.
    + discriminate.
Qed.

Lemma _rmdir_raises : forall W (os : OS W) max_tries path w e,
  fst (_rmdir os max_tries path w) = Raise e -> errno_of e <> Some ENOENT.
Proof.
  intros W os max_tries path w e H. unfold _rmdir, try_except in H.
  destruct ((run (recursive_make_writable os path None) ;;
             exp_backoff_fn os (rmtree os path (Some (retry os max_tries))) max_tries) w)
    as [[[] | e' |] w1]; try discriminate.
  destruct e' as [n | rc | nm]; simpl in H;
    try (injection H as <-; discriminate).
  destruct (Z.eqb n ENOENT) eqn:Hn; [discriminate |].
  injection H as <-. simpl. intros Heq. injection Heq as ->. discriminate.
Qed.

Lemma bulk_never_raises : forall W (os : OS W) dirpath w e,
  fst (backoff_rmdir_bulk os dirpath w) <> Raise e.
Proof.
  intros W os dirpath w e. unfold backoff_rmdir_bulk, try_except, ret.
  destruct (rmtree os dirpath None w) as [[[] | e' |] w1]; discriminate.
Qed.

(** X4.  A directory that has vanished is no error for the directory steps:
    [_rmdir] never raises an [OSError] with errno [ENOENT], and when the walk
    that follows the bulk deletion shows no file, so that
    [unlink_or_rename_to_trash] has nothing to do, neither does
    [backoff_rmdir]. *)
Theorem backoff_rmdir_tolerates_vanished :
  forall W (os : OS W) max_tries,
    (forall path w e,
       fst (_rmdir os max_tries path w) = Raise e -> errno_of e <> Some ENOENT) /\
    (forall dirpath w e,
       (forall root dirs files,
          In (root, dirs, files)
             (fst (walk os dirpath false
                     (snd (backoff_rmdir_bulk os dirpath (snd (isdir os dirpath w)))))) ->
          files = []) ->
       fst (backoff_rmdir os dirpath max_tries w) = Raise e ->
       errno_of e <> Some ENOENT).
Proof.
  intros W os max_tries. split; [apply _rmdir_raises |].
  intros dirpath w e Hfiles H.
  unfold backoff_rmdir, bind at 1, ask, gather in H.
  destruct (isdir os dirpath w) as [d w1]. simpl snd in Hfiles.
  destruct d; simpl in H; [| discriminate].
  unfold bind at 1 in H.
  pose proof (bulk_never_raises _ os dirpath w1) as Hb.
  destruct (backoff_rmdir_bulk os dirpath w1) as [[[] | e1 |] w2] eqn:Hbulk;
    try discriminate; [| exfalso; apply (Hb e1); reflexivity].
  simpl snd in Hfiles. unfold bind at 1 in H.
  destruct (backoff_rmdir_walk os dirpath max_tries w2) as [[[] | e2 |] w3] eqn:Hwalk;
    try discriminate.
  - apply (_rmdir_raises _ os max_tries dirpath w3 e H).
  - injection H as <-.
    unfold backoff_rmdir_walk, bind at 1, gather in Hwalk.
    destruct (walk os dirpath false w2) as [entries w2'] eqn:Hw. simpl fst in Hfiles.
    assert (Hr : fst (for_ entries
                   (fun '(root, dirs, files) =>
                      for_ files
                        (fun file => unlink_or_rename_to_trash os (join os root file)) ;;
                      for_ dirs (fun dir => _rmdir os max_tries (join os root dir))) w2')
                 = Raise e2) by (rewrite Hwalk; reflexivity).
    destruct (for_raises _ _ _ _ _ _ Hr) as ([[root dirs] files] & u & Hin & Hbody).
    rewrite (Hfiles root dirs files Hin) in Hbody.
    simpl in Hbody. unfold bind, ret in Hbody.
    destruct (for_raises _ _ _ _ _ _ Hbody) as (dir & u' & _ & Hd).
    apply (_rmdir_raises _ os max_tries _ u' e2 Hd).
Qed.

(** In the read-only directory [/ro] the bulk deletion empties [p], the walk
    shows no file, and the final [_rmdir] raises: with [EACCES]. *)
Lemma backoff_rmdir_tolerates_vanished_witness :
  fst (backoff_rmdir posix "/ro/p" 5 w_readonly_parent) = Raise (OSError EACCES) /\
  errno_of (OSError EACCES) <> Some ENOENT.
Proof.
  split; [reflexivity |].
  apply (proj2 (backoff_rmdir_tolerates_vanished world posix 5) "/ro/p" w_readonly_parent).
  - intros root dirs files Hin. vm_compute in Hin.
    destruct Hin as [Hin | []]. injection Hin as _ _ <-. reflexivity.
  - reflexivity.
Defined.

(** X5.  Off Windows, [rmtree] writes the [rsync] command line to standard
    output before it runs it: as soon as [getcwd] returns, whether or not
    [.empty] could be created, [print] is called with the words
    [rsync -a --delete <cwd>/.empty/ <path>/] joined by spaces, right after
    the calls to [makedirs] and [getcwd]. *)
Theorem rmtree_prints_command :
  forall W (os : OS W) path onerror w l c w2,
    on_win os = false ->
    getcwd os (snd (makedirs os ".empty" w)) = (inl c, w2) ->
    exists rest,
      snd (snd (rmtree (recording os) path onerror (w, l)))
      = (l ++ CMakedirs ".empty" :: CGetcwd
           :: CPrint (String.concat " "
                        ["rsync"; "-a"; "--delete";
                         (join os c ".empty" ++ "/")%string; (path ++ "/")%string])
           :: rest)%list.
Proof.
  intros W os path onerror w l c w2 Hwin Hcwd.
  unfold rmtree. change (on_win (recording os)) with (on_win os). rewrite Hwin.
  unfold bind, try_except, call, run, effect, ret. simpl.
  unfold hooked, hooked0, journal. simpl.
  destruct (makedirs os ".empty" w) as [[[] | n] w1]; simpl in Hcwd |- *;
    rewrite Hcwd; simpl;
    destruct (getcwd os (print os _ w2)) as [[c' | n'] w3]; simpl;
    try (eexists; rewrite <- !app_assoc; simpl; reflexivity);
    destruct (check_call os _ w3) as [[[] | e] w4]; simpl;
    try (eexists; rewrite <- !app_assoc; simpl; reflexivity);
    destruct (shutil_rmtree os ".empty" w4) as [[[] | n4] w5]; simpl;
    try (eexists; rewrite <- !app_assoc; simpl; reflexivity);
    destruct (rmdir os path w5) as [[[] | n5] w6]; simpl;
    eexists; rewrite <- !app_assoc; simpl; reflexivity.
Qed.

(** On the sample tree the line reaches standard output, and the directory
    is gone. *)
Lemma rmtree_prints_command_witness :
  exists rest,
    snd (snd (rmtree (recording posix) "/d" None (w_links, [])))
    = CMakedirs ".empty" :: CGetcwd :: CPrint "rsync -a --delete /.empty/ /d/" :: rest.
Proof.
  apply (rmtree_prints_command world posix "/d" None w_links [] "/"
           (snd (makedirs posix ".empty" w_links))); reflexivity.
Defined.

Lemma rmtree_prints_command_example :
  stdout (snd (rmtree posix "/d" None w_links)) = ["rsync -a --delete /.empty/ /d/"] /\
  fst (rmtree posix "/d" None w_links) = Return tt /\
  kind_at ["d"] (fs (snd (rmtree posix "/d" None w_links))) = None /\
  stdout (snd (rm_rf posix 10 "/d" 5 true false w_links))
  = ["rsync -a --delete /.empty/ /d/"; "rsync -a --delete /.empty/ /d/"].
Proof. repeat split; reflexivity. Qed.

(** ** The glob pattern of the sweep *)

Lemma fnmatchcase_literal : forall pat name,
  literal pat = true -> fnmatchcase_pat pat name = String.eqb pat name.
Proof.
  induction pat as [| c pat IH]; intros name Hl.
  - destruct name; reflexivity.
  - simpl in Hl. apply andb_prop in Hl. destruct Hl as [Hl Hp].
    apply andb_prop in Hl. destruct Hl as [Hs Hq].
    apply negb_true_iff in Hs. apply negb_true_iff in Hq.
    simpl. rewrite Hs. destruct name as [| d name]; [reflexivity |].
    rewrite Hq. simpl. rewrite (IH name Hp). reflexivity.
Qed.

Lemma fnmatchcase_star : forall pat name,
  fnmatchcase_pat (String "*" pat) name = true
  <-> exists x y, name = (x ++ y)%string /\ fnmatchcase_pat pat y = true.
Proof.
  intros pat name. simpl.
  induction name as [| d name IH].
  - rewrite orb_false_r. split.
    + intros H. exists EmptyString, EmptyString. split; [reflexivity | exact H].
    + intros (x & y & Hxy & Hy). destruct x; [| discriminate]. simpl in Hxy. subst y. exact Hy.
  - split.
    + intros H. apply orb_prop in H. destruct H as [H | H].
      * exists EmptyString, (String d name). split; [reflexivity | exact H].
      * apply IH in H. destruct H as (x & y & -> & Hy).
        exists (String d x), y. split; [reflexivity | exact Hy].
    + intros (x & y & Hxy & Hy). destruct x as [| c x].
      * simpl in Hxy. subst y. rewrite Hy. reflexivity.
      * simpl in Hxy. injection Hxy as -> ->. apply orb_true_intro. right.
        apply IH. exists x, y. split; [reflexivity | exact Hy].
Qed.

Lemma fnmatch_trash : forall b,
  fnmatch posix b "*.trash" = true <-> exists x, b = (x ++ ".trash")%string.
Proof.
  intros b. unfold fnmatch, fnmatchcase. cbn [normcase posix].
  rewrite fnmatchcase_star. split.
  - intros (x & y & -> & Hy). rewrite fnmatchcase_literal in Hy by reflexivity.
    apply String.eqb_eq in Hy. subst y. exists x. reflexivity.
  - intros (x & ->). exists x, ".trash". split; [reflexivity |].
    rewrite fnmatchcase_literal by reflexivity. reflexivity.
Qed.

(** X6.  What the sweep selects, on a platform whose [normcase] is the
    identity: a basename matches ["*.trash"] exactly when it ends in
    [.trash] (the bare name [.trash] included), so the files [delete_trash]
    asks to unlink are the files of the walk with such a name, joined to their
    root; and the name [unlink_or_rename_to_trash] renames a path to, the path
    followed by [.trash], is a name of the same directory that the sweep
    selects. *)
Theorem delete_trash_selects_by_suffix :
  (forall b, fnmatch posix b "*.trash" = true <-> exists x, b = (x ++ ".trash")%string) /\
  (forall entries s,
     In s (trash_targets posix entries)
     <-> exists root dirs files x,
           In (root, dirs, files) entries /\ In (x ++ ".trash")%string files /\
           s = posix_join root (x ++ ".trash")) /\
  (forall cs name,
     forallb valid_name (cs ++ [name]) = true ->
     (render (cs ++ [name]) ++ ".trash")%string = render (cs ++ [(name ++ ".trash")%string]) /\
     forallb valid_name (cs ++ [(name ++ ".trash")%string]) = true /\
     fnmatch posix (name ++ ".trash") "*.trash" = true).
Proof.
  split; [exact fnmatch_trash |]. split.
  - intros entries s. unfold trash_targets. rewrite in_flat_map. split.
    + intros ([[root dirs] files] & Hin & Hs).
      apply in_map_iff in Hs. destruct Hs as (b & <- & Hb).
      apply filter_In in Hb. destruct Hb as [Hb Hm].
      apply fnmatch_trash in Hm. destruct Hm as (x & ->).
      exists root, dirs, files, x. repeat split; assumption.
    + intros (root & dirs & files & x & Hin & Hf & ->).
      exists (root, dirs, files). split; [exact Hin |].
      apply in_map_iff. exists (x ++ ".trash")%string. split; [reflexivity |].
      apply filter_In. split; [exact Hf |]. apply fnmatch_trash. exists x. reflexivity.
  - intros cs name Hv. split; [apply render_trash |].
    apply forallb_snoc in Hv. destruct Hv as [H1 H2]. split.
    + rewrite forallb_app, H1. simpl. rewrite valid_name_trash by exact H2. reflexivity.
    + apply fnmatch_trash. exists name. reflexivity.
Qed.

Lemma delete_trash_selects_by_suffix_witness :
  (render (["env"] ++ ["a"]) ++ ".trash")%string = render (["env"] ++ ["a.trash"]) /\
  forallb valid_name (["env"] ++ ["a.trash"]) = true /\
  fnmatch posix "a.trash" "*.trash" = true.
Proof.
  apply (proj2 (proj2 delete_trash_selects_by_suffix) ["env"] "a"). reflexivity.
Defined.



(** ** Paths as they are spelled *)

Lemma split_slash_pieces : forall s,
  forallb (fun c => negb (has_slash c)) (split_slash s) = true.
Proof.
  induction s as [| c s IH]; simpl; [reflexivity |].
  destruct (is_slash c) eqn:Hc; simpl; [exact IH |].
  destruct (split_slash s) as [| h t]; simpl in *; rewrite Hc; simpl; [reflexivity |].
  exact IH.
Qed.

Lemma last_is_valid : forall acc,
  forallb valid_name acc = true -> last_is acc ".." = false.
Proof.
  intros acc H. unfold last_is. destruct (rev acc) as [| x l] eqn:Hr; [reflexivity |].
  assert (Hin : In x acc) by (apply in_rev; rewrite Hr; left; reflexivity).
  rewrite forallb_forall in H. specialize (H x Hin).
  destruct (valid_name_inv _ H) as (_ & _ & _ & H4).
  apply String.eqb_neq. exact H4.
Qed.

(** On an absolute path the component loop of [normpath] is the resolution
    of the components, and it keeps the names valid. *)
Lemma normpath_step_comps : forall acc c,
  forallb valid_name acc = true ->
  normpath_step true acc c = comps_step acc c.
Proof.
  intros acc c H. unfold normpath_step, comps_step.
  destruct (String.eqb c "" || String.eqb c "."); [reflexivity |].
  rewrite (last_is_valid _ H). simpl.
  destruct (String.eqb c ".."); reflexivity.
Qed.

Lemma comps_step_keeps_valid : forall acc c,
  forallb valid_name acc = true -> has_slash c = false ->
  forallb valid_name (comps_step acc c) = true.
Proof.
  intros acc c H Hs. unfold comps_step.
  destruct (String.eqb c "") eqn:H1; [exact H |].
  destruct (String.eqb c ".") eqn:H2; [exact H |]. simpl.
  destruct (String.eqb c "..") eqn:H3; [apply forallb_removelast; exact H |].
  rewrite forallb_app, H. simpl. unfold valid_name.
  rewrite Hs, H2, H3. destruct c; [discriminate | reflexivity].
Qed.

Lemma fold_comps_keeps_valid : forall l acc,
  forallb valid_name acc = true ->
  forallb (fun c => negb (has_slash c)) l = true ->
  forallb valid_name (fold_left comps_step l acc) = true /\
  fold_left (normpath_step true) l acc = fold_left comps_step l acc.
Proof.
  induction l as [| c l IH]; intros acc H Hl; simpl in *; [split; [exact H | reflexivity] |].
  apply andb_prop in Hl. destruct Hl as [Hc Hl]. apply negb_true_iff in Hc.
  rewrite (normpath_step_comps _ c H).
  apply IH; [apply comps_step_keeps_valid; assumption | exact Hl].
Qed.

Lemma slash_concat_render : forall cs, ("/" ++ String.concat "/" cs)%string = render cs.
Proof. intros [| c cs]; [reflexivity | apply concat_slash_render]. Qed.

Lemma initial_slashes_abs : forall s,
  posix_isabs s = true -> initial_slashes s = "/" \/ initial_slashes s = "//".
Proof.
  intros [| a [| b [| c s]]] H; simpl in *; try discriminate; rewrite H.
  - left; reflexivity.
  - destruct (is_slash b); [right | left]; reflexivity.
  - destruct (is_slash b && negb (is_slash c)); [right | left]; reflexivity.
Qed.

(** [normpath] of an absolute path: the rendering of the components the
    path resolves to, with one more slash in front when the path starts with
    exactly two. *)
Lemma normpath_abs : forall s cwd,
  posix_isabs s = true ->
  exists cs,
    forallb valid_name cs = true /\
    path_comps cwd s = Some cs /\
    (posix_normpath s = render cs \/ posix_normpath s = ("/" ++ render cs)%string).
Proof.
  intros s cwd Habs.
  destruct (fold_comps_keeps_valid (split_slash s) [] eq_refl (split_slash_pieces s))
    as [Hv Hf].
  exists (fold_left comps_step (split_slash s) []).
  split; [exact Hv |].
  assert (Hne : is_empty s = false) by (destruct s; [discriminate | reflexivity]).
  split; [unfold path_comps; rewrite Hne, Habs; reflexivity |].
  unfold posix_normpath. rewrite Hne.
  destruct (initial_slashes_abs s Habs) as [Hi | Hi]; rewrite Hi; simpl negb;
    rewrite Hf.
  - left. change ("/" ++ String.concat "/" (fold_left comps_step (split_slash s) []))%string
      with (String "/" (String.concat "/" (fold_left comps_step (split_slash s) []))).
    simpl is_empty. cbv iota. apply slash_concat_render.
  - right. change ("//" ++ String.concat "/" (fold_left comps_step (split_slash s) []))%string
      with (String "/" ("/" ++ String.concat "/" (fold_left comps_step (split_slash s) []))).
    simpl is_empty. cbv iota. rewrite slash_concat_render. reflexivity.
Qed.

Lemma isabs_render : forall cs, posix_isabs (render cs) = true.
Proof. intros [| c cs]; reflexivity. Qed.

Lemma render_nonempty : forall cs, render cs <> "".
Proof. intros [| c cs]; discriminate. Qed.

Lemma isabs_join_render : forall cs p, posix_isabs (posix_join (render cs) p) = true.
Proof.
  intros cs p. unfold posix_join. destruct (posix_isabs p) eqn:Hp; [exact Hp |].
  destruct (is_empty (render cs) || ends_with_slash (render cs));
    rewrite isabs_app by apply render_nonempty; apply isabs_render.
Qed.

(** The path with two leading slashes is its own [normpath] as well. *)
Lemma normpath_slash_render : forall cs,
  forallb valid_name cs = true ->
  posix_normpath ("/" ++ render cs) = ("/" ++ render cs)%string.
Proof.
  intros cs H. destruct cs as [| c cs']; [reflexivity |].
  assert (Hc : valid_name c = true) by (simpl in H; apply andb_prop in H; tauto).
  destruct (valid_name_inv _ Hc) as (Hn & Hs & _).
  unfold render, posix_normpath.
  assert (Hi : initial_slashes ("/" ++ render_rel (c :: cs')) = "//").
  { destruct c as [| x c0]; [contradiction Hn; reflexivity |].
    simpl in Hs. apply orb_false_iff in Hs. destruct Hs as [Hx _].
    simpl. rewrite Hx. reflexivity. }
  rewrite Hi.
  change (split_slash ("/" ++ render_rel (c :: cs')))
    with ("" :: split_slash (render_rel (c :: cs'))).
  rewrite (split_slash_render_rel _ H).
  simpl is_empty at 1. cbv iota. simpl is_empty at 1. simpl negb.
  change (fold_left (normpath_step true) ("" :: "" :: c :: cs') [])
    with (fold_left (normpath_step true) (c :: cs') []).
  rewrite fold_normpath_step_valid by exact H. simpl app.
  change ("//" ++ String.concat "/" (c :: cs'))%string
    with ("/" ++ ("/" ++ String.concat "/" (c :: cs')))%string.
  rewrite concat_slash_render. reflexivity.
Qed.

Lemma posix_abspath_normal : forall p w q w',
  posix_abspath p w = (inl q, w') ->
  w' = w /\ posix_abspath q w = (inl q, w) /\
  exists cs, forallb valid_name cs = true /\
             path_comps (cwd w) q = Some cs /\
             (q = render cs \/ q = ("/" ++ render cs)%string).
Proof.
  intros p w q w' H. unfold posix_abspath in H.
  assert (Hgen : forall s, posix_isabs s = true -> q = posix_normpath s ->
            posix_abspath q w = (inl q, w) /\
            exists cs, forallb valid_name cs = true /\
                       path_comps (cwd w) q = Some cs /\
                       (q = render cs \/ q = ("/" ++ render cs)%string)).
  { intros s Hs ->. destruct (normpath_abs s (cwd w) Hs) as (cs & Hv & _ & [Hq | Hq]);
      rewrite Hq.
    - split; [apply abspath_render; exact Hv |].
      exists cs. split; [exact Hv |]. split; [apply path_comps_render; exact Hv |].
      left. reflexivity.
    - split.
      + unfold posix_abspath. simpl posix_isabs. cbv iota.
        rewrite (normpath_slash_render _ Hv). reflexivity.
      + exists cs. split; [exact Hv |]. split; [| right; reflexivity].
        destruct (normpath_abs ("/" ++ render cs) (cwd w) eq_refl)
          as (cs' & Hv' & Hp' & Hn').
        rewrite Hp'. f_equal.
        rewrite (normpath_slash_render _ Hv) in Hn'.
        destruct Hn' as [Hn' | Hn'].
        * exfalso. destruct cs as [| c cs]; destruct cs' as [| c' cs'];
            simpl in Hn'; try discriminate.
          simpl in Hv'. apply andb_prop in Hv'. destruct Hv' as [Hc' _].
          destruct (valid_name_inv _ Hc') as (Hne & Hsl & _).
          destruct c' as [| x c0]; [contradiction Hne; reflexivity |].
          simpl in Hn'. injection Hn' as Hx _. subst x. discriminate.
        * injection Hn' as Hn'.
          assert (Hpc : path_comps [] (render cs) = path_comps [] (render cs'))
            by (rewrite Hn'; reflexivity).
          rewrite !path_comps_render in Hpc by assumption.
          injection Hpc as ->. reflexivity. }
  destruct (posix_isabs p) eqn:Hp.
  - injection H as <- <-. split; [reflexivity |]. apply (Hgen p Hp eq_refl).
  - unfold posix_getcwd in H.
    destruct (lookup (cwd w) (fs w)) as [[fw d | tg | dw es] |]; try discriminate.
    injection H as <- <-. split; [reflexivity |].
    apply (Hgen _ (isabs_join_render (cwd w) p) eq_refl).
Qed.

Lemma rm_rf_abspath_raises : forall W (os : OS W) fuel path max_retries trash clean w n w1,
  abspath os path w = (inr n, w1) ->
  rm_rf os fuel path max_retries trash clean w
  = match lexists os path w1 with
    | (inl true, w2) => (Return false, w2)
    | (inl false, w2) => (Raise (OSError n), w2)
    | (inr e, w2) => (Raise e, w2)
    end.
Proof.
  intros W os fuel path max_retries trash clean w n w1 H.
  unfold rm_rf, rm_rf_try, call. rewrite H. reflexivity.
Qed.

(** X8.  [rm_rf] works on the absolute, normalized spelling of its argument.
    On the POSIX file system, whenever [abspath] returns, it returns a fixed
    point of itself that renders a list of valid names (after a second
    leading slash when the path began with exactly two), it changes nothing,
    and [rm_rf] of the path as given is [rm_rf] of that spelling.  On every
    platform, when [abspath] raises nothing is attempted, and the re-check
    looks at the path as given: present, [rm_rf] returns [False]; absent, the
    error of [abspath] is raised. *)
Theorem rm_rf_normalizes :
  (forall w p q w' fuel max_retries trash clean,
     abspath posix p w = (inl q, w') ->
     w' = w /\ abspath posix q w = (inl q, w) /\
     (exists cs, forallb valid_name cs = true /\
                 path_comps (cwd w) q = Some cs /\
                 (q = render cs \/ q = ("/" ++ render cs)%string)) /\
     rm_rf posix fuel p max_retries trash clean w
     = rm_rf posix fuel q max_retries trash clean w) /\
  (forall W (os : OS W) fuel path max_retries trash clean w n w1,
     abspath os path w = (inr n, w1) ->
     rm_rf os fuel path max_retries trash clean w
     = match lexists os path w1 with
       | (inl true, w2) => (Return false, w2)
       | (inl false, w2) => (Raise (OSError n), w2)
       | (inr e, w2) => (Raise e, w2)
       end).
Proof.
  split; [| exact rm_rf_abspath_raises].
  intros w p q w' fuel max_retries trash clean H. cbn [abspath posix] in *.
  destruct (posix_abspath_normal p w q w' H) as (-> & Hq & Hcs).
  split; [reflexivity |]. split; [exact Hq |]. split; [exact Hcs |].
  unfold rm_rf.
  rewrite (rm_rf_try_abspath _ posix p w q w H).
  rewrite (rm_rf_try_abspath _ posix q w q w Hq). reflexivity.
Qed.

(** A path spelled with a doubled slash, a dot and a step back; and, with the
    working directory gone, a relative path to a file that is there. *)
Lemma rm_rf_normalizes_witness :
  rm_rf posix 10 "/a//b/./c/../c/target" 5 true false w_nested
  = rm_rf posix 10 "/a/b/c/target" 5 true false w_nested /\
  rm_rf posix 10 "../f" 5 true false w_lost_cwd = (Return false, w_lost_cwd).
Proof.
  split.
  - apply (proj1 rm_rf_normalizes w_nested "/a//b/./c/../c/target" "/a/b/c/target" w_nested).
    reflexivity.
  - apply (proj2 rm_rf_normalizes world posix 10 "../f" 5 true false w_lost_cwd ENOENT
             w_lost_cwd).
    reflexivity.
Defined.

(** ** The fall-back on Windows *)

(** X9.  On Windows, when [unlink] raises an [OSError],
    [unlink_or_rename_to_trash] ends as the launch of
    [cmd.exe /C <conda_prefix>/condabin/rename_trash.bat <dirname> <basename>]
    ends, the two halves being those of [split(path)]: when the launch
    returns the call returns, whatever the script did, and [rename] is never
    called.  The calls made are [make_writable], [unlink] and the launch. *)
Theorem unlink_or_rename_to_trash_on_windows :
  forall W (os : OS W) path w w1 w2 n l,
    on_win os = true ->
    make_writable os path w = (inl tt, w1) ->
    unlink os path w1 = (inr n, w2) ->
    let script := join os (join os (conda_prefix os) "condabin") "rename_trash.bat" in
    let args := ["cmd.exe"; "/C"; script; fst (split os path); snd (split os path)] in
    unlink_or_rename_to_trash os path w = run (popen_communicate os args) w2 /\
    snd (snd (unlink_or_rename_to_trash (recording os) path (w, l)))
    = (l ++ [CMakeWritable path; CUnlink path; CPopen args])%list.
Proof.
  intros W os path w w1 w2 n l Hwin Hmw Hun. cbv zeta. split.
  - unfold unlink_or_rename_to_trash, try_except, bind, run.
    rewrite Hmw. unfold call. rewrite Hun, Hwin.
    destruct (split os path) as [d f]. reflexivity.
  - unfold unlink_or_rename_to_trash, try_except, bind, run, call.
    change (on_win (recording os)) with (on_win os). rewrite Hwin. simpl.
    unfold hooked, journal. simpl. rewrite Hmw. simpl. rewrite Hun. simpl.
    destruct (split os path) as [d f]. simpl.
    destruct (popen_communicate os _ w2) as [[[] | e] w3]; simpl;
      rewrite <- !app_assoc; reflexivity.
Qed.

Lemma unlink_or_rename_to_trash_on_windows_witness :
  unlink_or_rename_to_trash held_open "/d/f" w_links = (Return tt, w_links) /\
  snd (snd (unlink_or_rename_to_trash (recording held_open) "/d/f" (w_links, [])))
  = [CMakeWritable "/d/f"; CUnlink "/d/f";
     CPopen ["cmd.exe"; "/C"; "/opt/conda/condabin/rename_trash.bat"; "/d"; "f"]].
Proof.
  apply (unlink_or_rename_to_trash_on_windows world held_open "/d/f" w_links
           (snd (make_writable held_open "/d/f" w_links))
           (snd (make_writable held_open "/d/f" w_links)) EACCES []);
    reflexivity.
Defined.

(** ** The calls that are never made *)

Section Envelope.
Variable W : Type.
Variable os : OS W.
Variable P : oscall -> bool.

Lemma keeps_ret : forall A (a : A), keeps P (ret (W := W * list oscall) a).
Proof. intros A a w l H. exact H. Qed.

Lemma keeps_raise : forall A e, keeps P (raise (W := W * list oscall) (A := A) e).
Proof. intros A e w l H. exact H. Qed.

Lemma keeps_bind : forall A B (m : M (W * list oscall) A) (k : A -> M (W * list oscall) B),
  keeps P m -> (forall a, keeps P (k a)) -> keeps P (bind m k).
Proof.
  intros A B m k Hm Hk w l H. unfold bind. specialize (Hm w l H).
  destruct (m (w, l)) as [[a | e |] [w1 l1]]; simpl in Hm; try exact Hm.
  apply Hk. exact Hm.
Qed.

Lemma keeps_try_except : forall A (body : M (W * list oscall) A) handler,
  keeps P body -> (forall e, keeps P (handler e)) -> keeps P (try_except body handler).
Proof.
  intros A body handler Hb Hh w l H. unfold try_except. specialize (Hb w l H).
  destruct (body (w, l)) as [[a | e |] [w1 l1]]; simpl in Hb; try exact Hb.
  apply Hh. exact Hb.
Qed.

Lemma keeps_for : forall A (xs : list A) (body : A -> M (W * list oscall) unit),
  (forall x, keeps P (body x)) -> keeps P (for_ xs body).
Proof.
  intros A xs body Hb. induction xs as [| x xs IH]; simpl.
  - apply keeps_ret.
  - apply keeps_bind; [apply Hb | intros _; exact IH].
Qed.

Lemma forallb_journal : forall l c,
  forallb P l = true -> P c = true -> forallb P (l ++ [c]) = true.
Proof. intros l c Hl Hc. rewrite forallb_app, Hl. simpl. rewrite Hc. reflexivity. Qed.

Lemma keeps_gather : forall A c (f : W -> A * W),
  P c = true -> keeps P (gather (hooked journal c f)).
Proof.
  intros A c f Hc w l H. unfold gather, hooked, journal. simpl.
  destruct (f w) as [a w1]. simpl. apply forallb_journal; assumption.
Qed.

Lemma keeps_call : forall A c (f : syscall W A),
  P c = true -> keeps P (call (hooked journal c f)).
Proof.
  intros A c f Hc w l H. unfold call, hooked, journal. simpl.
  destruct (f w) as [[a | n] w1]; simpl; apply forallb_journal; assumption.
Qed.

Lemma keeps_run : forall A c (f : prim W A),
  P c = true -> keeps P (run (hooked journal c f)).
Proof.
  intros A c f Hc w l H. unfold run, hooked, journal. simpl.
  destruct (f w) as [[a | n] w1]; simpl; apply forallb_journal; assumption.
Qed.

Lemma keeps_effect : forall c (f : W -> W),
  P c = true -> keeps P (effect (hooked0 journal c f)).
Proof.
  intros c f Hc w l H. unfold effect, hooked0, journal. simpl.
  apply forallb_journal; assumption.
Qed.
End Envelope.

Section Permitted.
Variable W : Type.
Variable os : OS W.

Lemma rmtree_permitted : forall path onerror,
  keeps (permitted (on_win os)) (rmtree (recording os) path onerror).
Proof.
  intros path onerror. unfold rmtree.
  change (on_win (recording os)) with (on_win os).
  destruct (on_win os) eqn:Hwin.
  - apply keeps_bind; [| intros _; apply keeps_call; reflexivity].
    apply keeps_run. reflexivity.
  - apply keeps_bind; [| intros _; apply keeps_call; reflexivity].
    apply keeps_bind.
    { apply keeps_try_except; [| intros e; apply keeps_ret].
      apply keeps_call. reflexivity. }
    intros _. apply keeps_bind;
      [apply keeps_call; reflexivity |].
    intros c. apply keeps_bind;
      [apply keeps_effect; reflexivity |].
    intros _. apply keeps_bind;
      [apply keeps_call; reflexivity |].
    intros c'. apply keeps_bind;
      [apply keeps_run;
       reflexivity |].
    intros _.
    apply keeps_call. reflexivity.
Qed.

Lemma unlink_or_rename_to_trash_permitted : forall path,
  keeps (permitted (on_win os)) (unlink_or_rename_to_trash (recording os) path).
Proof.
  intros path. unfold unlink_or_rename_to_trash.
  change (on_win (recording os)) with (on_win os).
  apply keeps_try_except.
  - apply keeps_bind; [apply keeps_run; reflexivity | intros _; apply keeps_call; reflexivity].
  - intros [n | rc | nm]; try apply keeps_raise.
    destruct (on_win os) eqn:Hwin.
    + cbv zeta. change (split (recording os) path) with (split os path).
      destruct (split os path) as [d f].
      apply keeps_run. reflexivity.
    + apply keeps_call.
      simpl. apply String.eqb_refl.
Qed.

Lemma remove_empty_parent_paths_permitted : forall fuel path,
  keeps (permitted (on_win os)) (remove_empty_parent_paths_loop (recording os) fuel path).
Proof.
  induction fuel as [| fuel IH]; intros path; simpl.
  - intros w l H. exact H.
  - apply keeps_bind; [apply keeps_gather; reflexivity |].
    intros [|]; [| apply keeps_ret].
    apply keeps_bind; [apply keeps_call; reflexivity |].
    intros [| x names]; [| apply keeps_ret].
    apply keeps_bind; [apply keeps_call; reflexivity | intros _; apply IH].
Qed.

Lemma exp_backoff_loop_permitted : forall A (fn : M (W * list oscall) A) remaining attempt,
  keeps (permitted (on_win os)) fn ->
  keeps (permitted (on_win os)) (exp_backoff_loop (recording os) fn attempt remaining).
Proof.
  intros A fn remaining. induction remaining as [| r IH]; intros attempt Hfn; simpl.
  - exact Hfn.
  - apply keeps_try_except; [exact Hfn |].
    intros e. change (transient (recording os) e) with (transient os e).
    destruct (transient os e); [| apply keeps_raise].
    apply keeps_bind; [apply keeps_effect; reflexivity | intros _; apply IH; exact Hfn].
Qed.

Lemma _rmdir_permitted : forall max_tries path,
  keeps (permitted (on_win os)) (_rmdir (recording os) max_tries path).
Proof.
  intros max_tries path. unfold _rmdir. apply keeps_try_except.
  - apply keeps_bind; [apply keeps_run; reflexivity |].
    intros _. unfold exp_backoff_fn. apply exp_backoff_loop_permitted.
    apply rmtree_permitted.
  - intros [n | rc | nm]; try apply keeps_raise.
    destruct (Z.eqb n ENOENT); [apply keeps_ret | apply keeps_raise].
Qed.

Lemma backoff_rmdir_permitted : forall dirpath max_tries,
  keeps (permitted (on_win os)) (backoff_rmdir (recording os) dirpath max_tries).
Proof.
  intros dirpath max_tries. unfold backoff_rmdir.
  apply keeps_bind; [apply keeps_gather; reflexivity |].
  intros [|]; simpl; [| apply keeps_ret].
  apply keeps_bind.
  { unfold backoff_rmdir_bulk. apply keeps_try_except;
      [apply rmtree_permitted | intros e; apply keeps_ret]. }
  intros _. apply keeps_bind; [| intros _; apply _rmdir_permitted].
  unfold backoff_rmdir_walk. apply keeps_bind; [apply keeps_gather; reflexivity |].
  intros entries. apply keeps_for. intros [[root dirs] files].
  apply keeps_bind.
  - apply keeps_for. intros file. apply unlink_or_rename_to_trash_permitted.
  - intros _. apply keeps_for. intros dir. apply _rmdir_permitted.
Qed.

Lemma rm_rf_classify_permitted : forall path,
  keeps (permitted (on_win os)) (rm_rf_classify (recording os) path).
Proof.
  intros path. unfold rm_rf_classify.
  apply keeps_bind; [apply keeps_gather; reflexivity |].
  intros d. apply keeps_bind.
  { destruct d; [| apply keeps_ret].
    apply keeps_bind; [apply keeps_run; reflexivity | intros b; apply keeps_ret]. }
  intros [|]; [apply backoff_rmdir_permitted |].
  apply keeps_bind; [apply keeps_run; reflexivity |].
  intros [|]; [apply unlink_or_rename_to_trash_permitted | apply keeps_ret].
Qed.

Lemma rm_rf_permitted : forall fuel path max_retries trash clean,
  keeps (permitted (on_win os)) (rm_rf (recording os) fuel path max_retries trash clean).
Proof.
  intros fuel path max_retries trash clean w l H.
  unfold rm_rf, rm_rf_try.
  pose proof (keeps_call W (permitted (on_win os)) _ (CAbspath path) (abspath os path)
                eq_refl w l H) as Ha.
  change (abspath (recording os) path) with (hooked journal (CAbspath path) (abspath os path)).
  destruct (call (hooked journal (CAbspath path) (abspath os path)) (w, l))
    as [[p | e |] [w1 l1]]; simpl in Ha; [| | exact Ha].
  - pose proof (rm_rf_classify_permitted p w1 l1 Ha) as Hc.
    destruct (rm_rf_classify (recording os) p (w1, l1)) as [r [w2 l2]]. simpl in Hc.
    assert (Hl : forallb (permitted (on_win os))
                   (snd (snd (lexists (recording os) p (w2, l2)))) = true).
    { simpl. unfold hooked, journal. simpl. destruct (lexists os p w2) as [x w3]. simpl.
      apply forallb_journal; [exact Hc | reflexivity]. }
    destruct r as [[] | e |]; [| | exact Hc];
      destruct (lexists (recording os) p (w2, l2)) as [[[|] | e'] [w3 l3]];
      simpl in Hl; try exact Hl.
    destruct clean; [| exact Hl].
    apply (keeps_bind W (permitted (on_win os)) _ _
             (remove_empty_parent_paths (recording os) fuel p) (fun _ => ret true));
      [| intros _; apply keeps_ret | exact Hl].
    unfold remove_empty_parent_paths. apply remove_empty_parent_paths_permitted.
  - assert (Hl : forallb (permitted (on_win os))
                   (snd (snd (lexists (recording os) path (w1, l1)))) = true).
    { simpl. unfold hooked, journal. simpl. destruct (lexists os path w1) as [x w3]. simpl.
      apply forallb_journal; [exact Ha | reflexivity]. }
    destruct (lexists (recording os) path (w1, l1)) as [[[|] | e'] [w3 l3]];
      simpl in Hl; exact Hl.
Qed.
End Permitted.

(** X10.  What the deletion functions never do, on any platform and whatever
    the calls answer: every call that [rm_rf], [backoff_rmdir] and
    [unlink_or_rename_to_trash] make is a permitted one.  In particular
    [recursive_make_writable] is never called with a retry budget, so the
    closure [retry] handed to [rmtree] as [onerror] never runs;
    [shutil.rmtree] and [makedirs] only ever see [.empty]; a rename is always
    that of a path to the path followed by [.trash], and never on Windows; and
    the helper script is launched on Windows only. *)
Theorem deletion_calls_are_permitted :
  forall W (os : OS W) w,
    (forall fuel path max_retries trash clean,
       forallb (permitted (on_win os))
         (snd (snd (rm_rf (recording os) fuel path max_retries trash clean (w, []))))
       = true) /\
    (forall dirpath max_tries,
       forallb (permitted (on_win os))
         (snd (snd (backoff_rmdir (recording os) dirpath max_tries (w, [])))) = true) /\
    (forall path,
       forallb (permitted (on_win os))
         (snd (snd (unlink_or_rename_to_trash (recording os) path (w, [])))) = true).
Proof.
  intros W os w. split; [| split].
  - intros fuel path max_retries trash clean.
    apply (rm_rf_permitted W os fuel path max_retries trash clean w []). reflexivity.
  - intros dirpath max_tries.
    apply (backoff_rmdir_permitted W os dirpath max_tries w []). reflexivity.
  - intros path. apply (unlink_or_rename_to_trash_permitted W os path w []). reflexivity.
Qed.

(** The directory that defeats the bulk deletion is the occasion on which
    [retry] would be of use; the calls show it is not made. *)
Lemma deletion_calls_example :
  snd (snd (rm_rf (recording posix) 10 "/ro/p" 5 true false (w_readonly_parent, [])))
  <> [] /\
  existsb (fun c => match c with CRecursiveMakeWritable _ (Some _) => true | _ => false end)
    (snd (snd (rm_rf (recording posix) 10 "/ro/p" 5 true false (w_readonly_parent, []))))
  = false.
Proof. split; [vm_compute; discriminate | vm_compute; reflexivity]. Qed.

(** ** Removing a directory tree *)

Lemma is_prefix_inv : forall p q, is_prefix p q = true -> exists r, q = (p ++ r)%list.
Proof.
  induction p as [| a p IH]; intros q H; simpl in H.
  - exists q. reflexivity.
  - destruct q as [| b q]; [discriminate |].
    apply andb_prop in H. destruct H as [Hab H]. apply String.eqb_eq in Hab. subst b.
    destruct (IH q H) as (r & ->). exists r. reflexivity.
Qed.

Lemma is_prefix_snoc_self : forall (c : list string) x, is_prefix (c ++ [x]) c = false.
Proof.
  intros c x. destruct (is_prefix (c ++ [x]) c) eqn:H; [| reflexivity].
  apply is_prefix_inv in H. destruct H as (r & Hr).
  apply (f_equal (@List.length string)) in Hr. rewrite !length_app in Hr. simpl in Hr. lia.
Qed.

(** A prefix of [l ++ [x]] is a prefix of [l], or all of it. *)
Lemma is_prefix_snoc : forall p l (x : string),
  is_prefix p (l ++ [x]) = true -> is_prefix p l = true \/ p = (l ++ [x])%list.
Proof.
  intros p l x H. apply is_prefix_inv in H. destruct H as (r & Hr).
  destruct r as [| y r] using rev_ind.
  - right. rewrite app_nil_r in Hr. symmetry. exact Hr.
  - left. rewrite app_assoc in Hr. apply app_inj_tail in Hr. destruct Hr as [-> _].
    apply is_prefix_app.
Qed.

Lemma lookup_prefix : forall p r t m,
  lookup (p ++ r) t = Some m -> exists m', lookup p t = Some m'.
Proof.
  intros p r t m H. rewrite lookup_app in H.
  destruct (lookup p t) as [m' |]; [eauto | discriminate].
Qed.

Lemma lookup_below_none : forall p q t,
  lookup p t = None -> is_prefix p q = true -> lookup q t = None.
Proof.
  intros p q t H Hp. apply is_prefix_inv in Hp. destruct Hp as (r & ->).
  rewrite lookup_app, H. reflexivity.
Qed.

(** Outside the subtree at [p], [lstat] shows the same before and after a
    change at [p]. *)
Lemma kind_at_alter_outside : forall p q F t,
  is_prefix p q = false -> kind_at q (alter p F t) = kind_at q t.
Proof.
  intros p q F t H. unfold kind_at.
  destruct (paths_compare p q) as [[r ->] | [[c [r ->]] | Hap]].
  - rewrite is_prefix_app in H. discriminate.
  - rewrite lookup_alter_above. destruct (lookup q t) as [m |]; [| reflexivity].
    cbn [option_map]. rewrite kind_of_alter_cons. reflexivity.
  - rewrite (lookup_alter_apart _ _ _ _ Hap). reflexivity.
Qed.

Lemma lookup_alter_off : forall p q F t,
  is_prefix p q = false -> is_prefix q p = false ->
  lookup q (alter p F t) = lookup q t.
Proof.
  intros p q F t H1 H2.
  destruct (paths_compare p q) as [[r ->] | [[c [r ->]] | Hap]].
  - rewrite is_prefix_app in H1. discriminate.
  - rewrite is_prefix_app in H2. discriminate.
  - apply lookup_alter_apart. exact Hap.
Qed.

Section OnlyEntry.
Variables (d : list string) (n : string) (F : node -> node).
Hypothesis HF : only_entry n F.

Lemma kind_at_entry_outside : forall q t,
  is_prefix (d ++ [n]) q = false -> kind_at q (alter d F t) = kind_at q t.
Proof.
  intros q t H. destruct HF as [Hk Hl].
  destruct (is_prefix d q) eqn:Hd; [| apply kind_at_alter_outside; exact Hd].
  apply is_prefix_inv in Hd. destruct Hd as (r & ->).
  unfold kind_at. rewrite lookup_alter_under, lookup_app.
  destruct (lookup d t) as [m |]; [| reflexivity].
  destruct r as [| a r].
  - cbn [lookup option_map]. rewrite Hk. reflexivity.
  - rewrite Hl; [reflexivity |]. intros ->.
    change (d ++ n :: r)%list with (d ++ [n] ++ r)%list in H.
    rewrite app_assoc, is_prefix_app in H. discriminate.
Qed.

Lemma lookup_entry_off : forall q t,
  is_prefix (d ++ [n]) q = false -> is_prefix q d = false ->
  lookup q (alter d F t) = lookup q t.
Proof.
  intros q t H H'. destruct HF as [Hk Hl].
  destruct (is_prefix d q) eqn:Hd; [| apply lookup_alter_off; assumption].
  apply is_prefix_inv in Hd. destruct Hd as (r & ->).
  rewrite lookup_alter_under, lookup_app.
  destruct (lookup d t) as [m |]; [| reflexivity].
  destruct r as [| a r].
  - rewrite app_nil_r in H'. pose proof (is_prefix_app d []) as Hdd.
    rewrite app_nil_r in Hdd. congruence.
  - rewrite Hl; [reflexivity |]. intros ->.
    change (d ++ n :: r)%list with (d ++ [n] ++ r)%list in H.
    rewrite app_assoc, is_prefix_app in H. discriminate.
Qed.
End OnlyEntry.

Lemma assoc_app : forall n (l1 l2 : list (string * node)),
  assoc n (l1 ++ l2) = match assoc n l1 with Some m => Some m | None => assoc n l2 end.
Proof.
  intros n l1 l2. induction l1 as [| [n' m] l1 IH]; simpl; [reflexivity |].
  destruct (String.eqb n' n); [reflexivity | exact IH].
Qed.

Lemma only_entry_put : forall n X, only_entry n (put_entry n X).
Proof.
  intros n X. split.
  - intros [wr x | tg | wr es]; reflexivity.
  - intros [wr x | tg | wr es] a r Ha; try reflexivity.
    simpl. rewrite assoc_app.
    assert (Hne : String.eqb a n = false) by (apply String.eqb_neq; exact Ha).
    rewrite (assoc_remove_name_other _ _ _ Hne). simpl.
    rewrite String.eqb_sym, Hne. destruct (assoc a es); reflexivity.
Qed.

Lemma only_entry_drop : forall n, only_entry n (drop_entry n).
Proof.
  intros n. split.
  - intros [wr x | tg | wr es]; reflexivity.
  - intros [wr x | tg | wr es] a r Ha; try reflexivity.
    simpl. assert (Hne : String.eqb a n = false) by (apply String.eqb_neq; exact Ha).
    rewrite (assoc_remove_name_other _ _ _ Hne). reflexivity.
Qed.

Lemma lookup_put_entry : forall d n X t wr es,
  lookup d t = Some (Dir wr es) ->
  lookup (d ++ [n]) (alter d (put_entry n X) t) = Some X.
Proof.
  intros d n X t wr es H. rewrite lookup_alter_under, H. simpl.
  rewrite assoc_app, assoc_remove_name_same. simpl. rewrite String.eqb_refl. reflexivity.
Qed.

Lemma kind_at_drop_under : forall d n q t,
  is_prefix (d ++ [n]) q = true -> kind_at q (alter d (drop_entry n) t) = None.
Proof.
  intros d n q t H. apply is_prefix_inv in H. destruct H as (r & ->).
  unfold kind_at. rewrite <- app_assoc, lookup_alter_under.
  destruct (lookup d t) as [[wr x | tg | wr es] |]; try reflexivity.
  simpl. rewrite assoc_remove_name_same. reflexivity.
Qed.

Lemma realpath_not_link : forall fuel p t m,
  lookup p t = Some m -> is_link (Some m) = false -> realpath fuel p t = Some p.
Proof.
  intros fuel p t m H Hl. destruct fuel; simpl; rewrite H;
    destruct m as [wr d | tg | wr es]; try reflexivity; discriminate.
Qed.

(** [makedirs] of a new name in an existing directory. *)
Lemma fs_makedirs_leaf : forall rest done n t wr es,
  lookup (done ++ rest) t = Some (Dir wr es) ->
  assoc n es = None ->
  fs_makedirs done (rest ++ [n]) t
  = if wr then (inl tt, alter (done ++ rest) (put_entry n (Dir true [])) t)
    else (inr EACCES, t).
Proof.
  induction rest as [| r rest IH]; intros done n t wr es Hl Ha.
  - rewrite app_nil_r in *. simpl. rewrite Hl, Ha. reflexivity.
  - destruct (lookup_prefix done (r :: rest) t _ Hl) as (m0 & Hm0).
    pose proof Hl as Hl'. rewrite lookup_app, Hm0 in Hl'.
    destruct m0 as [fw fd | tg | wr0 es0]; try discriminate.
    simpl in Hl'. destruct (assoc r es0) as [m1 |] eqn:Hr; [| discriminate].
    simpl. rewrite Hm0, Hr.
    destruct (rest ++ [n])%list as [| x l] eqn:E;
      [destruct rest; discriminate |].
    rewrite <- E.
    replace (done ++ r :: rest)%list with ((done ++ [r]) ++ rest)%list
      by (rewrite <- app_assoc; reflexivity).
    apply (IH (done ++ [r])%list n t wr es); [rewrite <- app_assoc; exact Hl | exact Ha].
Qed.

Lemma fs_rmtree_snoc : forall d n t,
  fs_rmtree (d ++ [n]) t
  = match lookup d t with
    | Some (Dir wr es) =>
        match assoc n es with
        | None => (inr ENOENT, t)
        | Some (Dir w' es') =>
            match fs_rmtree_node wr (Dir w' es') with
            | (None, _) => (inl tt, alter d (drop_entry n) t)
            | (Some m', Some e) => (inr e, alter (d ++ [n]) (fun _ => m') t)
            | (Some m', None) => (inl tt, alter (d ++ [n]) (fun _ => m') t)
            end
        | Some (Link _) => (inr ENOTDIR, t)
        | Some (File _ _) => (inr ENOTDIR, t)
        end
    | Some _ => (inr ENOTDIR, t)
    | None => (inr ENOENT, t)
    end.
Proof.
  intros d n t. unfold fs_rmtree.
  destruct (d ++ [n])%list as [| x l] eqn:E; [destruct d; discriminate |].
  rewrite <- E, removelast_snoc, last_snoc. reflexivity.
Qed.

Lemma path_comps_slash : forall cwd s X,
  path_comps cwd s = Some X -> path_comps cwd (s ++ "/") = Some X.
Proof.
  intros cwd s X H. unfold path_comps in *.
  destruct (is_empty s) eqn:He; [discriminate |]. injection H as <-.
  assert (Hs : s <> "") by (intros ->; discriminate).
  rewrite (is_empty_app _ "/" Hs), (isabs_app _ "/" Hs).
  rewrite split_slash_app_slash, fold_left_app. reflexivity.
Qed.

Lemma path_comps_empty_dir : forall c,
  forallb valid_name c = true ->
  path_comps c ".empty" = Some (c ++ [".empty"])%list /\
  path_comps c (posix_join (render c) ".empty" ++ "/") = Some (c ++ [".empty"])%list.
Proof.
  intros c Hc. split; [reflexivity |].
  apply path_comps_slash. apply path_comps_join; [reflexivity |].
  apply path_comps_render. exact Hc.
Qed.

Lemma posix_check_call_rsync : forall src dst w,
  posix_check_call (Argv ["rsync"; "-a"; "--delete"; src; dst]) w
  = match path_comps (cwd w) src, path_comps (cwd w) dst with
    | Some s, Some d =>
        let '(r, t) := fs_rsync_delete s d (fs w) in
        (match r with
         | inl _ => inl tt
         | inr rc => inr (CalledProcessError rc)
         end, set_fs w t)
    | _, _ => (inr (CalledProcessError 23), w)
    end.
Proof. reflexivity. Qed.

Lemma bind_return : forall W A B (m : M W A) (k : A -> M W B) w a w',
  m w = (Return a, w') -> bind m k w = k a w'.
Proof. intros W A B m k w a w' H. unfold bind. rewrite H. reflexivity. Qed.

(** The [rsync] step: [D] is there and is emptied, or it is missing and is
    created. *)
Lemma rsync_step : forall t1 ds name E,
  lookup E t1 = Some (Dir true []) ->
  kind_at ds t1 = Some (KDir true) ->
  is_prefix (ds ++ [name]) E = false ->
  is_prefix E (ds ++ [name]) = false ->
  is_prefix E ds = false ->
  (lookup (ds ++ [name]) t1 = None \/
   exists dw des, lookup (ds ++ [name]) t1 = Some (Dir dw des)) ->
  exists t2,
    fs_rsync_delete E (ds ++ [name]) t1 = (inl tt, t2) /\
    lookup (ds ++ [name]) t2 = Some (Dir true []) /\
    lookup E t2 = lookup E t1 /\
    (forall q, is_prefix (ds ++ [name]) q = false -> kind_at q t2 = kind_at q t1).
Proof.
  intros t1 ds name E HE Hds P1 P2 P3 HD.
  unfold fs_rsync_delete.
  rewrite (stat_not_link _ E t1) by (rewrite HE; reflexivity). rewrite HE.
  destruct HD as [HD | (dw & des & HD)].
  - rewrite HD, removelast_snoc, last_snoc.
    destruct (kind_dir_lookup _ _ _ Hds) as (es & Hes).
    rewrite Hes.
    exists (alter ds (put_entry name (Dir true [])) t1).
    split; [reflexivity |]. split; [| split].
    + apply (lookup_put_entry ds name _ t1 true es Hes).
    + rewrite <- HE. apply (lookup_entry_off ds name _ (only_entry_put name _)); assumption.
    + intros q Hq. apply (kind_at_entry_outside ds name _ (only_entry_put name _)). exact Hq.
  - rewrite HD, (realpath_not_link _ _ _ _ HD eq_refl), HD.
    exists (alter (ds ++ [name]) (fun _ => Dir true []) t1).
    split; [reflexivity |]. split; [| split].
    + rewrite lookup_alter_same, HD. reflexivity.
    + rewrite <- HE. apply lookup_alter_off; assumption.
    + intros q Hq. apply kind_at_alter_outside. exact Hq.
Qed.

(** [rmtree] on the POSIX file system, from a working directory that is
    writable, holds no [.empty] and lies outside the directory [D]: when [D]
    is missing or is a directory, in a writable directory, [rmtree] returns, nothing is left at or below [D], every other
    path shows what it showed, [.empty] included, and one line is printed. *)
Lemma rmtree_posix_removes : forall w ds name onerror,
  forallb valid_name (ds ++ [name]) = true ->
  forallb valid_name (cwd w) = true ->
  kind_at (cwd w) (fs w) = Some (KDir true) ->
  lookup (cwd w ++ [".empty"]) (fs w) = None ->
  kind_at ds (fs w) = Some (KDir true) ->
  is_prefix (ds ++ [name]) (cwd w) = false ->
  (ds ++ [name])%list <> (cwd w ++ [".empty"])%list ->
  (lookup (ds ++ [name]) (fs w) = None \/
   exists dw des, lookup (ds ++ [name]) (fs w) = Some (Dir dw des)) ->
  exists w',
    rmtree posix (render (ds ++ [name])) onerror w = (Return tt, w') /\
    cwd w' = cwd w /\
    stdout w' = (stdout w ++ [rsync_line (cwd w) (ds ++ [name])])%list /\
    (forall q, is_prefix (ds ++ [name]) q = true -> kind_at q (fs w') = None) /\
    (forall q, is_prefix (ds ++ [name]) q = false -> kind_at q (fs w') = kind_at q (fs w)).
Proof.
  intros w ds name onerror HvD Hvc Hc HE Hds HDc HDE HD.
  destruct w as [t c out]. cbn [fs cwd stdout] in *.
  (* how the paths lie *)
  assert (P1 : is_prefix (ds ++ [name]) (c ++ [".empty"]) = false).
  { destruct (is_prefix (ds ++ [name]) (c ++ [".empty"])) eqn:H; [| reflexivity].
    destruct (is_prefix_snoc _ _ _ H) as [H' | H']; [congruence | contradiction]. }
  assert (Hup : forall p, kind_at p t <> None -> is_prefix (c ++ [".empty"]) p = false).
  { intros p Hp. destruct (is_prefix (c ++ [".empty"]) p) eqn:H; [| reflexivity].
    exfalso. apply Hp. unfold kind_at. rewrite (lookup_below_none _ _ _ HE H). reflexivity. }
  assert (P3 : is_prefix (c ++ [".empty"]) ds = false) by (apply Hup; rewrite Hds; discriminate).
  assert (P2 : is_prefix (c ++ [".empty"]) (ds ++ [name]) = false).
  { destruct (is_prefix (c ++ [".empty"]) (ds ++ [name])) eqn:H; [| reflexivity].
    destruct (is_prefix_snoc _ _ _ H) as [H' | H']; [congruence | ].
    exfalso. apply HDE. symmetry. exact H'. }
  pose proof (is_prefix_snoc_self c ".empty") as P4.
  pose proof (is_prefix_snoc_self ds name) as P5.
  destruct (path_comps_empty_dir c Hvc) as [HpE1 HpE2].
  assert (HpD : path_comps c (render (ds ++ [name])) = Some (ds ++ [name])%list)
    by (apply path_comps_render; exact HvD).
  pose proof (path_comps_slash _ _ _ HpD) as HpD'.
  (* makedirs *)
  destruct (kind_dir_lookup _ _ _ Hc) as (ces & Hces).
  assert (Ha : assoc ".empty" ces = None) by (rewrite lookup_snoc, Hces in HE; exact HE).
  set (t1 := alter c (put_entry ".empty" (Dir true [])) t).
  assert (M1 : fs_makedirs [] (c ++ [".empty"]) t = (inl tt, t1))
    by apply (fs_makedirs_leaf c [] ".empty" t true ces Hces Ha).
  assert (F1a : lookup (c ++ [".empty"]) t1 = Some (Dir true []))
    by apply (lookup_put_entry c ".empty" _ t true ces Hces).
  assert (F1b : forall q, is_prefix (c ++ [".empty"]) q = false -> kind_at q t1 = kind_at q t).
  { intros q Hq. apply (kind_at_entry_outside c ".empty" _ (only_entry_put _ _)). exact Hq. }
  assert (F1c : lookup (ds ++ [name]) t1 = lookup (ds ++ [name]) t).
  { apply (lookup_entry_off c ".empty" _ (only_entry_put _ _)); assumption. }
  assert (Hc1 : exists es1, lookup c t1 = Some (Dir true es1)).
  { apply kind_dir_lookup. rewrite (F1b c P4). exact Hc. }
  destruct Hc1 as (es1 & Hc1).
  (* rsync *)
  destruct (rsync_step t1 ds name (c ++ [".empty"])%list F1a) as (t2 & M2 & F2a & F2b & F2c);
    try assumption.
  { rewrite (F1b ds P3). exact Hds. }
  { rewrite F1c. exact HD. }
  (* shutil.rmtree *)
  assert (Hc2 : exists es2, lookup c t2 = Some (Dir true es2)).
  { apply kind_dir_lookup. rewrite (F2c c HDc), (F1b c P4). exact Hc. }
  destruct Hc2 as (es2 & Hc2).
  set (t3 := alter c (drop_entry ".empty") t2).
  assert (M3 : fs_rmtree (c ++ [".empty"]) t2 = (inl tt, t3)).
  { rewrite fs_rmtree_snoc, Hc2.
    pose proof F1a as F2e. rewrite <- F2b, lookup_snoc, Hc2 in F2e.
    rewrite F2e. reflexivity. }
  assert (F3b : forall q, is_prefix (c ++ [".empty"]) q = false -> kind_at q t3 = kind_at q t2).
  { intros q Hq. apply (kind_at_entry_outside c ".empty" _ (only_entry_drop _)). exact Hq. }
  assert (F3a : lookup (ds ++ [name]) t3 = Some (Dir true [])).
  { rewrite <- F2a. apply (lookup_entry_off c ".empty" _ (only_entry_drop _)); assumption. }
  (* rmdir *)
  assert (Hd3 : exists es3, lookup ds t3 = Some (Dir true es3)).
  { apply kind_dir_lookup. rewrite (F3b ds P3), (F2c ds P5), (F1b ds P3). exact Hds. }
  destruct Hd3 as (es3 & Hd3).
  set (t4 := alter ds (drop_entry name) t3).
  assert (M4 : fs_rmdir (ds ++ [name]) t3 = (inl tt, t4)).
  { rewrite fs_rmdir_snoc, Hd3. rewrite lookup_snoc, Hd3 in F3a. rewrite F3a. reflexivity. }
  (* the run *)
  exists {| fs := t4; cwd := c; stdout := out ++ [rsync_line c (ds ++ [name])] |}.
  split; [| split; [reflexivity | split; [reflexivity | split]]].
  - unfold rmtree. cbn [on_win posix makedirs getcwd print check_call shutil_rmtree rmdir join].
    set (w1 := {| fs := t1; cwd := c; stdout := out |}).
    set (w1p := {| fs := t1; cwd := c; stdout := out ++ [rsync_line c (ds ++ [name])] |}).
    assert (E1 : try_except (call (posix_makedirs ".empty")) (fun _ => ret tt)
                   {| fs := t; cwd := c; stdout := out |} = (Return tt, w1)).
    { unfold try_except, call, posix_makedirs, with_path, fs_call. cbn [fs cwd].
      rewrite HpE1, M1. reflexivity. }
    assert (E2 : forall o, call posix_getcwd {| fs := t1; cwd := c; stdout := o |}
                 = (Return (render c), {| fs := t1; cwd := c; stdout := o |})).
    { intros o. unfold call, posix_getcwd. cbn [fs cwd]. rewrite Hc1. reflexivity. }
    assert (E5 : run (posix_check_call
                        (Argv ["rsync"; "-a"; "--delete";
                               (posix_join (render c) ".empty" ++ "/")%string;
                               (render (ds ++ [name]) ++ "/")%string])) w1p
                 = (Return tt, {| fs := t2; cwd := c;
                                  stdout := out ++ [rsync_line c (ds ++ [name])] |})).
    { unfold run. rewrite posix_check_call_rsync. cbn [fs cwd w1p].
      rewrite HpE2, HpD', M2. reflexivity. }
    assert (E6 : call (posix_shutil_rmtree ".empty")
                   {| fs := t2; cwd := c; stdout := out ++ [rsync_line c (ds ++ [name])] |}
                 = (Return tt, {| fs := t3; cwd := c;
                                  stdout := out ++ [rsync_line c (ds ++ [name])] |})).
    { unfold call, posix_shutil_rmtree, with_path, fs_call. cbn [fs cwd].
      rewrite HpE1, M3. reflexivity. }
    assert (E7 : call (posix_rmdir (render (ds ++ [name])))
                   {| fs := t3; cwd := c; stdout := out ++ [rsync_line c (ds ++ [name])] |}
                 = (Return tt, {| fs := t4; cwd := c;
                                  stdout := out ++ [rsync_line c (ds ++ [name])] |})).
    { unfold call, posix_rmdir, with_path, fs_call. cbn [fs cwd].
      rewrite HpD, M4. reflexivity. }
    erewrite bind_return; [exact E7 |].
    erewrite bind_return; [| exact E1].
    erewrite bind_return; [| apply E2]. cbv zeta.
    erewrite bind_return; [| reflexivity].
    erewrite bind_return; [| apply (E2 (out ++ [rsync_line c (ds ++ [name])])%list)].
    erewrite bind_return; [| exact E5].
    exact E6.
  - intros q Hq. cbn [fs]. apply kind_at_drop_under. exact Hq.
  - intros q Hq. cbn [fs].
    unfold t4. rewrite (kind_at_entry_outside ds name _ (only_entry_drop _) q t3 Hq).
    destruct (is_prefix (c ++ [".empty"]) q) eqn:HEq.
    + unfold t3. rewrite (kind_at_drop_under c ".empty" q t2 HEq).
      unfold kind_at. rewrite (lookup_below_none _ _ _ HE HEq). reflexivity.
    + rewrite (F3b q HEq), (F2c q Hq), (F1b q HEq). reflexivity.
Qed.

Lemma exp_backoff_returns : forall W (os : OS W) A (fn : M W A) max_tries w a w',
  fn w = (Return a, w') -> exp_backoff_fn os fn max_tries w = (Return a, w').
Proof.
  intros W os A fn max_tries w a w' H. unfold exp_backoff_fn.
  destruct (Nat.pred max_tries); simpl; [exact H |].
  unfold try_except. rewrite H. reflexivity.
Qed.

(** [backoff_rmdir] on such a directory: the bulk deletion removes it, the
    walk finds nothing, and the final [_rmdir] creates and removes it once
    more. *)
Lemma backoff_rmdir_posix_removes : forall w ds name dw des,
  forallb valid_name (ds ++ [name]) = true ->
  forallb valid_name (cwd w) = true ->
  kind_at (cwd w) (fs w) = Some (KDir true) ->
  lookup (cwd w ++ [".empty"]) (fs w) = None ->
  is_prefix (ds ++ [name]) (cwd w) = false ->
  kind_at ds (fs w) = Some (KDir true) ->
  lookup (ds ++ [name]) (fs w) = Some (Dir dw des) ->
  exists w',
    (forall max_tries,
       backoff_rmdir posix (render (ds ++ [name])) max_tries w = (Return tt, w')) /\
    (forall q, is_prefix (ds ++ [name]) q = true -> kind_at q (fs w') = None) /\
    (forall q, is_prefix (ds ++ [name]) q = false -> kind_at q (fs w') = kind_at q (fs w)) /\
    cwd w' = cwd w /\
    stdout w'
    = (stdout w ++ [rsync_line (cwd w) (ds ++ [name]); rsync_line (cwd w) (ds ++ [name])])%list.
Proof.
  intros w ds name dw des HvD Hvc Hc HE HDc Hds HD.
  assert (HDE : (ds ++ [name])%list <> (cwd w ++ [".empty"])%list)
    by (intros Heq; rewrite Heq, HE in HD; discriminate).
  assert (P1 : is_prefix (ds ++ [name]) (cwd w ++ [".empty"]) = false).
  { destruct (is_prefix (ds ++ [name]) (cwd w ++ [".empty"])) eqn:H; [| reflexivity].
    destruct (is_prefix_snoc _ _ _ H) as [H' | H']; [congruence | contradiction]. }
  pose proof (is_prefix_snoc_self ds name) as P5.
  assert (HpD : forall u, path_comps (cwd u) (render (ds ++ [name])) = Some (ds ++ [name])%list)
    by (intros u; apply path_comps_render; exact HvD).
  (* the bulk deletion *)
  destruct (rmtree_posix_removes w ds name None HvD Hvc Hc HE Hds HDc HDE)
    as (w1 & R1 & C1 & O1 & G1 & K1).
  { right. exists dw, des. exact HD. }
  assert (HD1 : lookup (ds ++ [name]) (fs w1) = None).
  { apply kind_none_lookup. apply G1. pose proof (is_prefix_app (ds ++ [name]) []) as H.
    rewrite app_nil_r in H. exact H. }
  (* the final [_rmdir] *)
  destruct (rmtree_posix_removes w1 ds name None)
    as (w2 & R2 & C2 & O2 & G2 & K2); try (rewrite C1); try assumption.
  { rewrite (K1 _ HDc). exact Hc. }
  { apply kind_none_lookup. rewrite (K1 _ P1). unfold kind_at. rewrite HE. reflexivity. }
  { rewrite (K1 _ P5). exact Hds. }
  { left. exact HD1. }
  exists w2. split; [| split; [exact G2 | split; [| split]]].
  - intros max_tries. unfold backoff_rmdir, bind at 1, ask, gather. cbn [isdir posix].
    rewrite (posix_isdir_at _ _ _ (HpD w)).
    rewrite stat_not_link by (rewrite HD; reflexivity). rewrite HD. cbn [is_dir negb].
    erewrite bind_return;
      [| unfold backoff_rmdir_bulk, try_except; rewrite R1; reflexivity].
    erewrite bind_return.
    2:{ unfold backoff_rmdir_walk, bind, gather. cbn [walk posix]. unfold posix_walk.
        rewrite (HpD w1), (lookup_none_stat _ _ _ HD1). reflexivity. }
    unfold _rmdir, try_except.
    erewrite bind_return.
    2:{ unfold run. cbn [recursive_make_writable posix].
        unfold posix_recursive_make_writable. rewrite (HpD w1).
        rewrite (alter_missing _ _ _ HD1), set_fs_same. reflexivity. }
    rewrite (exp_backoff_returns _ posix _
               (rmtree posix (render (ds ++ [name])) (Some (retry posix max_tries)))
               max_tries w1 tt w2 R2).
    reflexivity.
  - intros q Hq. rewrite (K2 q Hq). apply K1. exact Hq.
  - rewrite C2. exact C1.
  - rewrite O2, O1, C1, <- app_assoc. reflexivity.
Qed.

(** [rm_rf] on a real directory in a writable directory: it is
    [backoff_rmdir], which removes the tree, then the re-check, which finds
    nothing, then the pruning if asked for. *)
Lemma rm_rf_posix_removes :
  forall w ds name dw des fuel max_retries trash,
    forallb valid_name (ds ++ [name]) = true ->
    forallb valid_name (cwd w) = true ->
    kind_at (cwd w) (fs w) = Some (KDir true) ->
    lookup (cwd w ++ [".empty"]) (fs w) = None ->
    is_prefix (ds ++ [name]) (cwd w) = false ->
    kind_at ds (fs w) = Some (KDir true) ->
    lookup (ds ++ [name]) (fs w) = Some (Dir dw des) ->
    exists w',
      (forall max_tries,
         backoff_rmdir posix (render (ds ++ [name])) max_tries w = (Return tt, w')) /\
      rm_rf posix fuel (render (ds ++ [name])) max_retries trash false w = (Return true, w') /\
      rm_rf posix fuel (render (ds ++ [name])) max_retries trash true w
      = (remove_empty_parent_paths posix fuel (render (ds ++ [name])) ;; ret true) w' /\
      (forall q, is_prefix (ds ++ [name]) q = true -> kind_at q (fs w') = None) /\
      (forall q, is_prefix (ds ++ [name]) q = false -> kind_at q (fs w') = kind_at q (fs w)) /\
      cwd w' = cwd w /\
      stdout w'
      = (stdout w
           ++ [rsync_line (cwd w) (ds ++ [name]); rsync_line (cwd w) (ds ++ [name])])%list.
Proof.
  intros w ds name dw des fuel max_retries trash HvD Hvc Hc HE HDc Hds HD.
  destruct (backoff_rmdir_posix_removes w ds name dw des
              HvD Hvc Hc HE HDc Hds HD) as (w' & Hrun & Hgone & Hframe & Hcwd & Hout).
  exists w'. split; [exact Hrun |].
  assert (HpD : forall u, path_comps (cwd u) (render (ds ++ [name])) = Some (ds ++ [name])%list)
    by (intros u; apply path_comps_render; exact HvD).
  assert (Hl' : lookup (ds ++ [name]) (fs w') = None).
  { apply kind_none_lookup. apply Hgone. pose proof (is_prefix_app (ds ++ [name]) []) as H.
    rewrite app_nil_r in H. exact H. }
  assert (Htry : rm_rf_try posix (render (ds ++ [name])) w
                 = (Return tt, render (ds ++ [name]), w')).
  { rewrite (rm_rf_try_abspath _ posix _ w (render (ds ++ [name])) w)
      by (apply abspath_render; exact HvD).
    rewrite (rm_rf_classify_dir _ posix (render (ds ++ [name])) w w w).
    - rewrite (Hrun (MAX_TRIES posix)). reflexivity.
    - cbn [isdir posix]. rewrite (posix_isdir_at _ _ _ (HpD w)).
      rewrite stat_not_link by (rewrite HD; reflexivity). rewrite HD. reflexivity.
    - cbn [islink posix]. unfold posix_islink. rewrite (HpD w), HD. reflexivity. }
  assert (Hany : forall clean,
            rm_rf posix fuel (render (ds ++ [name])) max_retries trash clean w
            = if clean
              then (remove_empty_parent_paths posix fuel (render (ds ++ [name])) ;; ret true) w'
              else (Return true, w')).
  { intros clean. rewrite rm_rf_unfold. unfold rm_rf_recheck, rm_rf_pruning.
    rewrite Htry. cbn [fst snd lexists posix].
    rewrite (posix_lexists_at _ _ _ (HpD w')), Hl'. cbn [is_some snd].
    destruct clean; [| reflexivity].
    unfold bind.
    destruct (remove_empty_parent_paths posix fuel (render (ds ++ [name])) w')
      as [[[] | e |] w3]; reflexivity. }
  split; [apply (Hany false) |]. split; [apply (Hany true) |].
  repeat split; assumption.
Qed.

(** X11.  Removing a directory tree.  On the POSIX file system let [D] be a
    real directory, named by a normalized absolute path, in a writable
    directory, such that every directory at or below [D] that holds something
    is writable; let the working directory be a writable directory outside
    [D] that holds no entry [.empty].  Then [backoff_rmdir(D)] returns for any
    retry budget and [rm_rf(D)] returns [True]: nothing is left at or below
    [D], every other path shows what it showed before ([.empty] is not left
    behind), the working directory is the same, and standard output has grown
    by the [rsync] command line, twice: once for the bulk deletion and once
    for the final [_rmdir], which creates [D] again and removes it.  With
    [clean_empty_parents] the pruning of the ancestors follows. *)
Theorem rm_rf_removes_directory :
  forall w ds name dw des fuel max_retries trash,
    forallb valid_name (ds ++ [name]) = true ->
    forallb valid_name (cwd w) = true ->
    kind_at (cwd w) (fs w) = Some (KDir true) ->
    lookup (cwd w ++ [".empty"]) (fs w) = None ->
    is_prefix (ds ++ [name]) (cwd w) = false ->
    kind_at ds (fs w) = Some (KDir true) ->
    lookup (ds ++ [name]) (fs w) = Some (Dir dw des) ->
    deletable (Dir dw des) = true ->
    exists w',
      (forall max_tries,
         backoff_rmdir posix (render (ds ++ [name])) max_tries w = (Return tt, w')) /\
      rm_rf posix fuel (render (ds ++ [name])) max_retries trash false w = (Return true, w') /\
      rm_rf posix fuel (render (ds ++ [name])) max_retries trash true w
      = (remove_empty_parent_paths posix fuel (render (ds ++ [name])) ;; ret true) w' /\
      (forall q, is_prefix (ds ++ [name]) q = true -> kind_at q (fs w') = None) /\
      (forall q, is_prefix (ds ++ [name]) q = false -> kind_at q (fs w') = kind_at q (fs w)) /\
      cwd w' = cwd w /\
      stdout w'
      = (stdout w
           ++ [rsync_line (cwd w) (ds ++ [name]); rsync_line (cwd w) (ds ++ [name])])%list.
Proof.
  intros w ds name dw des fuel max_retries trash HvD Hvc Hc HE HDc Hds HD _.
  exact (rm_rf_posix_removes w ds name dw des fuel max_retries trash
           HvD Hvc Hc HE HDc Hds HD).
Qed.

(** The directory [/d] of the sample tree, with a file, a subdirectory and a
    read-only file in it, from the working directory [/]. *)
Lemma rm_rf_removes_directory_witness :
  exists w',
    rm_rf posix 10 "/d" 5 true false w_links = (Return true, w') /\
    kind_at ["d"] (fs w') = None /\
    kind_at [".empty"] (fs w') = None /\
    kind_at ["ld"] (fs w') = Some (KLink "/d") /\
    stdout w' = ["rsync -a --delete /.empty/ /d/"; "rsync -a --delete /.empty/ /d/"].
Proof.
  destruct (rm_rf_removes_directory w_links [] "d" true
              [("f", File true "x"); ("sub", Dir true [("g", File false "y")])]
              10 5 true eq_refl eq_refl eq_refl eq_refl eq_refl eq_refl eq_refl eq_refl)
    as (w' & _ & H1 & _ & Hgone & Hframe & _ & Hout).
  exists w'. split; [exact H1 |]. split; [apply Hgone; reflexivity |].
  split; [rewrite Hframe by reflexivity; reflexivity |].
  split; [rewrite Hframe by reflexivity; reflexivity |].
  exact Hout.
Defined.

(** ** Read-only content *)

(** X13.  Permissions below the directory do not stand in the way.  On the
    POSIX file system let [D] be a real directory, named by a normalized
    absolute path, in a writable directory, and let the working directory be
    a writable directory outside [D] that holds no entry [.empty]; the
    directories and files at or below [D] may be read-only.  Then
    [backoff_rmdir(D)] returns for any retry budget and [rm_rf(D)] returns
    [True]: [rsync] mirrors the empty directory onto [D] whatever the write
    bits below it, so that nothing is left at or below [D]; every other path
    shows what it showed before, the working directory is the same, and
    standard output has grown by the [rsync] command line, twice. *)
Theorem rm_rf_removes_readonly_content :
  forall w ds name dw des fuel max_retries trash,
    forallb valid_name (ds ++ [name]) = true ->
    forallb valid_name (cwd w) = true ->
    kind_at (cwd w) (fs w) = Some (KDir true) ->
    lookup (cwd w ++ [".empty"]) (fs w) = None ->
    is_prefix (ds ++ [name]) (cwd w) = false ->
    kind_at ds (fs w) = Some (KDir true) ->
    lookup (ds ++ [name]) (fs w) = Some (Dir dw des) ->
    exists w',
      (forall max_tries,
         backoff_rmdir posix (render (ds ++ [name])) max_tries w = (Return tt, w')) /\
      rm_rf posix fuel (render (ds ++ [name])) max_retries trash false w = (Return true, w') /\
      (forall q, is_prefix (ds ++ [name]) q = true -> kind_at q (fs w') = None) /\
      (forall q, is_prefix (ds ++ [name]) q = false -> kind_at q (fs w') = kind_at q (fs w)) /\
      cwd w' = cwd w /\
      stdout w'
      = (stdout w
           ++ [rsync_line (cwd w) (ds ++ [name]); rsync_line (cwd w) (ds ++ [name])])%list.
Proof.
  intros w ds name dw des fuel max_retries trash HvD Hvc Hc HE HDc Hds HD.
  destruct (rm_rf_posix_removes w ds name dw des fuel max_retries trash
              HvD Hvc Hc HE HDc Hds HD)
    as (w' & Hb & Hr & _ & Hgone & Hframe & Hcwd & Hout).
  exists w'. repeat split; assumption.
Qed.

(** The read-only directory [/d] with a read-only file in it, from the
    working directory [/]. *)
Lemma rm_rf_removes_readonly_content_witness :
  deletable (Dir false [("f", File false "x"); ("g", File true "y")]) = false /\
  exists w',
    rm_rf posix 10 "/d" 5 true false w_sealed = (Return true, w') /\
    kind_at ["d"] (fs w') = None /\
    kind_at ["d"; "f"] (fs w') = None /\
    kind_at [".empty"] (fs w') = None /\
    kind_at ["tmp"] (fs w') = Some (KDir true).
Proof.
  split; [reflexivity |].
  destruct (rm_rf_removes_readonly_content w_sealed [] "d" false
              [("f", File false "x"); ("g", File true "y")]
              10 5 true eq_refl eq_refl eq_refl eq_refl eq_refl eq_refl eq_refl)
    as (w' & _ & H1 & Hgone & Hframe & _).
  exists w'. split; [exact H1 |]. split; [apply Hgone; reflexivity |].
  split; [apply Hgone; reflexivity |].
  split; rewrite Hframe by reflexivity; reflexivity.
Defined.

(** ** A directory that cannot be removed from its parent *)

(** [rmtree] when the directory holding [D] is read-only: [D] is emptied all
    the same, [.empty] is cleaned up, and the final [rmdir] is refused. *)
Lemma rmtree_posix_refused : forall w ds name dw des onerror,
  forallb valid_name (ds ++ [name]) = true ->
  forallb valid_name (cwd w) = true ->
  kind_at (cwd w) (fs w) = Some (KDir true) ->
  lookup (cwd w ++ [".empty"]) (fs w) = None ->
  kind_at ds (fs w) = Some (KDir false) ->
  is_prefix (ds ++ [name]) (cwd w) = false ->
  lookup (ds ++ [name]) (fs w) = Some (Dir dw des) ->
  exists w',
    rmtree posix (render (ds ++ [name])) onerror w = (Raise (OSError EACCES), w') /\
    cwd w' = cwd w /\
    stdout w' = (stdout w ++ [rsync_line (cwd w) (ds ++ [name])])%list /\
    lookup (ds ++ [name]) (fs w') = Some (Dir true []) /\
    (forall q, is_prefix (ds ++ [name]) q = false -> kind_at q (fs w') = kind_at q (fs w)).
Proof.
  intros w ds name dw des onerror HvD Hvc Hc HE Hds HDc HD.
  destruct w as [t c out]. cbn [fs cwd stdout] in *.
  assert (HDE : (ds ++ [name])%list <> (c ++ [".empty"])%list)
    by (intros Heq; rewrite Heq, HE in HD; discriminate).
  assert (P1 : is_prefix (ds ++ [name]) (c ++ [".empty"]) = false).
  { destruct (is_prefix (ds ++ [name]) (c ++ [".empty"])) eqn:H; [| reflexivity].
    destruct (is_prefix_snoc _ _ _ H) as [H' | H']; [congruence | contradiction]. }
  assert (Hup : forall p, kind_at p t <> None -> is_prefix (c ++ [".empty"]) p = false).
  { intros p Hp. destruct (is_prefix (c ++ [".empty"]) p) eqn:H; [| reflexivity].
    exfalso. apply Hp. unfold kind_at. rewrite (lookup_below_none _ _ _ HE H). reflexivity. }
  assert (P3 : is_prefix (c ++ [".empty"]) ds = false) by (apply Hup; rewrite Hds; discriminate).
  assert (P2 : is_prefix (c ++ [".empty"]) (ds ++ [name]) = false)
    by (apply Hup; unfold kind_at; rewrite HD; discriminate).
  pose proof (is_prefix_snoc_self c ".empty") as P4.
  pose proof (is_prefix_snoc_self ds name) as P5.
  destruct (path_comps_empty_dir c Hvc) as [HpE1 HpE2].
  assert (HpD : path_comps c (render (ds ++ [name])) = Some (ds ++ [name])%list)
    by (apply path_comps_render; exact HvD).
  pose proof (path_comps_slash _ _ _ HpD) as HpD'.
  (* makedirs *)
  destruct (kind_dir_lookup _ _ _ Hc) as (ces & Hces).
  assert (Ha : assoc ".empty" ces = None) by (rewrite lookup_snoc, Hces in HE; exact HE).
  set (t1 := alter c (put_entry ".empty" (Dir true [])) t).
  assert (M1 : fs_makedirs [] (c ++ [".empty"]) t = (inl tt, t1))
    by apply (fs_makedirs_leaf c [] ".empty" t true ces Hces Ha).
  assert (F1a : lookup (c ++ [".empty"]) t1 = Some (Dir true []))
    by apply (lookup_put_entry c ".empty" _ t true ces Hces).
  assert (F1b : forall q, is_prefix (c ++ [".empty"]) q = false -> kind_at q t1 = kind_at q t).
  { intros q Hq. apply (kind_at_entry_outside c ".empty" _ (only_entry_put _ _)). exact Hq. }
  assert (F1c : lookup (ds ++ [name]) t1 = Some (Dir dw des)).
  { rewrite <- HD. apply (lookup_entry_off c ".empty" _ (only_entry_put _ _)); assumption. }
  assert (Hc1 : exists es1, lookup c t1 = Some (Dir true es1)).
  { apply kind_dir_lookup. rewrite (F1b c P4). exact Hc. }
  destruct Hc1 as (es1 & Hc1).
  (* rsync *)
  set (t2 := alter (ds ++ [name]) (fun _ => Dir true []) t1).
  assert (F2a : lookup (ds ++ [name]) t2 = Some (Dir true [])).
  { unfold t2. rewrite lookup_alter_same, F1c. reflexivity. }
  assert (M2 : fs_rsync_delete (c ++ [".empty"]) (ds ++ [name]) t1 = (inl tt, t2)).
  { unfold fs_rsync_delete.
    rewrite (stat_not_link _ (c ++ [".empty"])%list t1) by (rewrite F1a; reflexivity).
    rewrite F1a, F1c, (realpath_not_link _ _ _ _ F1c eq_refl), F1c. reflexivity. }
  assert (F2b : lookup (c ++ [".empty"]) t2 = Some (Dir true [])).
  { rewrite <- F1a. apply lookup_alter_off; assumption. }
  assert (F2c : forall q, is_prefix (ds ++ [name]) q = false -> kind_at q t2 = kind_at q t1).
  { intros q Hq. apply kind_at_alter_outside. exact Hq. }
  (* shutil.rmtree *)
  assert (Hc2 : exists es2, lookup c t2 = Some (Dir true es2)).
  { apply kind_dir_lookup. rewrite (F2c c HDc), (F1b c P4). exact Hc. }
  destruct Hc2 as (es2 & Hc2).
  set (t3 := alter c (drop_entry ".empty") t2).
  assert (M3 : fs_rmtree (c ++ [".empty"]) t2 = (inl tt, t3)).
  { rewrite fs_rmtree_snoc, Hc2.
    pose proof F2b as F2e. rewrite lookup_snoc, Hc2 in F2e.
    rewrite F2e. reflexivity. }
  assert (F3b : forall q, is_prefix (c ++ [".empty"]) q = false -> kind_at q t3 = kind_at q t2).
  { intros q Hq. apply (kind_at_entry_outside c ".empty" _ (only_entry_drop _)). exact Hq. }
  assert (F3a : lookup (ds ++ [name]) t3 = Some (Dir true [])).
  { rewrite <- F2a. apply (lookup_entry_off c ".empty" _ (only_entry_drop _)); assumption. }
  (* rmdir *)
  assert (Hd3 : exists es3, lookup ds t3 = Some (Dir false es3)).
  { apply kind_dir_lookup. rewrite (F3b ds P3), (F2c ds P5), (F1b ds P3). exact Hds. }
  destruct Hd3 as (es3 & Hd3).
  assert (M4 : fs_rmdir (ds ++ [name]) t3 = (inr EACCES, t3)).
  { rewrite fs_rmdir_snoc, Hd3. pose proof F3a as F3e. rewrite lookup_snoc, Hd3 in F3e.
    rewrite F3e. reflexivity. }
  (* the run *)
  exists {| fs := t3; cwd := c; stdout := out ++ [rsync_line c (ds ++ [name])] |}.
  split; [| split; [reflexivity | split; [reflexivity | split; [exact F3a |]]]].
  - unfold rmtree. cbn [on_win posix makedirs getcwd print check_call shutil_rmtree rmdir join].
    set (w1 := {| fs := t1; cwd := c; stdout := out |}).
    set (w1p := {| fs := t1; cwd := c; stdout := out ++ [rsync_line c (ds ++ [name])] |}).
    assert (E1 : try_except (call (posix_makedirs ".empty")) (fun _ => ret tt)
                   {| fs := t; cwd := c; stdout := out |} = (Return tt, w1)).
    { unfold try_except, call, posix_makedirs, with_path, fs_call. cbn [fs cwd].
      rewrite HpE1, M1. reflexivity. }
    assert (E2 : forall o, call posix_getcwd {| fs := t1; cwd := c; stdout := o |}
                 = (Return (render c), {| fs := t1; cwd := c; stdout := o |})).
    { intros o. unfold call, posix_getcwd. cbn [fs cwd]. rewrite Hc1. reflexivity. }
    assert (E5 : run (posix_check_call
                        (Argv ["rsync"; "-a"; "--delete";
                               (posix_join (render c) ".empty" ++ "/")%string;
                               (render (ds ++ [name]) ++ "/")%string])) w1p
                 = (Return tt, {| fs := t2; cwd := c;
                                  stdout := out ++ [rsync_line c (ds ++ [name])] |})).
    { unfold run. rewrite posix_check_call_rsync. cbn [fs cwd w1p].
      rewrite HpE2, HpD', M2. reflexivity. }
    assert (E6 : call (posix_shutil_rmtree ".empty")
                   {| fs := t2; cwd := c; stdout := out ++ [rsync_line c (ds ++ [name])] |}
                 = (Return tt, {| fs := t3; cwd := c;
                                  stdout := out ++ [rsync_line c (ds ++ [name])] |})).
    { unfold call, posix_shutil_rmtree, with_path, fs_call. cbn [fs cwd].
      rewrite HpE1, M3. reflexivity. }
    assert (E7 : call (posix_rmdir (render (ds ++ [name])))
                   {| fs := t3; cwd := c; stdout := out ++ [rsync_line c (ds ++ [name])] |}
                 = (Raise (OSError EACCES),
                    {| fs := t3; cwd := c; stdout := out ++ [rsync_line c (ds ++ [name])] |})).
    { unfold call, posix_rmdir, with_path, fs_call. cbn [fs cwd].
      rewrite HpD, M4. reflexivity. }
    erewrite bind_return; [exact E7 |].
    erewrite bind_return; [| exact E1].
    erewrite bind_return; [| apply E2]. cbv zeta.
    erewrite bind_return; [| reflexivity].
    erewrite bind_return; [| apply (E2 (out ++ [rsync_line c (ds ++ [name])])%list)].
    erewrite bind_return; [| exact E5].
    exact E6.
  - intros q Hq. cbn [fs].
    destruct (is_prefix (c ++ [".empty"]) q) eqn:HEq.
    + unfold t3. rewrite (kind_at_drop_under c ".empty" q t2 HEq).
      unfold kind_at. rewrite (lookup_below_none _ _ _ HE HEq). reflexivity.
    + rewrite (F3b q HEq), (F2c q Hq), (F1b q HEq). reflexivity.
Qed.

Section Refused.
Variable w0 : world.
Variables (ds : list string) (name : string).
Hypothesis HvD : forallb valid_name (ds ++ [name]) = true.
Hypothesis Hvc : forallb valid_name (cwd w0) = true.
Hypothesis Hc : kind_at (cwd w0) (fs w0) = Some (KDir true).
Hypothesis HE : lookup (cwd w0 ++ [".empty"]) (fs w0) = None.
Hypothesis Hds : kind_at ds (fs w0) = Some (KDir false).
Hypothesis HDc : is_prefix (ds ++ [name]) (cwd w0) = false.
Hypothesis HDE : (ds ++ [name])%list <> (cwd w0 ++ [".empty"])%list.

Lemma refused_attempt : forall u onerror,
  emptied (ds ++ [name]) w0 u ->
  exists u',
    rmtree posix (render (ds ++ [name])) onerror u = (Raise (OSError EACCES), u') /\
    emptied (ds ++ [name]) w0 u'.
Proof.
  intros u onerror (Hcw & Hl & Hk).
  assert (P1 : is_prefix (ds ++ [name]) (cwd w0 ++ [".empty"]) = false).
  { destruct (is_prefix (ds ++ [name]) (cwd w0 ++ [".empty"])) eqn:H; [| reflexivity].
    destruct (is_prefix_snoc _ _ _ H) as [H' | H']; [congruence | contradiction]. }
  pose proof (is_prefix_snoc_self ds name) as P5.
  destruct (rmtree_posix_refused u ds name true [] onerror)
    as (u' & Hrun & Hcw' & _ & Hl' & Hk'); try rewrite Hcw; try assumption.
  - rewrite (Hk _ HDc). exact Hc.
  - apply kind_none_lookup. rewrite (Hk _ P1). unfold kind_at. rewrite HE. reflexivity.
  - rewrite (Hk _ P5). exact Hds.
  - exists u'. split; [exact Hrun |]. split; [congruence |]. split; [exact Hl' |].
    intros q Hq. rewrite (Hk' q Hq). apply Hk. exact Hq.
Qed.

Lemma refused_backoff : forall remaining attempt u onerror,
  emptied (ds ++ [name]) w0 u ->
  exists u',
    exp_backoff_loop posix (rmtree posix (render (ds ++ [name])) onerror) attempt remaining u
    = (Raise (OSError EACCES), u') /\
    emptied (ds ++ [name]) w0 u'.
Proof.
  induction remaining as [| r IH]; intros attempt u onerror Hu; simpl.
  - apply refused_attempt. exact Hu.
  - destruct (refused_attempt u onerror Hu) as (u1 & Hrun & Hu1).
    unfold try_except. rewrite Hrun.
    change (transient posix (OSError EACCES)) with true. cbv iota.
    unfold bind, effect. cbn [sleep posix]. apply IH. exact Hu1.
Qed.
End Refused.

(** X12.  A directory that cannot be removed from its parent loses its
    contents all the same.  On the POSIX file system let [D] be a real
    directory, named by a normalized absolute path, in a read-only directory,
    such that every directory at or below [D] that holds something is
    writable; let the working directory be a writable directory outside [D]
    that holds no entry [.empty].  Then [backoff_rmdir(D)] raises
    [OSError(EACCES)] for any retry budget and [rm_rf(D)] returns [False],
    with or without [clean_empty_parents]; afterwards [D] is still there,
    writable and empty, and every path outside [D] shows what it showed
    before. *)
Theorem rm_rf_directory_in_readonly_parent :
  forall w ds name dw des,
    forallb valid_name (ds ++ [name]) = true ->
    forallb valid_name (cwd w) = true ->
    kind_at (cwd w) (fs w) = Some (KDir true) ->
    lookup (cwd w ++ [".empty"]) (fs w) = None ->
    is_prefix (ds ++ [name]) (cwd w) = false ->
    kind_at ds (fs w) = Some (KDir false) ->
    lookup (ds ++ [name]) (fs w) = Some (Dir dw des) ->
    deletable (Dir dw des) = true ->
    (forall max_tries, exists u,
       backoff_rmdir posix (render (ds ++ [name])) max_tries w = (Raise (OSError EACCES), u) /\
       emptied (ds ++ [name]) w u) /\
    (forall fuel max_retries trash clean, exists w',
       rm_rf posix fuel (render (ds ++ [name])) max_retries trash clean w = (Return false, w') /\
       emptied (ds ++ [name]) w w').
Proof.
  intros w ds name dw des HvD Hvc Hc HE HDc Hds HD Hdel.
  assert (HDE : (ds ++ [name])%list <> (cwd w ++ [".empty"])%list)
    by (intros Heq; rewrite Heq, HE in HD; discriminate).
  assert (HpD : forall u, path_comps (cwd u) (render (ds ++ [name])) = Some (ds ++ [name])%list)
    by (intros u; apply path_comps_render; exact HvD).
  assert (Hback : forall max_tries, exists u,
            backoff_rmdir posix (render (ds ++ [name])) max_tries w
            = (Raise (OSError EACCES), u) /\ emptied (ds ++ [name]) w u).
  { intros max_tries.
    destruct (rmtree_posix_refused w ds name dw des None HvD Hvc Hc HE Hds HDc HD)
      as (w1 & R1 & C1 & _ & L1 & K1).
    set (w1' := set_fs w1 (alter (ds ++ [name]) all_writable (fs w1))).
    assert (Hw1' : emptied (ds ++ [name]) w w1').
    { split; [exact C1 |]. split.
      - unfold w1'. rewrite fs_set_fs, lookup_alter_same, L1. reflexivity.
      - intros q Hq. unfold w1'. rewrite fs_set_fs, (kind_at_alter_outside _ _ _ _ Hq).
        apply K1. exact Hq. }
    destruct (refused_backoff w ds name HvD Hvc Hc HE Hds HDc HDE (Nat.pred max_tries) 0 w1'
                (Some (retry posix max_tries)) Hw1') as (u & Hrun & Hu).
    exists u. split; [| exact Hu].
    unfold backoff_rmdir, bind at 1, ask, gather. cbn [isdir posix].
    rewrite (posix_isdir_at _ _ _ (HpD w)).
    rewrite stat_not_link by (rewrite HD; reflexivity). rewrite HD. cbn [is_dir negb].
    erewrite bind_return;
      [| unfold backoff_rmdir_bulk, try_except; rewrite R1; reflexivity].
    erewrite bind_return.
    2:{ unfold backoff_rmdir_walk, bind, gather. cbn [walk posix]. unfold posix_walk.
        rewrite (HpD w1).
        rewrite stat_not_link by (rewrite L1; reflexivity). rewrite L1. reflexivity. }
    unfold _rmdir, try_except.
    unfold bind at 1, run at 1. cbn [recursive_make_writable posix].
    unfold posix_recursive_make_writable. rewrite (HpD w1). fold w1'.
    unfold exp_backoff_fn. rewrite Hrun. reflexivity. }
  split; [exact Hback |].
  intros fuel max_retries trash clean.
  destruct (Hback (MAX_TRIES posix)) as (u & Hrun & Hu).
  exists u. split; [| exact Hu].
  destruct Hu as (Hcw & Hl & Hk).
  rewrite rm_rf_unfold. unfold rm_rf_recheck.
  rewrite (rm_rf_try_abspath _ posix _ w (render (ds ++ [name])) w)
    by (apply abspath_render; exact HvD).
  rewrite (rm_rf_classify_dir _ posix (render (ds ++ [name])) w w w).
  - rewrite Hrun. cbn [fst snd lexists posix].
    rewrite (posix_lexists_at _ _ _ (HpD u)), Hl. reflexivity.
  - cbn [isdir posix]. rewrite (posix_isdir_at _ _ _ (HpD w)).
    rewrite stat_not_link by (rewrite HD; reflexivity). rewrite HD. reflexivity.
  - cbn [islink posix]. unfold posix_islink. rewrite (HpD w), HD. reflexivity.
Qed.

(** The directory [/ro/p], with a file and a populated subdirectory, in the
    read-only [/ro]: [rm_rf] reports failure and the contents are gone. *)
Lemma rm_rf_directory_in_readonly_parent_witness :
  exists w',
    rm_rf posix 10 "/ro/p" 5 true false w_kept = (Return false, w') /\
    kind_at ["ro"; "p"] (fs w') = Some (KDir true) /\
    kind_at ["ro"; "p"; "f"] (fs w') = None /\
    kind_at ["ro"; "p"; "sub"] (fs w') = None.
Proof.
  destruct (proj2 (rm_rf_directory_in_readonly_parent w_kept ["ro"] "p" true
                     [("f", File true "x"); ("sub", Dir true [("g", File true "y")])]
                     eq_refl eq_refl eq_refl eq_refl eq_refl eq_refl eq_refl eq_refl)
              10 5 true false) as (w' & H1 & _ & Hl & _).
  exists w'. split; [exact H1 |].
  unfold kind_at. simpl app in Hl.
  change ["ro"; "p"; "f"] with (["ro"; "p"] ++ ["f"])%list.
  change ["ro"; "p"; "sub"] with (["ro"; "p"] ++ ["sub"])%list.
  rewrite !lookup_app, Hl. split; [reflexivity | split; reflexivity].
Defined.
